(** * SVRG training loop ([svrg.py]): a shallow embedding and its properties.

    The embedding follows [SVRGTrainer.train] statement by statement.
    Python floats and tensor entries are idealised as exact rationals
    ([Qc], canonical fractions with Leibniz equality): the rounding of
    losses, gradients and parameter values is not modelled.  The one float
    operation that decides how the program runs, the product
    [len(train_loader) * inner_epoch_fraction] of line 73, is a capability
    of the environment, and the fraction may be an infinity or a NaN.  The
    torch capabilities the trainer calls into (forward pass, loss,
    per-parameter gradients, the data loader, the clock and the random
    source) are the fields of an environment record.  Tensors are
    flat vectors; operations on vectors of different sizes, which torch
    rejects, act on the common prefix, and the properties that depend on
    sizes assume that the gradient engine returns gradients of the
    parameters' sizes. *)

From Stdlib Require Import QArith Qcanon ZArith Lia Ascii.
From stdpp Require Import base list strings gmap pretty.

Open Scope Qc_scope.

(** ** Python exceptions, tagged with the source line that raises them *)

Inductive exn :=
| ZeroDivisionError | IndexError | RuntimeError
| ValueError | OverflowError | TypeError.

Record failure := Failure { raised : exn; at_line : nat }.

Inductive result (A : Type) :=
| Ok (a : A)
| Raise (f : failure).
Arguments Ok {A} a.
Arguments Raise {A} f.

Global Instance result_ret : MRet result := fun _ a => Ok a.
Global Instance result_bind : MBind result := fun _ _ k r =>
  match r with
  | Ok a => k a
  | Raise f => Raise f
  end.

Global Instance result_fmap : FMap result := fun _ _ f r =>
  match r with
  | Ok a => Ok (f a)
  | Raise e => Raise e
  end.

Global Instance exn_eq_dec : EqDecision exn.
Proof. solve_decision. Defined.

Global Instance failure_eq_dec : EqDecision failure.
Proof. solve_decision. Defined.

Global Instance result_eq_dec {A} `{EqDecision A} : EqDecision (result A).
Proof. solve_decision. Defined.

(** Whether a computation returned. *)
Definition is_ok {A} (r : result A) : bool :=
  match r with Ok _ => true | Raise _ => false end.

(** [a / b] on Python numbers: raises [ZeroDivisionError] when [b] is zero. *)
Definition py_div (line : nat) (a b : Qc) : result Qc :=
  if decide (b = 0) then Raise (Failure ZeroDivisionError line) else Ok (a / b).

(** [int(q)]: truncation toward zero. *)
Definition py_int (q : Qc) : Z := Z.quot (Qnum q) (Zpos (Qden q)).

(** A Python float that need not be finite: a finite value, an infinity
    or a NaN. *)
Inductive pyfloat :=
| Finite (q : Qc)
| Infinity (negative : bool)
| NaN.

(** [int(x)] on a float: truncation toward zero; [OverflowError] on an
    infinity and [ValueError] on a NaN. *)
Definition py_int_float (line : nat) (x : pyfloat) : result Z :=
  match x with
  | Finite q => Ok (py_int q)
  | Infinity _ => Raise (Failure OverflowError line)
  | NaN => Raise (Failure ValueError line)
  end.

(** [range(1, n + 1)] *)
Definition range1 (n : Z) : list Z := map Z.of_nat (seq 1 (Z.to_nat n)).

Definition of_nat (n : nat) : Qc := Q2Qc (inject_Z (Z.of_nat n)).

(** ** Tensors: flat vectors of numbers ([x.view(-1)]) *)

Abbreviation tensor := (list Qc).

Definition vadd : tensor -> tensor -> tensor := zip_with Qcplus.
Definition vsub : tensor -> tensor -> tensor := zip_with Qcminus.
Definition vscale (c : Qc) : tensor -> tensor := map (Qcmult c).
Definition vneg : tensor -> tensor := map Qcopp.
Definition vdiv (t : tensor) (c : Qc) : tensor := map (fun x => x / c) t.
Definition zeros (n : nat) : tensor := replicate n 0.
Definition vsum (t : tensor) : Qc := foldr Qcplus 0 t.
(** [torch.dot] *)
Definition dot (a b : tensor) : Qc := vsum (zip_with Qcmult a b).
(** [t.item()] of a one-element tensor *)
Definition item (t : tensor) : Qc := default 0 (head t).

(** Per-parameter lists of tensors (one entry per [nn.Parameter]). *)
Definition gadd : list tensor -> list tensor -> list tensor := zip_with vadd.
Definition gscale (c : Qc) : list tensor -> list tensor := map (vscale c).
(** [torch.cat] of flat views *)
Definition cat (ts : list tensor) : tensor := concat ts.

(** Cut a flat vector into pieces of the given sizes (the backward of
    [torch.cat] over views). *)
Fixpoint split_sizes (sizes : list nat) (t : tensor) : list tensor :=
  match sizes with
  | [] => []
  | n :: sizes' => take n t :: split_sizes sizes' (drop n t)
  end.

(** ** Modules: named parameters, each with its value and its [.grad] *)

Record Param := { data : tensor; grad : tensor }.

Definition Module := list (string * Param).

(** A state dict: a dictionary from parameter names to values. *)
Abbreviation StateDict := (gmap string tensor).

Definition names (m : Module) : list string := m.*1.

(** [module.named_parameters()] and [module.parameters()] *)
Definition named_parameters (m : Module) : list (string * tensor) :=
  map (fun np => (np.1, data np.2)) m.
Definition parameters (m : Module) : list tensor := map (fun np => data np.2) m.
Definition grads (m : Module) : list tensor := map (fun np => grad np.2) m.
Definition shapes (m : Module) : list nat := map length (parameters m).

(** [module.state_dict()] *)
Definition state_dict (m : Module) : StateDict := list_to_map (named_parameters m).

(** [copy.deepcopy]: values are immutable here, so a deep copy is the value. *)
Definition deepcopy {A} (a : A) : A := a.

(** [module.zero_grad()] / [optimizer.zero_grad()] *)
Definition zero_grad (m : Module) : Module :=
  map (fun np => (np.1, {| data := data np.2; grad := zeros (length (data np.2)) |})) m.

(** Add one tensor per parameter into the [.grad] fields (what
    [backward] does at the leaves of the graph). *)
Fixpoint accumulate (gs : list tensor) (m : Module) : Module :=
  match m, gs with
  | np :: m', g :: gs' =>
      (np.1, {| data := data np.2; grad := vadd (grad np.2) g |}) :: accumulate gs' m'
  | _, _ => m
  end.

(** [module.load_state_dict(sd)] (strict): every parameter is overwritten
    in place with the entry of its name; a missing key, an unexpected key
    or a size mismatch raises [RuntimeError]. *)
Fixpoint load_params (line : nat) (m : Module) (sd : StateDict) : result Module :=
  match m with
  | [] => Ok []
  | np :: m' =>
      match sd !! np.1 with
      | Some v =>
          if decide (length v = length (data np.2)) then
            rest ← load_params line m' sd;
            mret ((np.1, {| data := v; grad := grad np.2 |}) :: rest)
          else Raise (Failure RuntimeError line)
      | None => Raise (Failure RuntimeError line)
      end
  end.

Definition load_state_dict (line : nat) (m : Module) (sd : StateDict) : result Module :=
  if decide (dom sd ⊆ list_to_set (names m)) then load_params line m sd
  else Raise (Failure RuntimeError line).

(** [torch.optim.SGD(params, lr, weight_decay).step()], no momentum:
    [p -= lr * (p.grad + weight_decay * p)]. *)
Definition sgd_param (lr wd : Qc) (p : Param) : Param :=
  {| data := vsub (data p) (vscale lr (vadd (grad p) (vscale wd (data p))));
     grad := grad p |}.

Definition sgd_step (lr wd : Qc) (m : Module) : Module :=
  map (fun np => (np.1, sgd_param lr wd np.2)) m.

(** [torch.optim.SGD(params, lr=lr, weight_decay=weight_decay)]: the
    constructor raises [ValueError] for a negative learning rate, for a
    negative weight decay and for an empty parameter list. *)
Definition torch_optim_SGD (line : nat) (params : list tensor) (lr wd : Qc)
  : result unit :=
  if decide (lr < 0 \/ wd < 0 \/ params = [])
  then Raise (Failure ValueError line)
  else Ok tt.

(** ** The environment: the capabilities [train] calls into *)

Record Torch := {
  (** one labelled example of the dataset *)
  example : Type;
  (** [loss_fn(model(data), label).item()] for a model at the given
      parameter values and a batch *)
  loss_value : list tensor -> list example -> Qc;
  (** the gradient of that loss, one tensor per parameter *)
  loss_grad : list tensor -> list example -> list tensor;
  (** square root, for gradient norms *)
  sqrt : Qc -> Qc;
  (** [x * y] for an int or a finite float [x] and a finite float [y], as
      the machine computes it: the rounded product, or an infinity when it
      overflows *)
  float_mul : Qc -> Qc -> pyfloat;
  (** [time.time()]: the reading returned by the k-th call *)
  clock : nat -> Qc;
  (** the random module: the k-th draw of an index below [n] *)
  randbelow : nat -> nat -> nat;
  (** [create_model()]: the module built by the k-th call *)
  create_model : nat -> Module;
}.

(** A [DataLoader]: [len(loader.dataset)] is [length (dataset l)],
    [len(loader)] is [loader_len l], and the k-th iteration over the
    loader yields the batches [loader_iter l k]. *)
Record DataLoader (E : Type) := {
  dataset : list E;
  loader_len : nat;
  loader_iter : nat -> list (list E);
}.
Arguments dataset {E} d.
Arguments loader_len {E} d.
Arguments loader_iter {E} d k.

(** The batches of an iteration: the examples in the sampler's order, cut
    into consecutive pieces of [batch_size], the last one possibly shorter
    ([drop_last=False]). *)
Fixpoint chunks_fuel {E} (fuel batch_size : nat) (xs : list E) : list (list E) :=
  match fuel with
  | O => []
  | S fuel' =>
      match xs with
      | [] => []
      | _ => take batch_size xs :: chunks_fuel fuel' batch_size (drop batch_size xs)
      end
  end.

Definition chunks {E} (batch_size : nat) (xs : list E) : list (list E) :=
  chunks_fuel (length xs) batch_size xs.

(** [torch.utils.data.DataLoader(dataset, batch_size=..., shuffle=True)], as
    [main] builds it on lines 180-181: a positive batch size; each iteration
    draws an order of the dataset and yields its chunks; [len(loader)] is
    the number of examples divided by the batch size, rounded up. *)
Definition is_data_loader {E} (l : DataLoader E) : Prop :=
  exists (batch_size : nat) (sampler : nat -> list E),
    (0 < batch_size)%nat
    /\ (forall k, sampler k ≡ₚ dataset l)
    /\ (forall k, loader_iter l k = chunks batch_size (sampler k))
    /\ loader_len l = ((length (dataset l) + batch_size - 1) / batch_size)%nat.

(** The arguments of [train] other than the loader and the device: the
    epoch counts are ints, the rates and the weight decay finite floats, and
    the fraction is [None] or any float. *)
Record Config := {
  num_warmup_epochs : Z;
  num_outer_epochs : Z;
  num_inner_epochs : Z;
  inner_epoch_fraction : option pyfloat;
  warmup_learning_rate : Qc;
  learning_rate : Qc;
  weight_decay : Qc;
  choose_random_iterate : bool;
}.

(** The dictionaries appended to [metrics]. *)
Inductive Metric :=
| WarmupRecord (warmup_epoch : Z) (train_loss grad_norm : Qc)
| InnerRecord (outer_epoch inner_epoch : Z) (train_loss grad_norm : Qc).

(** What [train] mutates: the two modules, the metrics list, and the
    positions in the three external streams (iterations started over the
    loader, clock readings, random draws). *)
Record State := {
  model : Module;
  target_model : Module;
  metrics : list Metric;
  passes : nat;
  ticks : nat;
  draws : nat;
}.

(** [for x in xs: body], stopping at the first exception. *)
Fixpoint for_each {A S} (body : A -> S -> result S) (xs : list A) (s : S) : result S :=
  match xs with
  | [] => Ok s
  | x :: xs' => s' ← body x s; for_each body xs' s'
  end.

(** [seq[-1]] *)
Definition last_item {A} (line : nat) (l : list A) : result A :=
  match last l with
  | Some x => Ok x
  | None => Raise (Failure IndexError line)
  end.

Section Trainer.

Context (T : Torch).

Abbreviation batch := (list (example T)).

(** ** Automatic differentiation

    The part of the torch graph that [train] builds: tensors computed from
    the working module's parameters. *)

Inductive node :=
| Detached (v : tensor)     (* [t.detach()]: a constant *)
| Weights                   (* [torch.cat([x.view(-1) for x in model.parameters()])] *)
| LossOf (b : batch)        (* [loss_fn(model(data), label)] *)
| Dot (u v : node)          (* [torch.dot(u, v)] *)
| Sub (u v : node).         (* [u - v] *)

Fixpoint value (m : Module) (n : node) : tensor :=
  match n with
  | Detached v => v
  | Weights => cat (parameters m)
  | LossOf b => [loss_value T (parameters m) b]
  | Dot u v => [dot (value m u) (value m v)]
  | Sub u v => vsub (value m u) (value m v)
  end.

(** [n.backward()] with upstream gradient [up]: reverse-mode accumulation
    into the [.grad] of the module's parameters. *)
Fixpoint backward_from (n : node) (up : tensor) (m : Module) : Module :=
  match n with
  | Detached _ => m
  | Weights => accumulate (split_sizes (shapes m) up) m
  | LossOf b => accumulate (gscale (item up) (loss_grad T (parameters m) b)) m
  | Dot u v =>
      let m1 := backward_from u (vscale (item up) (value m v)) m in
      backward_from v (vscale (item up) (value m u)) m1
  | Sub u v =>
      let m1 := backward_from u up m in
      backward_from v (vneg up) m1
  end.

(** [loss.backward()] on a scalar: the upstream gradient is one. *)
Definition backward (n : node) (m : Module) : Module := backward_from n [1] m.

(** ** [utils.calculate_full_gradient] and [utils.calculate_full_gradient_norm] *)

(** Modelled from the spec: the body of the pass of
    [utils.calculate_full_gradient] over the loader ([utils.py] is not part
    of the sources).  Spec 4.1: for each batch, compute the per-parameter
    gradients, accumulate a running sum of (gradient x batch size) per
    parameter and a running total of the example count. *)
Definition full_gradient_pass (m : Module) (bs : list batch) : list tensor * nat :=
  foldl (fun acc b =>
           (gadd acc.1 (gscale (of_nat (length b)) (loss_grad T (parameters m) b)),
            (acc.2 + length b)%nat))
        (map zeros (shapes m), 0%nat) bs.

(** Modelled from the spec: [utils.calculate_full_gradient], missing from
    the sources.  Spec 4.1: after the pass, each accumulated parameter
    gradient is divided by the total example count; the result is the
    flattened gradient vector; accumulated gradients are cleared before and
    after, so the module's parameter values are left as they were.  The
    pass is the [k]-th iteration over the loader. *)
Definition calculate_full_gradient (m : Module) (l : DataLoader (example T)) (k : nat)
  : tensor * Module :=
  let acc := full_gradient_pass (zero_grad m) (loader_iter l k) in
  (cat (map (fun t => vdiv t (of_nat acc.2)) acc.1), zero_grad m).

(** Modelled from the spec: [utils.calculate_full_gradient_norm], missing
    from the sources.  Spec 4.1: the Euclidean norm of the flattened full
    gradient. *)
Definition calculate_full_gradient_norm (m : Module) (l : DataLoader (example T)) (k : nat)
  : Qc * Module :=
  let r := calculate_full_gradient m l k in
  (sqrt T (dot r.1 r.1), r.2).

(** ** [SVRGTrainer.train] *)

Context (train_loader : DataLoader (example T)) (cfg : Config).

(** [time.time()] *)
Definition time_time (st : State) : Qc * State :=
  (clock T (ticks st),
   {| model := model st; target_model := target_model st; metrics := metrics st;
      passes := passes st; ticks := S (ticks st); draws := draws st |}).

(** Start a new iteration over [train_loader]. *)
Definition iter_loader (st : State) : list batch * State :=
  (loader_iter train_loader (passes st),
   {| model := model st; target_model := target_model st; metrics := metrics st;
      passes := S (passes st); ticks := ticks st; draws := draws st |}).

Definition set_model (m : Module) (st : State) : State :=
  {| model := m; target_model := target_model st; metrics := metrics st;
     passes := passes st; ticks := ticks st; draws := draws st |}.

Definition set_target_model (m : Module) (st : State) : State :=
  {| model := model st; target_model := m; metrics := metrics st;
     passes := passes st; ticks := ticks st; draws := draws st |}.

(** [metrics.append(r)] *)
Definition metrics_append (r : Metric) (st : State) : State :=
  {| model := model st; target_model := target_model st; metrics := metrics st ++ [r];
     passes := passes st; ticks := ticks st; draws := draws st |}.

(** [random.choice(seq)]: [IndexError] on an empty sequence, else the
    element at the drawn index. *)
Definition random_choice {A} (line : nat) (seq : list A) (st : State) : result (A * State) :=
  match seq with
  | [] => Raise (Failure IndexError line)
  | _ =>
      match seq !! randbelow T (draws st) (length seq) with
      | Some x =>
          Ok (x, {| model := model st; target_model := target_model st;
                    metrics := metrics st; passes := passes st; ticks := ticks st;
                    draws := S (draws st) |})
      | None => Raise (Failure IndexError line)
      end
  end.

(** Lines 39-45: one warmup batch. *)
Definition warmup_batch (b : batch) (acc : Module * Qc) : Module * Qc :=
  let target := zero_grad acc.1 in                          (* 40 *)
  let loss := LossOf b in                                     (* 41-42 *)
  let target := backward loss target in                       (* 43 *)
  let loss_item := item (value target loss) in
  let target := sgd_step (warmup_learning_rate cfg) (weight_decay cfg) target in  (* 44 *)
  (target, acc.2 + loss_item * of_nat (length b)).            (* 45 *)

(** Lines 36-55: one warmup epoch. *)
Definition warmup_epoch_body (warmup_epoch : Z) (st : State) : result State :=
  let warmup_loss := 0 in
  let '(epoch_start, st) := time_time st in
  let '(batches, st) := iter_loader st in
  let '(target, warmup_loss) :=
    foldl (fun acc b => warmup_batch b acc) (target_model st, warmup_loss) batches in
  let st := set_target_model target st in
  avg_warmup_loss ← py_div 46 warmup_loss (of_nat (length (dataset train_loader)));
  let '(batches_pass, st) := (passes st, (iter_loader st).2) in
  let '(model_grad_norm, target) :=
    calculate_full_gradient_norm (target_model st) train_loader batches_pass in
  let st := set_target_model target st in
  let '(now, st) := time_time st in
  let elapsed_time := now - epoch_start in
  ex_per_sec ← py_div 50 (of_nat (length (dataset train_loader))) elapsed_time;
  mret (metrics_append (WarmupRecord warmup_epoch avg_warmup_loss model_grad_norm) st).

(** The variables of the batch loop of one sub-epoch. *)
Record Locals := {
  st : State;
  train_loss : Qc;
  examples_seen : nat;
  model_state_dicts : list StateDict;
}.

(** The auxiliary loss of lines 97-99, for the batch [b], the detached
    flat gradient of the target model and the full gradient [mu]. *)
Definition aux_loss_of (b : batch) (target_model_grad mu : tensor) : node :=
  Sub (LossOf b) (Dot (Detached (vsub target_model_grad mu)) Weights).

(** Lines 80-109: one batch of the inner loop. *)
Definition inner_batch (mu : tensor) (b : batch) (lo : Locals) : Locals :=
  let model := zero_grad (model (st lo)) in                     (* 81 *)
  let target := zero_grad (target_model (st lo)) in             (* 83 *)
  let target_model_loss := LossOf b in                          (* 84-85 *)
  let target := backward target_model_loss target in            (* 86 *)
  let target_model_grad := cat (grads target) in                (* 87-88 *)
  let model_loss := LossOf b in                                 (* 92-93 *)
  let aux_loss := aux_loss_of b target_model_grad mu in         (* 90-91, 97-99 *)
  let model_loss_item := item (value model model_loss) in
  let model := backward aux_loss model in                       (* 100 *)
  let model := sgd_step (learning_rate cfg) (weight_decay cfg) model in  (* 101 *)
  let copy_state_dict := deepcopy (state_dict model) in         (* 105-108 *)
  {| st := set_target_model target (set_model model (st lo));
     train_loss := train_loss lo + model_loss_item * of_nat (length b);   (* 103 *)
     examples_seen := examples_seen lo + length b;                        (* 104 *)
     model_state_dicts := model_state_dicts lo ++ [copy_state_dict] |}.   (* 109 *)

(** Lines 78-113: [for batch_idx, batch in enumerate(train_loader)] with
    the [break] of lines 111-113 at the end of the body. *)
Fixpoint inner_batches_loop (mu : tensor) (inner_batches : Z) (bs : list batch)
    (batch_idx : nat) (lo : Locals) : Locals :=
  match bs with
  | [] => lo
  | b :: bs' =>
      let lo := inner_batch mu b lo in
      let batch_num := (Z.of_nat batch_idx + 1)%Z in
      if decide (batch_num >= inner_batches)%Z then lo
      else inner_batches_loop mu inner_batches bs' (S batch_idx) lo
  end.

(** Lines 75-125: one inner sub-epoch; the accumulator carries the state
    and [model_state_dicts]. *)
Definition sub_epoch_body (epoch : Z) (mu : tensor) (inner_batches : Z) (sub_epoch : Z)
    (acc : State * list StateDict) : result (State * list StateDict) :=
  let '(epoch_start, s) := time_time acc.1 in
  let '(batches, s) := iter_loader s in
  let lo := inner_batches_loop mu inner_batches batches 0
              {| st := s; train_loss := 0; examples_seen := 0%nat;
                 model_state_dicts := acc.2 |} in
  avg_train_loss ← py_div 114 (train_loss lo) (of_nat (examples_seen lo));
  let s := st lo in
  let '(batches_pass, s) := (passes s, (iter_loader s).2) in
  let '(model_grad_norm, m) := calculate_full_gradient_norm (model s) train_loader batches_pass in
  let s := set_model m s in
  let '(now, s) := time_time s in
  let elapsed_time := now - epoch_start in
  ex_per_sec ← py_div 118 (of_nat (length (dataset train_loader))) elapsed_time;
  mret (metrics_append (InnerRecord epoch sub_epoch avg_train_loss model_grad_norm) s,
        model_state_dicts lo).

(** [n * x] for an int [n >= 0] and a float [x]: the int is converted to
    a float and the two floats are multiplied; for a finite [x] the result
    is the environment's, which is given the value of the int. *)
Definition py_mul_int_float (n : nat) (x : pyfloat) : pyfloat :=
  match x with
  | Finite q => float_mul T (of_nat n) q
  | Infinity negative => if decide (n = 0%nat) then NaN else Infinity negative
  | NaN => NaN
  end.

(** Lines 71-73: [int] raises on line 73 when the product is not finite. *)
Definition inner_batches_of : result Z :=
  match inner_epoch_fraction cfg with
  | None => Ok (Z.of_nat (loader_len train_loader))
  | Some fraction =>
      py_int_float 73 (py_mul_int_float (loader_len train_loader) fraction)
  end.

(** Lines 59-67: the full gradient of the target model, then the working
    model is initialised to the target model. *)
Definition reset_working_model (s : State) : result (tensor * State) :=
  let '(batches_pass, s) := (passes s, (iter_loader s).2) in
  let '(mu, target) := calculate_full_gradient (target_model s) train_loader batches_pass in
  let s := set_target_model target s in
  m ← load_state_dict 67 (model s) (deepcopy (state_dict (target_model s)));
  mret (mu, set_model m s).

(** Lines 69-125: the optimizer of the working model, the empty
    [model_state_dicts], [inner_batches], and the inner loop of one outer
    epoch. *)
Definition run_inner_loop (epoch : Z) (mu : tensor) (s : State)
  : result (State * list StateDict) :=
  _ ← torch_optim_SGD 69 (parameters (model s))
        (learning_rate cfg) (weight_decay cfg);                 (* 69 *)
  let model_state_dicts := [] in                                (* 70 *)
  inner_batches ← inner_batches_of;                             (* 71-73 *)
  for_each (sub_epoch_body epoch mu inner_batches)
           (range1 (num_inner_epochs cfg)) (s, model_state_dicts).

(** Lines 127-131: choose the next target state and load it. *)
Definition select_next_snapshot (model_state_dicts : list StateDict) (s : State)
  : result State :=
  '(new_target_state_dict, s) ←
     (if choose_random_iterate cfg then random_choice 128 model_state_dicts s
      else (x ← last_item 130 model_state_dicts; mret (x, s)));
  target ← load_state_dict 131 (target_model s) new_target_state_dict;
  mret (set_target_model target s).

(** Lines 58-131: one outer epoch. *)
Definition outer_epoch_body (epoch : Z) (s : State) : result State :=
  '(mu, s) ← reset_working_model s;
  '(s, model_state_dicts) ← run_inner_loop epoch mu s;
  select_next_snapshot model_state_dicts s.

(** Lines 26-29. *)
Definition initial_state : State :=
  {| model := create_model T 0; target_model := create_model T 1; metrics := [];
     passes := 0; ticks := 0; draws := 0 |}.

(** Lines 35-55. *)
Definition warmup (s : State) : result State :=
  for_each warmup_epoch_body (range1 (num_warmup_epochs cfg)) s.

(** Lines 57-131. *)
Definition outer_loop (s : State) : result State :=
  for_each outer_epoch_body (range1 (num_outer_epochs cfg)) s.

(** Lines 33-34: the optimizer of the warmup, built before the warmup
    loop whatever the number of warmup epochs. *)
Definition warmup_optimizer (s : State) : result unit :=
  torch_optim_SGD 33 (parameters (target_model s))
    (warmup_learning_rate cfg) (weight_decay cfg).

Definition train : result (list Metric) :=
  let s := initial_state in                                     (* 26-29 *)
  _ ← warmup_optimizer s;                                       (* 33-34 *)
  s ← warmup s;
  s ← outer_loop s;
  mret (metrics s).

End Trainer.

(** ** Conditions on the inputs *)

(** Two modules built by the same constructor: the same parameter names,
    in the same order, with the same sizes. *)
Definition same_structure (m1 m2 : Module) : Prop :=
  names m1 = names m2 /\ shapes m1 = shapes m2.

(** The rates for which the two optimizers can be built (lines 33-34 and
    69): neither learning rate and not the weight decay is negative. *)
Definition valid_rates (c : Config) : Prop :=
  0 <= warmup_learning_rate c /\ 0 <= learning_rate c /\ 0 <= weight_decay c.

(** The gradient engine returns one gradient per parameter, of the
    parameter's size. *)
Definition grad_shaped (T : Torch) : Prop :=
  forall (ps : list tensor) (b : list (example T)),
    map length (loss_grad T ps b) = map length ps.

(** ** A small concrete instance

    Examples are numbers, the loss of a batch is the mean over the batch of
    [sum_i (w_i - x)^2 / 2], whose gradient in [w_i] is the mean of
    [w_i - x].  The float product is the exact one, as it is on the small
    dyadic values of the runs below. *)

Definition q (n : Z) (d : positive) : Qc := Q2Qc (n # d).

Definition toy_grad (ps : list tensor) (b : list Qc) : list tensor :=
  map (fun p => map (fun w => vsum (map (fun x => w - x) b) / of_nat (length b)) p) ps.

Definition toy_loss (ps : list tensor) (b : list Qc) : Qc :=
  vsum (map (fun x => vsum (map (fun w => (w - x) * (w - x)) (cat ps))) b)
  / (q 2 1 * of_nat (length b)).

Definition toy_module (k : nat) : Module :=
  [("1.weight"%string, {| data := [q 2 1; q 3 1]; grad := [0; 0] |});
   ("1.bias"%string, {| data := [of_nat k]; grad := [0] |})].

Definition toy : Torch :=
  {| example := Qc; loss_value := toy_loss; loss_grad := toy_grad;
     sqrt := fun x => x; float_mul := fun x y => Finite (x * y);
     clock := of_nat; randbelow := fun k n => (k mod n)%nat;
     create_model := toy_module |}.

(** The scenario of section 8 of the spec: one scalar parameter [w = 2],
    the loss [w * x] averaged over the batch, a dataset of two examples in
    one batch, learning rate 0.1, no weight decay, no warmup, one outer and
    one inner epoch. *)
Definition linear_loss (ps : list tensor) (b : list Qc) : Qc :=
  vsum (map (fun x => vsum (cat ps) * x) b) / of_nat (length b).

Definition linear_grad (ps : list tensor) (b : list Qc) : list tensor :=
  map (fun p => map (fun _ => vsum b / of_nat (length b)) p) ps.

Definition linear : Torch :=
  {| example := Qc; loss_value := linear_loss; loss_grad := linear_grad;
     sqrt := fun x => x; float_mul := fun x y => Finite (x * y);
     clock := of_nat; randbelow := fun k n => 0%nat;
     create_model := fun _ => [("w"%string, {| data := [q 2 1]; grad := [0] |})] |}.

Definition linear_cfg : Config :=
  {| num_warmup_epochs := 0; num_outer_epochs := 1; num_inner_epochs := 1;
     inner_epoch_fraction := None; warmup_learning_rate := q 1 10;
     learning_rate := q 1 10; weight_decay := 0; choose_random_iterate := false |}.

Definition metric_loss (r : Metric) : Qc :=
  match r with
  | WarmupRecord _ l _ => l
  | InnerRecord _ _ l _ => l
  end.

(** A loader without shuffling: every iteration yields the same batches. *)
Definition fixed_loader (bs : list (list Qc)) : DataLoader Qc :=
  {| dataset := concat bs; loader_len := length bs; loader_iter := fun _ => bs |}.

(** Three examples in batches of two, in one order on even iterations and
    in another on odd ones. *)
Definition toy_loader : DataLoader Qc :=
  {| dataset := [q 1 1; q 2 1; q 3 1]; loader_len := 2;
     loader_iter := fun k => if Nat.even k then [[q 1 1; q 2 1]; [q 3 1]]
                             else [[q 3 1; q 1 1]; [q 2 1]] |}.

(** A dataset without examples: no batches. *)
Definition empty_loader : DataLoader Qc := fixed_loader [].

Definition toy_cfg : Config :=
  {| num_warmup_epochs := 1; num_outer_epochs := 1; num_inner_epochs := 2;
     inner_epoch_fraction := None; warmup_learning_rate := q 1 10;
     learning_rate := q 1 10; weight_decay := 0; choose_random_iterate := false |}.

Definition with_fraction (f : option pyfloat) (c : Config) : Config :=
  {| num_warmup_epochs := num_warmup_epochs c; num_outer_epochs := num_outer_epochs c;
     num_inner_epochs := num_inner_epochs c; inner_epoch_fraction := f;
     warmup_learning_rate := warmup_learning_rate c; learning_rate := learning_rate c;
     weight_decay := weight_decay c; choose_random_iterate := choose_random_iterate c |}.

Definition with_epochs (warmup outer inner : Z) (c : Config) : Config :=
  {| num_warmup_epochs := warmup; num_outer_epochs := outer;
     num_inner_epochs := inner; inner_epoch_fraction := inner_epoch_fraction c;
     warmup_learning_rate := warmup_learning_rate c; learning_rate := learning_rate c;
     weight_decay := weight_decay c; choose_random_iterate := choose_random_iterate c |}.

Definition with_rates (warmup_rate rate decay : Qc) (c : Config) : Config :=
  {| num_warmup_epochs := num_warmup_epochs c; num_outer_epochs := num_outer_epochs c;
     num_inner_epochs := num_inner_epochs c;
     inner_epoch_fraction := inner_epoch_fraction c;
     warmup_learning_rate := warmup_rate; learning_rate := rate;
     weight_decay := decay; choose_random_iterate := choose_random_iterate c |}.

Definition with_random_iterate (r : bool) (c : Config) : Config :=
  {| num_warmup_epochs := num_warmup_epochs c; num_outer_epochs := num_outer_epochs c;
     num_inner_epochs := num_inner_epochs c;
     inner_epoch_fraction := inner_epoch_fraction c;
     warmup_learning_rate := warmup_learning_rate c; learning_rate := learning_rate c;
     weight_decay := weight_decay c; choose_random_iterate := r |}.

(** The toy configuration with [inner_epoch_fraction = 0.25]: with two
    batches, [int(2 * 0.25) = 0]. *)
Definition quarter_cfg : Config := with_fraction (Some (Finite (q 1 4))) toy_cfg.

(** The toy configuration with [inner_epoch_fraction = 0.5]: with two
    batches, [int(2 * 0.5) = 1]. *)
Definition half_cfg : Config := with_fraction (Some (Finite (q 1 2))) toy_cfg.

(** The toy configuration with [inner_epoch_fraction = 2.0]: with two
    batches, [int(2 * 2.0) = 4]. *)
Definition double_cfg : Config := with_fraction (Some (Finite (q 2 1))) toy_cfg.

Definition toy_locals : Locals :=
  {| st := initial_state toy; train_loss := 0; examples_seen := 0%nat;
     model_state_dicts := [] |}.

(** ** Environments that differ in the clock or in the random source *)

Definition with_streams (c : nat -> Qc) (r : nat -> nat -> nat) (T : Torch) : Torch :=
  {| example := example T; loss_value := loss_value T; loss_grad := loss_grad T;
     sqrt := sqrt T; float_mul := float_mul T; clock := c; randbelow := r;
     create_model := create_model T |}.

(** The same environment with another clock. *)
Definition with_clock (c : nat -> Qc) (T : Torch) : Torch :=
  with_streams c (randbelow T) T.

(** The same environment with another random source. *)
Definition with_randbelow (r : nat -> nat -> nat) (T : Torch) : Torch :=
  with_streams (clock T) r T.

(** The same environment with other modules returned by [create_model]. *)
Definition with_create_model (f : nat -> Module) (T : Torch) : Torch :=
  {| example := example T; loss_value := loss_value T; loss_grad := loss_grad T;
     sqrt := sqrt T; float_mul := float_mul T; clock := clock T;
     randbelow := randbelow T; create_model := f |}.

(** ** The exceptions [train] raises on modules of the same structure *)

Definition expected_failures : list failure :=
  [Failure ValueError 33;
   Failure ZeroDivisionError 46; Failure ZeroDivisionError 50;
   Failure ValueError 69; Failure ValueError 73; Failure OverflowError 73;
   Failure ZeroDivisionError 114; Failure ZeroDivisionError 118;
   Failure IndexError 128; Failure IndexError 130].

(** The result of a step: a property of the value it returns, or of the
    exception it raises. *)
Definition outcome {A} (P : A -> Prop) (Q : failure -> Prop) (r : result A) : Prop :=
  match r with
  | Ok a => P a
  | Raise f => Q f
  end.

(** ** [create_mlp] (lines 135-143) and the dataset limit of [main] (lines 176-179) *)

(** The layers [create_mlp] puts into [nn.Sequential]. *)
Inductive Layer :=
| Flatten
| Linear (in_features out_features : nat)
| ReLU.

(** Torch sizes are 64-bit signed integers. *)
Definition int64 (z : Z) : Prop := (- 2 ^ 63 <= z < 2 ^ 63)%Z.

(** [nn.Linear(in_size, out_size)]: a size that does not fit a 64-bit
    integer raises [TypeError] when torch unpacks the sizes; a negative size
    raises [RuntimeError] when the weight is created, and so does an
    allocation the machine cannot serve: [alloc i o] tells whether the
    weight and the bias of a layer from [i] to [o] features can be
    allocated. *)
Definition nn_Linear (alloc : nat -> nat -> bool) (line : nat) (in_size out_size : Z)
  : result Layer :=
  if decide (int64 in_size /\ int64 out_size) then
    if decide (0 <= in_size /\ 0 <= out_size)%Z then
      if alloc (Z.to_nat in_size) (Z.to_nat out_size)
      then Ok (Linear (Z.to_nat in_size) (Z.to_nat out_size))
      else Raise (Failure RuntimeError line)
    else Raise (Failure RuntimeError line)
  else Raise (Failure TypeError line).

(** The sizes for which [nn.Linear] returns. *)
Definition linear_ok (alloc : nat -> nat -> bool) (in_size out_size : Z) : Prop :=
  (0 <= in_size < 2 ^ 63)%Z /\ (0 <= out_size < 2 ^ 63)%Z
  /\ alloc (Z.to_nat in_size) (Z.to_nat out_size) = true.

(** [seq[i]] for an index [i >= 0] *)
Definition py_index {A} (line : nat) (l : list A) (i : nat) : result A :=
  match l !! i with
  | Some x => Ok x
  | None => Raise (Failure IndexError line)
  end.

(** [seq.pop()]: the list without its last element; [IndexError] when it
    is empty. *)
Definition py_pop {A} (line : nat) (l : list A) : result (list A) :=
  match l with
  | [] => Raise (Failure IndexError line)
  | _ => Ok (removelast l)
  end.

(** Lines 138-141: the body of the loop, for the index [i >= 1]. *)
Definition create_mlp_step (alloc : nat -> nat -> bool) (layer_sizes : list Z)
    (i : nat) (layers : list Layer) : result (list Layer) :=
  in_size ← py_index 138 layer_sizes (i - 1);
  out_size ← py_index 139 layer_sizes i;
  linear ← nn_Linear alloc 140 in_size out_size;
  mret ((layers ++ [linear]) ++ [ReLU]).

(** Lines 135-143: the list handed to [nn.Sequential]. *)
Definition create_mlp (alloc : nat -> nat -> bool) (layer_sizes : list Z)
  : result (list Layer) :=
  layers ← for_each (create_mlp_step alloc layer_sizes)
             (seq 1 (length layer_sizes - 1)) [Flatten];
  py_pop 142 layers.

(** The named parameters of the child at position [idx] of an
    [nn.Sequential]: a [Linear] has ["idx.weight"] with [out * in] entries
    and ["idx.bias"] with [out] entries; [init] gives the initial values
    of a parameter from its name and its number of entries. *)
Definition layer_params (init : string -> nat -> tensor) (idx : nat) (l : Layer)
  : Module :=
  match l with
  | Linear i o =>
      let w := (pretty idx +:+ ".weight")%string in
      let b := (pretty idx +:+ ".bias")%string in
      [(w, {| data := init w (o * i)%nat; grad := zeros (o * i) |});
       (b, {| data := init b o; grad := zeros o |})]
  | _ => []
  end.

Fixpoint sequential_from (init : string -> nat -> tensor) (idx : nat)
    (layers : list Layer) : Module :=
  match layers with
  | [] => []
  | l :: layers' => layer_params init idx l ++ sequential_from init (S idx) layers'
  end.

(** [nn.Sequential] applied to the layers, as a module. *)
Definition Sequential (init : string -> nat -> tensor) (layers : list Layer) : Module :=
  sequential_from init 0 layers.

(** [range(n)] *)
Definition py_range (n : Z) : list nat := seq 0 (Z.to_nat n).

(** [Subset(dataset, indices)]: the examples at the indices; an index out
    of range raises [IndexError]. *)
Fixpoint Subset {E} (line : nat) (ds : list E) (indices : list nat) : result (list E) :=
  match indices with
  | [] => Ok []
  | i :: indices' =>
      x ← py_index line ds i;
      rest ← Subset line ds indices';
      mret (x :: rest)
  end.

(** Lines 176-179: the dataset [main] trains on. *)
Definition limit_dataset {E} (max_dataset_size : option Z) (train_ds : list E)
  : result (list E) :=
  match max_dataset_size with
  | Some m =>
      if decide (Z.of_nat (length train_ds) > m)%Z
      then Subset 178 train_ds (py_range m)
      else Ok train_ds
  | None => Ok train_ds
  end.

(** ** Auxiliary notions used to state the properties *)

(** The number of batches the loop of lines 78-113 processes when the
    loader yields [n] batches: the check of line 112 comes after the batch,
    so at least one batch is processed whenever there is one. *)
Definition batches_processed (inner_batches : Z) (n : nat) : nat :=
  n `min` (1 `max` Z.to_nat inner_batches).

(** The part of the state the batch loop does not touch. *)
Definition same_streams (s1 s2 : State) : Prop :=
  metrics s1 = metrics s2 /\ passes s1 = passes s2
  /\ ticks s1 = ticks s2 /\ draws s1 = draws s2.

(** The keys that identify a metric record. *)
Inductive Tag :=
| WarmupTag (warmup_epoch : Z)
| InnerTag (outer_epoch inner_epoch : Z).

Definition metric_tag (r : Metric) : Tag :=
  match r with
  | WarmupRecord e _ _ => WarmupTag e
  | InnerRecord e i _ _ => InnerTag e i
  end.

Definition is_warmup (r : Metric) : Prop :=
  match r with WarmupRecord _ _ _ => True | InnerRecord _ _ _ _ => False end.

(** One warmup tag per warmup epoch, then one inner tag per pair of an
    outer epoch and an inner sub-epoch, outer epochs first. *)
Definition expected_tags (c : Config) : list Tag :=
  map WarmupTag (range1 (num_warmup_epochs c))
  ++ concat (map (fun e => map (InnerTag e) (range1 (num_inner_epochs c)))
                 (range1 (num_outer_epochs c))).

(** Both modules of a state have the parameter names [N] and sizes [Sh]. *)
Definition state_inv (N : list string) (Sh : list nat) (s : State) : Prop :=
  names (model s) = N /\ shapes (model s) = Sh
  /\ names (target_model s) = N /\ shapes (target_model s) = Sh.

(** A state dict taken from a module with names [N] and sizes [Sh]. *)
Definition loadable (N : list string) (Sh : list nat) (d : StateDict) : Prop :=
  exists m, d = state_dict m /\ names m = N /\ shapes m = Sh.

Section Notions.

Context (T : Torch) (train_loader : DataLoader (example T)) (cfg : Config).

(** The locals at the end of the batch loop of the sub-epoch started in
    state [s] with the candidate states [d]. *)
Definition sub_epoch_locals (mu : tensor) (ib : Z) (s : State) (d : list StateDict)
  : Locals :=
  inner_batches_loop T cfg mu ib (loader_iter train_loader (passes s)) 0
    {| st := (iter_loader T train_loader (time_time T s).2).2;
       train_loss := 0; examples_seen := 0%nat; model_state_dicts := d |}.

(** The state a sub-epoch returns, given the locals at the end of its
    batch loop and the average loss. *)
Definition sub_epoch_finish (epoch sub : Z) (lo : Locals) (avg : Qc) : State :=
  let r := calculate_full_gradient_norm T (model (st lo)) train_loader (passes (st lo)) in
  {| model := r.2; target_model := target_model (st lo);
     metrics := metrics (st lo) ++ [InnerRecord epoch sub avg r.1];
     passes := S (passes (st lo)); ticks := S (ticks (st lo)); draws := draws (st lo) |}.

(** The sum of per-parameter gradients, starting from zeros of the
    parameters' sizes. *)
Definition gsum (sh : list nat) (gs : list (list tensor)) : list tensor :=
  foldr gadd (map zeros sh) gs.

(** The average over a list of examples of the per-example gradients (the
    gradient of the loss on a batch holding that example alone), flattened. *)
Definition average_gradient (m : Module) (ds : list (example T)) : tensor :=
  cat (map (fun t => vdiv t (of_nat (length ds)))
           (gsum (shapes m) (map (fun x => loss_grad T (parameters m) [x]) ds))).

(** The loss averages over the batch ([reduction='mean'], the default of
    [nn.CrossEntropyLoss] built on line 183): the gradient on a batch is the
    mean of the per-example gradients. *)
Definition mean_reduction (ps : list tensor) : Prop :=
  forall b : list (example T), b <> [] ->
    loss_grad T ps b
    = map (fun t => vdiv t (of_nat (length b)))
          (gsum (map length ps) (map (fun x => loss_grad T ps [x]) b)).

(** Every iteration over the loader visits every example of the dataset
    exactly once, in non-empty batches. *)
Definition visits_dataset_once (l : DataLoader (example T)) : Prop :=
  forall k, Forall (fun b => b <> []) (loader_iter l k)
            /\ concat (loader_iter l k) ≡ₚ dataset l.

(** [inner_epoch_fraction], when given, is finite, and so is its float
    product with [len(train_loader)]: line 73 does not raise. *)
Definition finite_fraction : Prop :=
  match inner_epoch_fraction cfg with
  | None => True
  | Some (Finite fraction) =>
      exists p, float_mul T (of_nat (loader_len train_loader)) fraction = Finite p
  | Some _ => False
  end.

(** The inputs on which every step of [train] goes through: the gradient
    engine respects the parameter sizes, the two modules come from the same
    constructor, the dataset is not empty and every iteration over the loader
    yields at least one batch, none of them empty, the clock advances
    between two readings, the random source draws below its bound, there
    is at least one inner epoch unless there is no outer epoch, the model
    has a parameter, no rate is negative, and the fraction and its product
    with the number of batches are finite. *)
Definition well_formed_run : Prop :=
  grad_shaped T
  /\ same_structure (create_model T 0) (create_model T 1)
  /\ NoDup (names (create_model T 1))
  /\ dataset train_loader <> []
  /\ (forall k, loader_iter train_loader k <> []
                /\ Forall (fun b => b <> []) (loader_iter train_loader k))
  /\ (forall t, clock T (S t) <> clock T t)
  /\ (forall k n, (0 < n)%nat -> (randbelow T k n < n)%nat)
  /\ ((1 <= num_inner_epochs cfg)%Z \/ (num_outer_epochs cfg <= 0)%Z)
  /\ create_model T 1 <> []
  /\ valid_rates cfg
  /\ finite_fraction.

(** The number of candidate states the first outer epoch of [train] has
    collected when its inner loop ends (lines 26-125). *)
Definition candidate_count : result nat :=
  _ ← warmup_optimizer cfg (initial_state T);
  s ← warmup T train_loader cfg (initial_state T);
  '(mu, s1) ← reset_working_model T train_loader s;
  '(_, dicts) ← run_inner_loop T train_loader cfg 1 mu s1;
  mret (length dicts).

(** The count of candidate states as C2 states it:
    [num_inner_epochs * batches_per_sub_epoch], with the [inner_batches] of
    lines 71-73. *)
Definition claimed_candidate_count : result Z :=
  inner_batches ← inner_batches_of T train_loader cfg;
  mret (num_inner_epochs cfg * inner_batches)%Z.

End Notions.

(** ** Vectors and modules: basic facts *)

Lemma zip_with_app_take_drop {A B C} (f : A -> B -> C) (g r : list A) (t : list B) :
  zip_with f (g ++ r) t
  = zip_with f g (take (length g) t) ++ zip_with f r (drop (length g) t).
Proof.
  revert t. induction g as [|a g IH]; intros [|x t]; simpl; try done.
  - by destruct r.
  - by rewrite IH.
Qed.

Lemma cat_zip_split {A} (f : A -> Qc -> A) (gs : list (list A)) (t : tensor) :
  concat (zip_with (zip_with f) gs (split_sizes (map length gs) t))
  = zip_with f (concat gs) t.
Proof.
  revert t. induction gs as [|g gs IH]; intros t; simpl; [done|].
  by rewrite IH, zip_with_app_take_drop.
Qed.

Lemma vadd_zeros_l (t : tensor) : vadd (zeros (length t)) t = t.
Proof.
  unfold vadd, zeros. induction t as [|x t IH]; simpl; [done|].
  rewrite IH. f_equal. ring.
Qed.

Lemma vscale_1 (t : tensor) : vscale 1 t = t.
Proof.
  unfold vscale. induction t as [|x t IH]; simpl; [done|].
  rewrite IH. f_equal. ring.
Qed.

Lemma gscale_1 (g : list tensor) : gscale 1 g = g.
Proof.
  unfold gscale. induction g as [|x t IH]; simpl; [done|].
  by rewrite IH, vscale_1.
Qed.

Lemma names_zero_grad m : names (zero_grad m) = names m.
Proof. unfold names, zero_grad. induction m; csimpl; congruence. Qed.

Lemma named_parameters_zero_grad m : named_parameters (zero_grad m) = named_parameters m.
Proof. unfold named_parameters, zero_grad. induction m; simpl; congruence. Qed.

Lemma parameters_named m : parameters m = (named_parameters m).*2.
Proof. unfold parameters, named_parameters. induction m; csimpl; congruence. Qed.

Lemma names_named m : names m = (named_parameters m).*1.
Proof. unfold names, named_parameters. induction m; csimpl; congruence. Qed.

Lemma parameters_zero_grad m : parameters (zero_grad m) = parameters m.
Proof. by rewrite !parameters_named, named_parameters_zero_grad. Qed.

Lemma shapes_zero_grad m : shapes (zero_grad m) = shapes m.
Proof. unfold shapes. by rewrite parameters_zero_grad. Qed.

Lemma grads_zero_grad m : grads (zero_grad m) = map zeros (shapes m).
Proof.
  unfold grads, zero_grad, shapes, parameters. induction m; simpl; congruence.
Qed.

Lemma named_parameters_accumulate gs m :
  named_parameters (accumulate gs m) = named_parameters m.
Proof.
  revert gs. induction m as [|np m IH]; intros [|g gs]; simpl; try done.
  by rewrite IH.
Qed.

Lemma grads_accumulate gs m :
  length gs = length m -> grads (accumulate gs m) = gadd (grads m) gs.
Proof.
  revert gs. induction m as [|np m IH]; intros [|g gs]; simpl; try done.
  intros [=]. by rewrite IH.
Qed.

Lemma named_parameters_sgd_step lr wd m :
  names (sgd_step lr wd m) = names m /\ grads (sgd_step lr wd m) = grads m.
Proof.
  unfold names, grads, sgd_step. induction m as [|np m [IH1 IH2]]; csimpl; [done|].
  by rewrite IH1, IH2.
Qed.

(** *** Data loaders *)

Lemma chunks_fuel_spec {E} (fuel batch_size : nat) (xs : list E) :
  (0 < batch_size)%nat -> (length xs <= fuel)%nat ->
  concat (chunks_fuel fuel batch_size xs) = xs
  /\ Forall (fun b => b <> []) (chunks_fuel fuel batch_size xs)
  /\ length (chunks_fuel fuel batch_size xs)
     = ((length xs + batch_size - 1) / batch_size)%nat.
Proof.
  intros Hbs. revert xs. induction fuel as [|fuel IH]; intros xs Hlen.
  - destruct xs; [|simpl in Hlen; lia]. simpl. repeat split; [constructor|].
    symmetry. apply Nat.div_small. lia.
  - destruct xs as [|x xs].
    + simpl. repeat split; [constructor|]. symmetry. apply Nat.div_small. lia.
    + cbn [chunks_fuel].
      destruct (IH (drop batch_size (x :: xs))) as (Hc & Hne & Hl).
      { rewrite length_drop. simpl in *. lia. }
      split; [|split].
      * cbn [concat]. rewrite Hc. apply take_drop.
      * constructor; [|done]. destruct batch_size; [lia|]. done.
      * cbn [length]. rewrite Hl, length_drop. cbn [length].
        destruct (decide (batch_size <= S (length xs))%nat) as [Hle|Hgt].
        -- replace (S (length xs) - batch_size + batch_size - 1)%nat
             with (length xs) by lia.
           replace (S (length xs) + batch_size - 1)%nat
             with (length xs + 1 * batch_size)%nat by lia.
           rewrite Nat.div_add by lia. lia.
        -- replace (S (length xs) - batch_size + batch_size - 1)%nat
             with (batch_size - 1)%nat by lia.
           rewrite (Nat.div_small (batch_size - 1)) by lia.
           replace (S (length xs) + batch_size - 1)%nat
             with (length xs + 1 * batch_size)%nat by lia.
           rewrite Nat.div_add by lia. rewrite Nat.div_small by lia. done.
Qed.

(** What a [DataLoader] guarantees to [train]. *)
Lemma data_loader_contract {E} (l : DataLoader E) :
  is_data_loader l ->
  forall k,
    concat (loader_iter l k) ≡ₚ dataset l
    /\ Forall (fun b => b <> []) (loader_iter l k)
    /\ length (loader_iter l k) = loader_len l
    /\ (dataset l <> [] -> loader_iter l k <> []).
Proof.
  intros (bs & sampler & Hbs & Hperm & Hiter & Hlen) k.
  rewrite Hiter. unfold chunks.
  destruct (chunks_fuel_spec (length (sampler k)) bs (sampler k) Hbs)
    as (Hc & Hne & Hl); [done|].
  rewrite Hc. split; [apply Hperm|]. split; [done|]. split.
  - by rewrite Hl, Hlen, (Permutation_length (Hperm k)).
  - intros Hds Hnil. rewrite Hnil in Hc. simpl in Hc.
    apply Hds. apply Permutation_nil_r. rewrite <- (Hperm k), <- Hc. done.
Qed.

Section Properties.

Context (T : Torch).

Abbreviation batch := (list (example T)).

Lemma named_parameters_backward_from n up m :
  named_parameters (backward_from T n up m) = named_parameters m.
Proof.
  revert up m. induction n; intros up m; simpl;
    rewrite ?named_parameters_accumulate, ?IHn2, ?IHn1; done.
Qed.

Lemma parameters_backward_from n up m :
  parameters (backward_from T n up m) = parameters m.
Proof. by rewrite !parameters_named, named_parameters_backward_from. Qed.

Lemma gadd_zeros_l (g : list tensor) : gadd (map zeros (map length g)) g = g.
Proof.
  unfold gadd. induction g as [|t g IH]; simpl; [done|].
  by rewrite IH, vadd_zeros_l.
Qed.

Lemma vadd_vscale_opp (a c : tensor) : vadd a (vscale (- (1)) c) = vsub a c.
Proof.
  unfold vadd, vsub, vscale. revert c.
  induction a as [|x a IH]; intros [|y c]; simpl; try done.
  rewrite IH. f_equal; ring.
Qed.

Lemma length_split_sizes sizes t : length (split_sizes sizes t) = length sizes.
Proof. revert t. induction sizes; intros; simpl; auto. Qed.

Lemma length_shapes m : length (shapes m) = length m.
Proof. unfold shapes, parameters. by rewrite !length_map. Qed.

Lemma shapes_backward_from n up m : shapes (backward_from T n up m) = shapes m.
Proof. unfold shapes. by rewrite parameters_backward_from. Qed.

(** After [zero_grad] and [loss.backward()], the [.grad] fields hold the
    gradient of the loss at the module's parameters. *)
Lemma grads_backward_loss (b : batch) (m : Module) :
  grad_shaped T ->
  grads (backward T (LossOf T b) (zero_grad m)) = loss_grad T (parameters m) b.
Proof.
  intros Hsh. unfold backward. simpl. change (item [1]) with 1.
  rewrite gscale_1, parameters_zero_grad.
  assert (Hl : map length (loss_grad T (parameters m) b) = shapes m) by apply Hsh.
  rewrite grads_accumulate.
  - rewrite grads_zero_grad, <- Hl. apply gadd_zeros_l.
  - unfold zero_grad. rewrite length_map, <- (length_shapes m), <- Hl.
    by rewrite length_map.
Qed.

Lemma grads_backward_aux (b : batch) (c : tensor) (m : Module) :
  grad_shaped T ->
  cat (grads (backward T (Sub T (LossOf T b) (Dot T (Detached T c) (Weights T)))
                (zero_grad m)))
  = vsub (cat (loss_grad T (parameters m) b)) c.
Proof.
  intros Hsh.
  pose (m1 := backward T (LossOf T b) (zero_grad m)).
  change (backward T _ (zero_grad m))
    with (accumulate (split_sizes (shapes m1) (vscale (- (1)) c)) m1).
  assert (Hl : map length (loss_grad T (parameters m) b) = shapes m) by apply Hsh.
  rewrite grads_accumulate.
  - unfold m1, backward.
    rewrite shapes_backward_from, shapes_zero_grad.
    fold (backward T (LossOf T b) (zero_grad m)).
    rewrite grads_backward_loss by done.
    rewrite <- Hl.
    etrans; [apply (cat_zip_split Qcplus)|]. apply vadd_vscale_opp.
  - rewrite length_split_sizes, length_shapes. done.
Qed.

(** *** [load_state_dict] *)

Lemma load_params_inv line m sd m' :
  load_params line m sd = Ok m' ->
  names m' = names m /\ grads m' = grads m /\ shapes m' = shapes m
  /\ Forall (fun nv => sd !! nv.1 = Some nv.2) (named_parameters m').
Proof.
  revert m'. induction m as [|np m IH]; intros m' H; simpl in H.
  - injection H as <-. by repeat split.
  - destruct (sd !! np.1) as [v|] eqn:Hv; [|done].
    destruct (decide (length v = length (data np.2))) as [Hlen|]; [|done].
    destruct (load_params line m sd) as [rest|] eqn:Hrest; [|done].
    injection H as <-. destruct (IH rest eq_refl) as (H1 & H2 & H3 & H4).
    unfold names, grads, shapes, parameters in *. csimpl.
    rewrite H1, H2, H3, Hlen. repeat split. by constructor.
Qed.

(** A successful [load_state_dict] leaves the module holding exactly the
    loaded dictionary. *)
Lemma load_state_dict_inv line m sd m' :
  load_state_dict line m sd = Ok m' ->
  state_dict m' = sd /\ names m' = names m /\ grads m' = grads m /\ shapes m' = shapes m.
Proof.
  unfold load_state_dict. destruct (decide _) as [Hdom|]; [|done].
  intros H. destruct (load_params_inv _ _ _ _ H) as (H1 & H2 & H3 & H4).
  repeat split; try done.
  apply map_eq. intros k. unfold state_dict.
  destruct (list_to_map (named_parameters m') !! k) as [v|] eqn:Hk.
  - apply elem_of_list_to_map_2 in Hk.
    rewrite Forall_forall in H4. symmetry. apply (H4 (k, v)), Hk.
  - apply not_elem_of_list_to_map_2 in Hk.
    rewrite <- names_named, H1 in Hk. symmetry.
    apply not_elem_of_dom. intros Hin. apply Hk.
    apply Hdom in Hin. by apply elem_of_list_to_set in Hin.
Qed.

Lemma load_params_named line m sd (nps : list (string * tensor)) :
  names m = nps.*1 ->
  shapes m = map length nps.*2 ->
  Forall (fun nv => sd !! nv.1 = Some nv.2) nps ->
  exists m', load_params line m sd = Ok m'
    /\ named_parameters m' = nps /\ grads m' = grads m.
Proof.
  revert nps. induction m as [|np m IH]; intros [|[n v] nps] Hn Hs Hf;
    try discriminate.
  - by exists [].
  - apply Forall_cons in Hf as [Hv Hf].
    assert (Hn' : names m = nps.*1) by (by injection Hn).
    assert (Hs' : shapes m = map length nps.*2) by (by injection Hs).
    assert (Hn1 : np.1 = n) by (by injection Hn).
    assert (Hs1 : length v = length (data np.2)) by (by injection Hs).
    destruct (IH nps Hn' Hs' Hf) as (rest & Hrest & Hnp & Hg).
    cbn [load_params]. rewrite Hn1. simpl in Hv. rewrite Hv.
    rewrite decide_True by done. rewrite Hrest.
    eexists. split; [done|]. unfold named_parameters, grads in *. csimpl.
    by rewrite Hnp, Hg.
Qed.

Lemma dom_state_dict m : dom (state_dict m) = list_to_set (names m).
Proof.
  unfold state_dict. rewrite dom_list_to_map_L. by rewrite names_named.
Qed.

(** Loading the state of a module with the same structure succeeds and
    copies every parameter value. *)
Lemma load_state_dict_same_structure line m target :
  same_structure m target ->
  NoDup (names target) ->
  exists m', load_state_dict line m (deepcopy (state_dict target)) = Ok m'
    /\ named_parameters m' = named_parameters target /\ grads m' = grads m.
Proof.
  intros [Hn Hs] Hnd. unfold load_state_dict, deepcopy.
  rewrite decide_True by (by rewrite dom_state_dict, Hn).
  apply load_params_named.
  - by rewrite <- names_named.
  - by rewrite <- parameters_named.
  - apply Forall_forall. intros [n v] Hin. simpl.
    apply elem_of_list_to_map_1; [|done]. by rewrite <- names_named.
Qed.

(** *** Loops *)

Lemma for_each_inv {A S} (P : S -> Prop) (body : A -> S -> result S) xs s s' :
  (forall x s1 s2, P s1 -> body x s1 = Ok s2 -> P s2) ->
  P s -> for_each body xs s = Ok s' -> P s'.
Proof.
  intros Hbody. revert s. induction xs as [|x xs IH]; intros s HP H; simpl in H.
  - by injection H as <-.
  - destruct (body x s) as [s1|] eqn:Hx; [|done]. eauto.
Qed.

Context (train_loader : DataLoader (example T)) (cfg : Config).

Lemma inner_batch_target mu b lo :
  target_model (st (inner_batch T cfg mu b lo))
  = backward T (LossOf T b) (zero_grad (target_model (st lo))).
Proof. done. Qed.

Lemma inner_batch_frame mu b lo :
  named_parameters (target_model (st (inner_batch T cfg mu b lo)))
  = named_parameters (target_model (st lo))
  /\ same_streams (st (inner_batch T cfg mu b lo)) (st lo).
Proof.
  split; [|done]. rewrite inner_batch_target. unfold backward.
  by rewrite named_parameters_backward_from, named_parameters_zero_grad.
Qed.

Lemma inner_batches_loop_frame mu ib bs idx lo :
  named_parameters (target_model (st (inner_batches_loop T cfg mu ib bs idx lo)))
  = named_parameters (target_model (st lo))
  /\ same_streams (st (inner_batches_loop T cfg mu ib bs idx lo)) (st lo).
Proof.
  revert idx lo. induction bs as [|b bs IH]; intros idx lo; [done|].
  cbn [inner_batches_loop].
  destruct (inner_batch_frame mu b lo) as (H1 & H2 & H3 & H4 & H5).
  case_decide; [done|].
  destruct (IH (S idx) (inner_batch T cfg mu b lo)) as (I1 & I2 & I3 & I4 & I5).
  unfold same_streams. repeat split; congruence.
Qed.

Lemma sub_epoch_body_unfold epoch mu ib sub s d :
  sub_epoch_body T train_loader cfg epoch mu ib sub (s, d)
  = let lo := sub_epoch_locals T train_loader cfg mu ib s d in
    avg ← py_div 114 (train_loss lo) (of_nat (examples_seen lo));
    _ ← py_div 118 (of_nat (length (dataset train_loader)))
          (clock T (ticks (st lo)) - clock T (ticks s));
    mret (sub_epoch_finish T train_loader epoch sub lo avg, model_state_dicts lo).
Proof. reflexivity. Qed.

Lemma of_nat_0 : of_nat 0 = 0.
Proof. by apply Qc_is_canon. Qed.

Lemma py_div_zero line a : py_div line a (of_nat 0) = Raise (Failure ZeroDivisionError line).
Proof. unfold py_div. by rewrite decide_True by apply of_nat_0. Qed.

Lemma py_div_Ok line a b c : py_div line a b = Ok c -> b <> 0 /\ c = a / b.
Proof. unfold py_div. case_decide; [done|]. by intros [= <-]. Qed.

Lemma sub_epoch_locals_streams mu ib s d :
  metrics (st (sub_epoch_locals T train_loader cfg mu ib s d)) = metrics s
  /\ passes (st (sub_epoch_locals T train_loader cfg mu ib s d)) = S (passes s)
  /\ ticks (st (sub_epoch_locals T train_loader cfg mu ib s d)) = S (ticks s)
  /\ draws (st (sub_epoch_locals T train_loader cfg mu ib s d)) = draws s.
Proof.
  unfold sub_epoch_locals.
  match goal with |- context [inner_batches_loop T cfg mu ib ?bs 0 ?lo] =>
    destruct (inner_batches_loop_frame mu ib bs 0 lo) as (_ & F1 & F2 & F3 & F4)
  end.
  by rewrite F1, F2, F3, F4.
Qed.

(** What a sub-epoch that returns has done. *)
Lemma sub_epoch_body_inv epoch mu ib sub s d s' d' :
  sub_epoch_body T train_loader cfg epoch mu ib sub (s, d) = Ok (s', d') ->
  let lo := sub_epoch_locals T train_loader cfg mu ib s d in
  d' = model_state_dicts lo
  /\ target_model s' = target_model (st lo)
  /\ model s' = zero_grad (model (st lo))
  /\ examples_seen lo <> 0%nat
  /\ (exists loss norm, metrics s' = metrics s ++ [InnerRecord epoch sub loss norm])
  /\ passes s' = (passes s + 2)%nat /\ ticks s' = (ticks s + 2)%nat
  /\ draws s' = draws s.
Proof.
  rewrite sub_epoch_body_unfold. intros H lo. fold lo in H.
  destruct (sub_epoch_locals_streams mu ib s d) as (F1 & F2 & F3 & F4).
  fold lo in F1, F2, F3, F4. cbv zeta in H.
  destruct (py_div 114 _ _) as [avg|] eqn:Havg; [|done].
  apply py_div_Ok in Havg as [Hz _]. cbn [mbind result_bind] in H.
  destruct (py_div 118 _ _) as [ex|] eqn:Hex; [|done].
  injection H as <- <-. unfold sub_epoch_finish. cbn.
  rewrite F1, F2, F3, F4.
  repeat split; try done; try lia.
  - intros Hex0. apply Hz. rewrite Hex0. apply of_nat_0.
  - eauto.
Qed.

(** *** Counting the batches of a sub-epoch *)

Lemma inner_batches_loop_dicts mu ib bs idx lo :
  exists new,
    model_state_dicts (inner_batches_loop T cfg mu ib bs idx lo)
    = model_state_dicts lo ++ new
    /\ length new = batches_processed (ib - Z.of_nat idx) (length bs).
Proof.
  revert idx lo. induction bs as [|b bs IH]; intros idx lo.
  - exists []. by rewrite app_nil_r.
  - cbn [inner_batches_loop]. case_decide as Hge.
    + eexists [_]. split; [done|]. unfold batches_processed. cbn [length]. lia.
    + destruct (IH (S idx) (inner_batch T cfg mu b lo)) as (new & -> & Hlen).
      eexists (_ :: new). split.
      * simpl. by rewrite <- app_assoc.
      * cbn [length]. rewrite Hlen. unfold batches_processed. lia.
Qed.

Lemma inner_batches_loop_seen mu ib bs idx lo :
  examples_seen (inner_batches_loop T cfg mu ib bs idx lo)
  = (examples_seen lo
     + length (concat (take (batches_processed (ib - Z.of_nat idx) (length bs)) bs)))%nat.
Proof.
  revert idx lo. induction bs as [|b bs IH]; intros idx lo.
  - simpl. lia.
  - cbn [inner_batches_loop]. case_decide as Hge.
    + replace (batches_processed _ _) with 1%nat
        by (unfold batches_processed; cbn [length]; lia).
      simpl. by rewrite ?take_0, app_nil_r.
    + rewrite IH.
      replace (batches_processed (ib - Z.of_nat idx) (length (b :: bs)))
        with (S (batches_processed (ib - Z.of_nat (S idx)) (length bs)))
        by (unfold batches_processed; cbn [length]; lia).
      simpl. rewrite length_app. lia.
Qed.

Lemma for_each_count {A S} (f : S -> nat) (c : nat) (body : A -> S -> result S) xs s s' :
  (forall x s1 s2, body x s1 = Ok s2 -> f s2 = (f s1 + c)%nat) ->
  for_each body xs s = Ok s' -> f s' = (f s + length xs * c)%nat.
Proof.
  intros Hbody. revert s. induction xs as [|x xs IH]; intros s H; simpl in H.
  - injection H as <-. simpl. lia.
  - destruct (body x s) as [s1|] eqn:Hx; [|done].
    rewrite (IH _ H), (Hbody _ _ _ Hx). simpl. lia.
Qed.

Lemma length_range1 n : length (range1 n) = Z.to_nat n.
Proof. unfold range1. by rewrite length_map, length_seq. Qed.

(** A sub-epoch that returns has appended one candidate state per
    processed batch. *)
Lemma sub_epoch_body_dicts epoch mu ib sub s d s' d' :
  sub_epoch_body T train_loader cfg epoch mu ib sub (s, d) = Ok (s', d') ->
  exists new, d' = d ++ new
    /\ length new
       = batches_processed ib (length (loader_iter train_loader (passes s))).
Proof.
  intros H. apply sub_epoch_body_inv in H as (-> & _).
  unfold sub_epoch_locals.
  match goal with |- context [inner_batches_loop T cfg mu ib ?bs 0 ?lo] =>
    destruct (inner_batches_loop_dicts mu ib bs 0 lo) as (new & -> & Hlen)
  end.
  exists new. split; [done|]. rewrite Hlen. f_equal. simpl. lia.
Qed.

(** *** The optimizers and [inner_batches] *)

Lemma torch_optim_SGD_returns line (params : list tensor) lr wd :
  0 <= lr -> 0 <= wd -> params <> [] -> torch_optim_SGD line params lr wd = Ok tt.
Proof.
  intros Hlr Hwd Hp. unfold torch_optim_SGD. rewrite decide_False; [done|].
  intros [H|[H|H]]; [| |done].
  - by apply Qclt_not_le in H.
  - by apply Qclt_not_le in H.
Qed.

Lemma torch_optim_SGD_Ok line (params : list tensor) lr wd u :
  torch_optim_SGD line params lr wd = Ok u -> 0 <= lr /\ 0 <= wd /\ params <> [].
Proof.
  unfold torch_optim_SGD. case_decide as H; [done|]. intros _.
  split; [|split].
  - apply Qcnot_lt_le. tauto.
  - apply Qcnot_lt_le. tauto.
  - tauto.
Qed.

Lemma torch_optim_SGD_raises line (params : list tensor) lr wd f :
  torch_optim_SGD line params lr wd = Raise f -> f = Failure ValueError line.
Proof. unfold torch_optim_SGD. case_decide; [|done]. by intros [= <-]. Qed.

Lemma parameters_nonempty (m : Module) : names m <> [] -> parameters m <> [].
Proof. by destruct m. Qed.

Lemma inner_batches_of_returns :
  finite_fraction T train_loader cfg ->
  exists ib, inner_batches_of T train_loader cfg = Ok ib.
Proof.
  unfold finite_fraction, inner_batches_of.
  destruct (inner_epoch_fraction cfg) as [[fraction| |]|]; try done.
  - intros [p Hp]. cbn [py_mul_int_float]. rewrite Hp. by eexists.
  - by eexists.
Qed.

Lemma inner_batches_of_raises f :
  inner_batches_of T train_loader cfg = Raise f ->
  f = Failure ValueError 73 \/ f = Failure OverflowError 73.
Proof.
  unfold inner_batches_of.
  destruct (inner_epoch_fraction cfg) as [x|]; [|done].
  destruct (py_mul_int_float T (loader_len train_loader) x); simpl; [done|..].
  - intros [= <-]. by right.
  - intros [= <-]. by left.
Qed.

(** When the inner loop returns, line 69 and lines 71-73 have returned
    and the loop has run with the [inner_batches] they computed. *)
Lemma run_inner_loop_Ok epoch mu s r :
  run_inner_loop T train_loader cfg epoch mu s = Ok r ->
  torch_optim_SGD 69 (parameters (model s)) (learning_rate cfg) (weight_decay cfg) = Ok tt
  /\ exists ib,
       inner_batches_of T train_loader cfg = Ok ib
       /\ for_each (sub_epoch_body T train_loader cfg epoch mu ib)
            (range1 (num_inner_epochs cfg)) (s, []) = Ok r.
Proof.
  unfold run_inner_loop.
  destruct (torch_optim_SGD 69 _ _ _) as [[]|]; [|done]. cbn [mbind result_bind].
  destruct (inner_batches_of T train_loader cfg) as [ib|]; [|done].
  cbn [mbind result_bind]. intros H. split; [done|]. by exists ib.
Qed.

Lemma run_inner_loop_valid epoch mu s ib :
  0 <= learning_rate cfg -> 0 <= weight_decay cfg -> parameters (model s) <> [] ->
  inner_batches_of T train_loader cfg = Ok ib ->
  run_inner_loop T train_loader cfg epoch mu s
  = for_each (sub_epoch_body T train_loader cfg epoch mu ib)
      (range1 (num_inner_epochs cfg)) (s, []).
Proof.
  intros Hlr Hwd Hp Hib. unfold run_inner_loop.
  rewrite torch_optim_SGD_returns by done. cbn [mbind result_bind].
  by rewrite Hib.
Qed.

Lemma run_inner_loop_inv (P : State * list StateDict -> Prop) epoch mu s r :
  (forall ib sub a1 a2, P a1 ->
     sub_epoch_body T train_loader cfg epoch mu ib sub a1 = Ok a2 -> P a2) ->
  P (s, []) ->
  run_inner_loop T train_loader cfg epoch mu s = Ok r -> P r.
Proof.
  intros Hbody HP H. apply run_inner_loop_Ok in H as (_ & ib & _ & H).
  eapply for_each_inv; eauto.
Qed.

(** *** The outer epoch *)

Lemma reset_working_model_unfold s :
  reset_working_model T train_loader s
  = let r := calculate_full_gradient T (target_model s) train_loader (passes s) in
    let s1 := set_target_model r.2 (iter_loader T train_loader s).2 in
    m ← load_state_dict 67 (model s) (deepcopy (state_dict (target_model s1)));
    mret (r.1, set_model m s1).
Proof. reflexivity. Qed.

Lemma reset_working_model_inv s mu s1 :
  reset_working_model T train_loader s = Ok (mu, s1) ->
  mu = (calculate_full_gradient T (target_model s) train_loader (passes s)).1
  /\ target_model s1 = zero_grad (target_model s)
  /\ state_dict (model s1) = state_dict (target_model s1)
  /\ names (model s1) = names (model s)
  /\ shapes (model s1) = shapes (model s)
  /\ metrics s1 = metrics s /\ passes s1 = S (passes s)
  /\ ticks s1 = ticks s /\ draws s1 = draws s.
Proof.
  rewrite reset_working_model_unfold. cbv zeta.
  destruct (load_state_dict 67 _ _) as [m|] eqn:Hload; [|done].
  intros [= <- <-]. apply load_state_dict_inv in Hload as (H1 & H2 & _ & H3).
  done.
Qed.

Lemma reset_working_model_copies_snapshot_aux s :
  same_structure (model s) (target_model s) ->
  NoDup (names (target_model s)) ->
  exists mu s1,
    reset_working_model T train_loader s = Ok (mu, s1)
    /\ named_parameters (model s1) = named_parameters (target_model s1)
    /\ named_parameters (target_model s1) = named_parameters (target_model s).
Proof.
  intros [Hn Hs] Hnd. rewrite reset_working_model_unfold. cbv zeta.
  set (r := calculate_full_gradient T (target_model s) train_loader (passes s)).
  destruct (load_state_dict_same_structure 67 (model s) (zero_grad (target_model s)))
    as (m & Hm & Hnp & _).
  { split; [by rewrite names_zero_grad | by rewrite shapes_zero_grad]. }
  { by rewrite names_zero_grad. }
  change (target_model (set_target_model r.2 (iter_loader T train_loader s).2))
    with (zero_grad (target_model s)).
  rewrite Hm. eexists _, _. split; [done|].
  change (named_parameters m = named_parameters (zero_grad (target_model s))
          /\ named_parameters (zero_grad (target_model s))
             = named_parameters (target_model s)).
  by rewrite Hnp, named_parameters_zero_grad.
Qed.

Lemma sub_epoch_body_target epoch mu ib sub a1 a2 :
  sub_epoch_body T train_loader cfg epoch mu ib sub a1 = Ok a2 ->
  named_parameters (target_model a2.1) = named_parameters (target_model a1.1).
Proof.
  destruct a1 as [s d], a2 as [s' d']. intros H. cbn [fst].
  apply sub_epoch_body_inv in H as (_ & -> & _). unfold sub_epoch_locals.
  match goal with |- context [inner_batches_loop T cfg mu ib ?bs 0 ?lo] =>
    destruct (inner_batches_loop_frame mu ib bs 0 lo) as (-> & _)
  end. done.
Qed.

Lemma outer_epoch_body_inv epoch s s' :
  outer_epoch_body T train_loader cfg epoch s = Ok s' ->
  exists mu s1 s2 dicts,
    reset_working_model T train_loader s = Ok (mu, s1)
    /\ run_inner_loop T train_loader cfg epoch mu s1 = Ok (s2, dicts)
    /\ select_next_snapshot T cfg dicts s2 = Ok s'.
Proof.
  unfold outer_epoch_body.
  destruct (reset_working_model T train_loader s) as [[mu s1]|]; [|done].
  cbn [mbind result_bind].
  destruct (run_inner_loop T train_loader cfg epoch mu s1) as [[s2 dicts]|] eqn:Hrun;
    [|done].
  cbn [mbind result_bind]. intros H. by exists mu, s1, s2, dicts.
Qed.

Lemma random_choice_inv {A} line (seq : list A) s x s' :
  random_choice T line seq s = Ok (x, s') ->
  seq !! randbelow T (draws s) (length seq) = Some x
  /\ model s' = model s /\ target_model s' = target_model s
  /\ metrics s' = metrics s /\ passes s' = passes s /\ ticks s' = ticks s
  /\ draws s' = S (draws s).
Proof.
  unfold random_choice. destruct seq as [|a seq]; [done|].
  destruct (_ !! _) as [y|] eqn:Hy; [|done]. by intros [= <- <-].
Qed.

Lemma select_next_snapshot_inv dicts s s' :
  select_next_snapshot T cfg dicts s = Ok s' ->
  (if choose_random_iterate cfg
   then dicts !! randbelow T (draws s) (length dicts) = Some (state_dict (target_model s'))
   else last dicts = Some (state_dict (target_model s')))
  /\ model s' = model s /\ names (target_model s') = names (target_model s)
  /\ shapes (target_model s') = shapes (target_model s)
  /\ metrics s' = metrics s /\ passes s' = passes s /\ ticks s' = ticks s.
Proof.
  unfold select_next_snapshot. destruct (choose_random_iterate cfg).
  - destruct (random_choice T 128 dicts s) as [[x s1]|] eqn:Hc; [|done].
    cbn [mbind result_bind].
    apply random_choice_inv in Hc as (Hx & H1 & H2 & H3 & H4 & H5 & H6).
    destruct (load_state_dict 131 (target_model s1) x) as [t|] eqn:Hload; [|done].
    intros [= <-]. apply load_state_dict_inv in Hload as (L1 & L2 & _ & L3).
    unfold set_target_model. cbn [model target_model metrics passes ticks draws].
    rewrite L1, L2, L3, H1, H2, H3, H4, H5. done.
  - unfold last_item. destruct (last dicts) as [x|] eqn:Hlast; [|done].
    cbn [mbind result_bind mret result_ret].
    destruct (load_state_dict 131 (target_model s) x) as [t|] eqn:Hload; [|done].
    intros [= <-]. apply load_state_dict_inv in Hload as (L1 & L2 & _ & L3).
    unfold set_target_model. cbn [model target_model metrics passes ticks draws].
    rewrite L1, L2, L3. done.
Qed.

(** *** Warmup and the whole run *)

Lemma range1_cons n : (1 <= n)%Z -> exists rest, range1 n = 1%Z :: rest.
Proof.
  intros Hn. unfold range1. destruct (Z.to_nat n) as [|k] eqn:Hk; [lia|].
  simpl. eauto.
Qed.

Lemma range1_nil n : (n <= 0)%Z -> range1 n = [].
Proof. intros Hn. unfold range1. by replace (Z.to_nat n) with 0%nat by lia. Qed.

Lemma warmup_epoch_body_unfold e s :
  warmup_epoch_body T train_loader cfg e s
  = let r := foldl (fun acc b => warmup_batch T cfg b acc) (target_model s, 0)
               (loader_iter train_loader (passes s)) in
    avg ← py_div 46 r.2 (of_nat (length (dataset train_loader)));
    _ ← py_div 50 (of_nat (length (dataset train_loader)))
          (clock T (S (ticks s)) - clock T (ticks s));
    let g := calculate_full_gradient_norm T r.1 train_loader (S (passes s)) in
    mret {| model := model s; target_model := g.2;
            metrics := metrics s ++ [WarmupRecord e avg g.1];
            passes := S (S (passes s)); ticks := S (S (ticks s)); draws := draws s |}.
Proof.
  unfold warmup_epoch_body. cbn [time_time iter_loader fst snd passes target_model].
  destruct (foldl _ _ _) as [target loss]. reflexivity.
Qed.

Lemma warmup_epoch_body_inv e s s' :
  warmup_epoch_body T train_loader cfg e s = Ok s' ->
  (exists loss norm, metrics s' = metrics s ++ [WarmupRecord e loss norm])
  /\ model s' = model s /\ passes s' = S (S (passes s))
  /\ ticks s' = S (S (ticks s)) /\ draws s' = draws s.
Proof.
  rewrite warmup_epoch_body_unfold. cbv zeta.
  destruct (py_div 46 _ _) as [avg|]; [|done]. cbn [mbind result_bind].
  destruct (py_div 50 _ _) as [ex|]; [|done]. intros [= <-]. cbn. eauto 10.
Qed.

(** Once the warmup optimizer is built, [train] is the warmup followed by
    the outer loop. *)
Lemma train_after_optimizer :
  warmup_optimizer cfg (initial_state T) = Ok tt ->
  train T train_loader cfg
  = (s ← warmup T train_loader cfg (initial_state T);
     s ← outer_loop T train_loader cfg s;
     mret (metrics s)).
Proof. intros H. unfold train. cbv zeta. by rewrite H. Qed.

Lemma train_Ok ms :
  train T train_loader cfg = Ok ms ->
  warmup_optimizer cfg (initial_state T) = Ok tt
  /\ (s ← warmup T train_loader cfg (initial_state T);
      s ← outer_loop T train_loader cfg s;
      mret (metrics s)) = Ok ms.
Proof.
  unfold train. cbv zeta.
  destruct (warmup_optimizer cfg (initial_state T)) as [[]|]; [|done].
  by cbn [mbind result_bind].
Qed.

Lemma warmup_optimizer_returns (s : State) :
  0 <= warmup_learning_rate cfg -> 0 <= weight_decay cfg ->
  target_model s <> [] ->
  warmup_optimizer cfg s = Ok tt.
Proof.
  intros Hlr Hwd Hp. apply torch_optim_SGD_returns; [done..|].
  by destruct (target_model s).
Qed.

Lemma train_first_outer_epoch sw f :
  warmup_optimizer cfg (initial_state T) = Ok tt ->
  warmup T train_loader cfg (initial_state T) = Ok sw ->
  (1 <= num_outer_epochs cfg)%Z ->
  outer_epoch_body T train_loader cfg 1 sw = Raise f ->
  train T train_loader cfg = Raise f.
Proof.
  intros Hopt Hw Ho Hf. rewrite (train_after_optimizer Hopt).
  rewrite Hw. cbn [mbind result_bind].
  unfold outer_loop. destruct (range1_cons _ Ho) as (rest & ->).
  cbn [for_each]. by rewrite Hf.
Qed.

(** *** The metrics sequence *)

Lemma for_each_app {A S B} (f : S -> list B) (g : A -> list B)
    (body : A -> S -> result S) xs s s' :
  (forall x s1 s2, body x s1 = Ok s2 -> f s2 = f s1 ++ g x) ->
  for_each body xs s = Ok s' -> f s' = f s ++ concat (map g xs).
Proof.
  intros Hbody. revert s. induction xs as [|x xs IH]; intros s H; simpl in H.
  - injection H as <-. simpl. by rewrite app_nil_r.
  - destruct (body x s) as [s1|] eqn:Hx; [|done].
    rewrite (IH _ H), (Hbody _ _ _ Hx). simpl. by rewrite <- app_assoc.
Qed.

Lemma concat_map_singleton {A B} (f : A -> B) (l : list A) :
  concat (map (fun x => [f x]) l) = map f l.
Proof. induction l as [|x l IH]; simpl; [done|]. by rewrite IH. Qed.

Lemma warmup_tags s s' :
  warmup T train_loader cfg s = Ok s' ->
  map metric_tag (metrics s')
  = map metric_tag (metrics s) ++ map WarmupTag (range1 (num_warmup_epochs cfg)).
Proof.
  intros H. unfold warmup in H.
  apply (for_each_app (fun s => map metric_tag (metrics s)) (fun e => [WarmupTag e])) in H.
  - by rewrite H, concat_map_singleton.
  - intros e s1 s2 He. apply warmup_epoch_body_inv in He as ((l & n & ->) & _).
    by rewrite map_app.
Qed.

Lemma outer_epoch_body_tags e s s' :
  outer_epoch_body T train_loader cfg e s = Ok s' ->
  map metric_tag (metrics s')
  = map metric_tag (metrics s) ++ map (InnerTag e) (range1 (num_inner_epochs cfg)).
Proof.
  intros H. apply outer_epoch_body_inv in H as (mu & s1 & s2 & dicts & H1 & H2 & H3).
  apply reset_working_model_inv in H1 as (_ & _ & _ & _ & _ & <- & _).
  apply select_next_snapshot_inv in H3 as (_ & _ & _ & _ & -> & _).
  apply run_inner_loop_Ok in H2 as (_ & ib & _ & H2).
  apply (for_each_app (fun a => map metric_tag (metrics a.1)) (fun i => [InnerTag e i]))
    in H2.
  - simpl in H2. by rewrite H2, concat_map_singleton.
  - intros i [sa da] [sb db] Hi.
    apply sub_epoch_body_inv in Hi as (_ & _ & _ & _ & (l & n & Hm) & _).
    simpl. by rewrite Hm, map_app.
Qed.

(** *** The full gradient *)

Lemma zip_with_comm_gen {A} (f : A -> A -> A) (l k : list A) :
  (forall x y, f x y = f y x) -> zip_with f l k = zip_with f k l.
Proof.
  intros Hf. revert k. induction l as [|x l IH]; intros [|y k]; simpl; try done.
  by rewrite IH, Hf.
Qed.

Lemma zip_with_assoc_gen {A} (f : A -> A -> A) (l k j : list A) :
  (forall x y z, f x (f y z) = f (f x y) z) ->
  zip_with f l (zip_with f k j) = zip_with f (zip_with f l k) j.
Proof.
  intros Hf. revert k j. induction l as [|x l IH]; intros [|y k] [|z j]; simpl; try done.
  by rewrite IH, Hf.
Qed.

Lemma vadd_comm (a b : tensor) : vadd a b = vadd b a.
Proof. apply zip_with_comm_gen. intros; ring. Qed.

Lemma vadd_assoc (a b c : tensor) : vadd a (vadd b c) = vadd (vadd a b) c.
Proof. apply zip_with_assoc_gen. intros; ring. Qed.

Lemma gadd_comm (a b : list tensor) : gadd a b = gadd b a.
Proof. apply zip_with_comm_gen, vadd_comm. Qed.

Lemma gadd_assoc (a b c : list tensor) : gadd a (gadd b c) = gadd (gadd a b) c.
Proof. apply zip_with_assoc_gen, vadd_assoc. Qed.

Lemma length_vadd (a b : tensor) : length a = length b -> length (vadd a b) = length a.
Proof. intros H. unfold vadd. rewrite length_zip_with. lia. Qed.

Lemma shape_gadd (a b : list tensor) :
  map length a = map length b -> map length (gadd a b) = map length a.
Proof.
  unfold gadd. revert b. induction a as [|x a IH]; intros [|y b] H; try done.
  injection H as Hx H. simpl. by rewrite IH, length_vadd.
Qed.

Lemma shape_zeros sh : map length (map zeros sh) = sh.
Proof.
  induction sh as [|n sh IH]; simpl; [done|].
  rewrite IH. unfold zeros. by rewrite length_replicate.
Qed.

Lemma gadd_zeros_shape sh (g : list tensor) :
  map length g = sh -> gadd (map zeros sh) g = g.
Proof. intros <-. apply gadd_zeros_l. Qed.

Lemma shape_gsum sh gs :
  Forall (fun g => map length g = sh) gs -> map length (gsum sh gs) = sh.
Proof.
  unfold gsum. induction 1 as [|g gs Hg Hgs IH]; simpl.
  - apply shape_zeros.
  - rewrite shape_gadd; [done|]. by rewrite IH.
Qed.

Lemma gsum_app sh gs hs :
  Forall (fun g => map length g = sh) hs ->
  gsum sh (gs ++ hs) = gadd (gsum sh gs) (gsum sh hs).
Proof.
  intros Hhs. unfold gsum. induction gs as [|g gs IH]; simpl.
  - symmetry. apply gadd_zeros_shape. by apply shape_gsum.
  - by rewrite IH, gadd_assoc.
Qed.

Lemma gsum_perm sh gs hs : gs ≡ₚ hs -> gsum sh gs = gsum sh hs.
Proof.
  unfold gsum. induction 1 as [|g gs hs _ IH|g h gs|gs hs js _ IH1 _ IH2]; simpl.
  - done.
  - by rewrite IH.
  - rewrite !gadd_assoc. f_equal. apply gadd_comm.
  - congruence.
Qed.

Lemma of_nat_nonzero n : n <> 0%nat -> of_nat n <> 0.
Proof.
  intros Hn H. unfold of_nat in H.
  apply Q2Qc_eq_iff in H. unfold Qeq in H. simpl in H. lia.
Qed.

Lemma vscale_vdiv c (t : tensor) : c <> 0 -> vscale c (vdiv t c) = t.
Proof.
  intros Hc. unfold vscale, vdiv. induction t as [|x t IH]; simpl; [done|].
  rewrite IH. f_equal. by field.
Qed.

Lemma gscale_vdiv c (g : list tensor) :
  c <> 0 -> gscale c (map (fun t => vdiv t c) g) = g.
Proof.
  intros Hc. unfold gscale. induction g as [|t g IH]; simpl; [done|].
  by rewrite IH, vscale_vdiv.
Qed.

Lemma full_gradient_pass_sum (m : Module) (bs : list batch) (A : list tensor) (n : nat) :
  grad_shaped T ->
  mean_reduction T (parameters m) ->
  Forall (fun b => b <> []) bs ->
  map length A = shapes m ->
  foldl (fun acc b =>
           (gadd acc.1 (gscale (of_nat (length b)) (loss_grad T (parameters m) b)),
            (acc.2 + length b)%nat)) (A, n) bs
  = (gadd A (gsum (shapes m) (map (fun x => loss_grad T (parameters m) [x]) (concat bs))),
     (n + length (concat bs))%nat).
Proof.
  intros Hsh Hmean Hne. revert A n.
  assert (Hshaped : forall xs : batch,
            Forall (fun g => map length g = shapes m)
                   (map (fun x => loss_grad T (parameters m) [x]) xs)).
  { intros xs. apply Forall_forall. intros g Hg.
    apply list_elem_of_fmap in Hg as (x & -> & _). apply Hsh. }
  induction Hne as [|b bs Hb Hbs IH]; intros A n HA.
  - simpl. f_equal; [|lia]. unfold gsum. simpl.
    rewrite gadd_comm. symmetry. by apply gadd_zeros_shape.
  - cbn [foldl fst snd concat]. rewrite (Hmean b Hb).
    rewrite gscale_vdiv by (apply of_nat_nonzero; by destruct b).
    fold (shapes m). rewrite IH.
    + rewrite map_app, gsum_app by apply Hshaped.
      rewrite gadd_assoc, length_app. f_equal. lia.
    + rewrite shape_gadd; [done|]. rewrite HA. symmetry.
      apply shape_gsum, Hshaped.
Qed.

Lemma calculate_full_gradient_average (m : Module) (l : DataLoader (example T)) (k : nat) :
  grad_shaped T ->
  mean_reduction T (parameters m) ->
  visits_dataset_once T l ->
  (calculate_full_gradient T m l k).1 = average_gradient T m (dataset l)
  /\ (full_gradient_pass T (zero_grad m) (loader_iter l k)).2 = length (dataset l).
Proof.
  intros Hsh Hmean Hl. destruct (Hl k) as [Hne Hperm].
  unfold calculate_full_gradient, full_gradient_pass. cbn [fst].
  rewrite parameters_zero_grad, shapes_zero_grad.
  rewrite (full_gradient_pass_sum m _ _ _ Hsh Hmean Hne) by apply shape_zeros.
  cbn [fst snd]. rewrite (Permutation_length Hperm).
  split; [|done]. unfold average_gradient. do 2 f_equal.
  rewrite gadd_zeros_shape.
  - apply gsum_perm. by apply fmap_Permutation.
  - apply shape_gsum, Forall_forall. intros g Hg.
    apply list_elem_of_fmap in Hg as (x & -> & _). apply Hsh.
Qed.

(** *** Well-formed runs return *)

Lemma length_cat_shape (a b : list tensor) :
  map length a = map length b -> length (cat a) = length (cat b).
Proof.
  unfold cat. revert b. induction a as [|x a IH]; intros [|y b] H; try done.
  injection H as Hx H. simpl. rewrite !length_app, Hx. by rewrite (IH b).
Qed.

Lemma shape_split_sizes (gs : list tensor) (t : tensor) :
  (length (cat gs) <= length t)%nat ->
  map length (split_sizes (map length gs) t) = map length gs.
Proof.
  unfold cat. revert t. induction gs as [|g gs IH]; intros t Hlen; simpl; [done|].
  simpl in Hlen. rewrite length_app in Hlen.
  rewrite length_take_le by lia. rewrite IH; [done|].
  rewrite length_drop. lia.
Qed.

Lemma length_vscale c t : length (vscale c t) = length t.
Proof. unfold vscale. apply length_map. Qed.

Lemma shape_gscale c (g : list tensor) : map length (gscale c g) = map length g.
Proof.
  unfold gscale. induction g as [|t g IH]; simpl; [done|].
  by rewrite IH, length_vscale.
Qed.

Lemma length_vsub (a b : tensor) : length (vsub a b) = (length a `min` length b)%nat.
Proof. unfold vsub. apply length_zip_with. Qed.

Lemma shapes_sgd_step lr wd m :
  map length (grads m) = shapes m -> shapes (sgd_step lr wd m) = shapes m.
Proof.
  unfold shapes, parameters, grads, sgd_step.
  induction m as [|np m IH]; intros H; simpl in *; [done|].
  injection H as Hg H. rewrite (IH H). f_equal.
  rewrite length_vsub, length_vscale. unfold vadd. rewrite length_zip_with.
  rewrite length_vscale. lia.
Qed.

Lemma names_backward_from n up m : names (backward_from T n up m) = names m.
Proof. by rewrite !names_named, named_parameters_backward_from. Qed.

Lemma shapes_backward n m : shapes (backward T n m) = shapes m.
Proof. apply shapes_backward_from. Qed.

Lemma names_backward n m : names (backward T n m) = names m.
Proof. apply names_backward_from. Qed.

(** The per-parameter gradients after the backward pass of the auxiliary
    loss. *)
Lemma grads_backward_aux_params (b : batch) (c : tensor) (m : Module) :
  grad_shaped T ->
  grads (backward T (Sub T (LossOf T b) (Dot T (Detached T c) (Weights T)))
           (zero_grad m))
  = gadd (loss_grad T (parameters m) b) (split_sizes (shapes m) (vscale (- (1)) c)).
Proof.
  intros Hsh.
  pose (m1 := backward T (LossOf T b) (zero_grad m)).
  change (backward T _ (zero_grad m))
    with (accumulate (split_sizes (shapes m1) (vscale (- (1)) c)) m1).
  rewrite grads_accumulate.
  - unfold m1, backward.
    rewrite shapes_backward_from, shapes_zero_grad.
    fold (backward T (LossOf T b) (zero_grad m)).
    by rewrite grads_backward_loss.
  - rewrite length_split_sizes, length_shapes. done.
Qed.

(** A module keeps its structure through a warmup step. *)
Lemma warmup_batch_structure (b : batch) (acc : Module * Qc) :
  grad_shaped T ->
  names (warmup_batch T cfg b acc).1 = names acc.1
  /\ shapes (warmup_batch T cfg b acc).1 = shapes acc.1.
Proof.
  intros Hsh. unfold warmup_batch. cbn [fst].
  destruct (named_parameters_sgd_step (warmup_learning_rate cfg) (weight_decay cfg)
              (backward T (LossOf T b) (zero_grad acc.1))) as [Hn _].
  split.
  - by rewrite Hn, names_backward, names_zero_grad.
  - rewrite shapes_sgd_step.
    + by rewrite shapes_backward, shapes_zero_grad.
    + rewrite grads_backward_loss by done.
      rewrite shapes_backward, shapes_zero_grad. apply Hsh.
Qed.

(** A module keeps its structure through an inner step, provided the
    correction vector covers the whole weight vector. *)
Lemma inner_batch_structure (mu : tensor) (b : batch) (lo : Locals) :
  grad_shaped T ->
  shapes (target_model (st lo)) = shapes (model (st lo)) ->
  length mu = length (cat (parameters (model (st lo)))) ->
  let lo' := inner_batch T cfg mu b lo in
  names (model (st lo')) = names (model (st lo))
  /\ shapes (model (st lo')) = shapes (model (st lo))
  /\ names (target_model (st lo')) = names (target_model (st lo))
  /\ shapes (target_model (st lo')) = shapes (target_model (st lo)).
Proof.
  intros Hsh Hst Hmu lo'.
  assert (Ht : names (target_model (st lo')) = names (target_model (st lo))
               /\ shapes (target_model (st lo')) = shapes (target_model (st lo))).
  { unfold lo'. rewrite inner_batch_target.
    by rewrite names_backward, shapes_backward, names_zero_grad, shapes_zero_grad. }
  destruct Ht as [Ht1 Ht2]. split; [|split; [|done]].
  - unfold lo', inner_batch. cbn [st model set_model set_target_model].
    match goal with |- names (sgd_step ?lr ?wd ?m) = _ =>
      destruct (named_parameters_sgd_step lr wd m) as [-> _] end.
    by rewrite names_backward, names_zero_grad.
  - unfold lo', inner_batch. cbn [st model set_model set_target_model].
    rewrite shapes_sgd_step.
    + by rewrite shapes_backward, shapes_zero_grad.
    + unfold aux_loss_of. rewrite grads_backward_aux_params by done.
      rewrite shapes_backward, shapes_zero_grad.
      assert (Hl : map length (loss_grad T (parameters (model (st lo))) b)
                   = shapes (model (st lo))) by apply Hsh.
      rewrite shape_gadd; [done|]. rewrite Hl. unfold shapes.
      rewrite shape_split_sizes; [done|].
      rewrite length_vscale, length_vsub, grads_backward_loss by done.
      rewrite (length_cat_shape (loss_grad T _ b) (parameters (model (st lo)))).
      * lia.
      * fold (shapes (model (st lo))). rewrite <- Hst. apply Hsh.
Qed.

Lemma length_cat (ts : list tensor) : length (cat ts) = sum_list (map length ts).
Proof.
  unfold cat. induction ts as [|t ts IH]; simpl; [done|].
  by rewrite length_app, IH.
Qed.

Lemma py_div_returns line a b : b <> 0 -> py_div line a b = Ok (a / b).
Proof. intros Hb. unfold py_div. by rewrite decide_False. Qed.

Lemma Qcminus_nonzero (a b : Qc) : a <> b -> a - b <> 0.
Proof. intros Hne H. apply Hne. replace a with (a - b + b) by ring. rewrite H. ring. Qed.

Lemma warmup_fold_structure (bs : list batch) (acc : Module * Qc) :
  grad_shaped T ->
  names (foldl (fun acc b => warmup_batch T cfg b acc) acc bs).1 = names acc.1
  /\ shapes (foldl (fun acc b => warmup_batch T cfg b acc) acc bs).1 = shapes acc.1.
Proof.
  intros Hsh. revert acc. induction bs as [|b bs IH]; intros acc; [done|].
  simpl. destruct (IH (warmup_batch T cfg b acc)) as [-> ->].
  by apply warmup_batch_structure.
Qed.

Lemma warmup_epoch_body_returns N Sh e s :
  well_formed_run T train_loader cfg ->
  state_inv N Sh s ->
  exists s', warmup_epoch_body T train_loader cfg e s = Ok s' /\ state_inv N Sh s'.
Proof.
  intros (Hsh & _ & _ & Hds & _ & Hclock & _) (I1 & I2 & I3 & I4).
  rewrite warmup_epoch_body_unfold. cbv zeta.
  rewrite (py_div_returns 46)
    by (apply of_nat_nonzero; by destruct (dataset train_loader)).
  cbn [mbind result_bind].
  rewrite (py_div_returns 50) by apply Qcminus_nonzero, Hclock.
  cbn [mbind result_bind mret result_ret].
  eexists. split; [done|].
  destruct (warmup_fold_structure (loader_iter train_loader (passes s))
              (target_model s, 0) Hsh) as [Hn Hs].
  unfold state_inv. cbn [model target_model calculate_full_gradient_norm
    calculate_full_gradient fst snd].
  by rewrite names_zero_grad, shapes_zero_grad, Hn, Hs.
Qed.

Lemma shape_full_gradient_pass (m : Module) (bs : list batch) :
  grad_shaped T -> map length (full_gradient_pass T m bs).1 = shapes m.
Proof.
  intros Hsh. unfold full_gradient_pass.
  assert (Hgen : forall acc : list tensor * nat,
            map length acc.1 = shapes m ->
            map length (foldl (fun acc b =>
              (gadd acc.1 (gscale (of_nat (length b)) (loss_grad T (parameters m) b)),
               (acc.2 + length b)%nat)) acc bs).1 = shapes m).
  { induction bs as [|b bs IH]; intros acc Hacc; [done|].
    simpl. apply IH. cbn [fst]. rewrite shape_gadd; [done|].
    rewrite Hacc, shape_gscale. symmetry. apply Hsh. }
  apply Hgen. apply shape_zeros.
Qed.

Lemma length_calculate_full_gradient (m : Module) (l : DataLoader (example T)) k :
  grad_shaped T ->
  length (calculate_full_gradient T m l k).1 = sum_list (shapes m).
Proof.
  intros Hsh. unfold calculate_full_gradient. cbn [fst].
  rewrite length_cat, <- list_fmap_compose.
  rewrite <- (shapes_zero_grad m).
  rewrite <- (shape_full_gradient_pass (zero_grad m) (loader_iter l k) Hsh).
  f_equal. apply list_fmap_ext. intros i t _. simpl. unfold vdiv. apply length_map.
Qed.

Lemma reset_working_model_returns N Sh s :
  grad_shaped T -> NoDup N -> state_inv N Sh s ->
  exists mu s1,
    reset_working_model T train_loader s = Ok (mu, s1)
    /\ state_inv N Sh s1 /\ length mu = sum_list Sh.
Proof.
  intros Hsh Hnd (I1 & I2 & I3 & I4).
  destruct (reset_working_model_copies_snapshot_aux s) as (mu & s1 & Hr & Hnp & Ht).
  { split; congruence. }
  { by rewrite I3. }
  exists mu, s1. split; [done|].
  apply reset_working_model_inv in Hr as (-> & Htz & _).
  split.
  - unfold state_inv. rewrite !names_named, Hnp, Ht, <- !names_named.
    unfold shapes. rewrite !parameters_named, Hnp, Ht, <- !parameters_named.
    done.
  - rewrite length_calculate_full_gradient by done. by rewrite I4.
Qed.

Lemma inner_batch_inv N Sh mu b lo :
  grad_shaped T -> length mu = sum_list Sh ->
  state_inv N Sh (st lo) -> Forall (loadable N Sh) (model_state_dicts lo) ->
  state_inv N Sh (st (inner_batch T cfg mu b lo))
  /\ Forall (loadable N Sh) (model_state_dicts (inner_batch T cfg mu b lo)).
Proof.
  intros Hsh Hmu (I1 & I2 & I3 & I4) Hd.
  destruct (inner_batch_structure mu b lo Hsh) as (H1 & H2 & H3 & H4).
  { congruence. }
  { by rewrite length_cat, Hmu, <- I2. }
  assert (Hinv : state_inv N Sh (st (inner_batch T cfg mu b lo))).
  { unfold state_inv. by rewrite H1, H2, H3, H4. }
  split; [done|].
  change (model_state_dicts (inner_batch T cfg mu b lo))
    with (model_state_dicts lo
          ++ [state_dict (model (st (inner_batch T cfg mu b lo)))]).
  apply Forall_app. split; [done|]. constructor; [|done].
  destruct Hinv as (J1 & J2 & _). by eexists.
Qed.

Lemma inner_batches_loop_inv N Sh mu ib bs idx lo :
  grad_shaped T -> length mu = sum_list Sh ->
  state_inv N Sh (st lo) -> Forall (loadable N Sh) (model_state_dicts lo) ->
  state_inv N Sh (st (inner_batches_loop T cfg mu ib bs idx lo))
  /\ Forall (loadable N Sh) (model_state_dicts (inner_batches_loop T cfg mu ib bs idx lo)).
Proof.
  intros Hsh Hmu. revert idx lo.
  induction bs as [|b bs IH]; intros idx lo Hs Hd; [done|].
  cbn [inner_batches_loop].
  destruct (inner_batch_inv N Sh mu b lo Hsh Hmu Hs Hd) as [Hs' Hd'].
  case_decide; [done|]. by apply IH.
Qed.

Lemma sub_epoch_body_returns N Sh epoch mu ib sub s d :
  well_formed_run T train_loader cfg ->
  length mu = sum_list Sh ->
  state_inv N Sh s -> Forall (loadable N Sh) d ->
  exists s' d',
    sub_epoch_body T train_loader cfg epoch mu ib sub (s, d) = Ok (s', d')
    /\ state_inv N Sh s' /\ Forall (loadable N Sh) d' /\ d' <> [].
Proof.
  intros (Hsh & _ & _ & Hds & Hl & Hclock & _) Hmu Hs Hd.
  destruct (Hl (passes s)) as [Hne Hbs].
  rewrite sub_epoch_body_unfold. cbv zeta.
  set (lo := sub_epoch_locals T train_loader cfg mu ib s d).
  destruct (sub_epoch_locals_streams mu ib s d) as (_ & _ & Hticks & _).
  fold lo in Hticks.
  assert (Hinv : state_inv N Sh (st lo) /\ Forall (loadable N Sh) (model_state_dicts lo)).
  { unfold lo, sub_epoch_locals. by apply inner_batches_loop_inv. }
  destruct Hinv as [(J1 & J2 & J3 & J4) Hd'].
  assert (Hseen : examples_seen lo <> 0%nat).
  { unfold lo, sub_epoch_locals. rewrite inner_batches_loop_seen. cbn [examples_seen].
    destruct (loader_iter train_loader (passes s)) as [|b bs]; [done|].
    apply Forall_cons in Hbs as [Hb _].
    replace (batches_processed (ib - Z.of_nat 0) (length (b :: bs)))
      with (S (pred (batches_processed (ib - Z.of_nat 0) (length (b :: bs)))))
      by (unfold batches_processed; cbn [length]; lia).
    simpl. rewrite length_app. destruct b; [done|]. simpl. lia. }
  assert (Hdne : model_state_dicts lo <> []).
  { unfold lo, sub_epoch_locals.
    match goal with |- context [inner_batches_loop T cfg mu ib ?bs 0 ?l] =>
      destruct (inner_batches_loop_dicts mu ib bs 0 l) as (new & -> & Hlen)
    end.
    destruct new; [|by destruct d].
    exfalso. revert Hlen. unfold batches_processed.
    destruct (loader_iter train_loader (passes s)); [done|]. cbn [length]. lia. }
  rewrite (py_div_returns 114) by (by apply of_nat_nonzero).
  cbn [mbind result_bind].
  rewrite (py_div_returns 118) by (rewrite Hticks; apply Qcminus_nonzero, Hclock).
  cbn [mbind result_bind mret result_ret].
  eexists _, _. split; [done|]. split; [|done].
  unfold state_inv, sub_epoch_finish.
  cbn [model target_model calculate_full_gradient_norm calculate_full_gradient fst snd].
  by rewrite names_zero_grad, shapes_zero_grad.
Qed.

Lemma for_each_returns {A S} (P : S -> Prop) (body : A -> S -> result S) xs s :
  (forall x s1, P s1 -> exists s2, body x s1 = Ok s2 /\ P s2) ->
  P s -> exists s', for_each body xs s = Ok s' /\ P s'.
Proof.
  intros Hbody. revert s. induction xs as [|x xs IH]; intros s HP; simpl.
  - by exists s.
  - destruct (Hbody x s HP) as (s1 & -> & HP1). by apply IH.
Qed.

Lemma select_next_snapshot_returns N Sh dicts s :
  well_formed_run T train_loader cfg ->
  NoDup N -> state_inv N Sh s ->
  Forall (loadable N Sh) dicts -> dicts <> [] ->
  exists s', select_next_snapshot T cfg dicts s = Ok s' /\ state_inv N Sh s'.
Proof.
  intros (_ & _ & _ & _ & _ & _ & Hrand & _) Hnd (I1 & I2 & I3 & I4) Hd Hne.
  assert (Hload : forall x s0, x ∈ dicts ->
            target_model s0 = target_model s -> model s0 = model s ->
            exists s', (target ← load_state_dict 131 (target_model s0) x;
                        mret (set_target_model target s0)) = Ok s'
                       /\ state_inv N Sh s').
  { intros x s0 Hx Ht Hm. rewrite Forall_forall in Hd.
    destruct (Hd x Hx) as (m & -> & Hmn & Hms).
    destruct (load_state_dict_same_structure 131 (target_model s0) m)
      as (t & Hok & Hnp & _).
    { rewrite Ht. split; congruence. }
    { by rewrite Hmn. }
    unfold deepcopy in Hok. rewrite Hok. eexists. split; [done|].
    unfold state_inv, set_target_model. cbn [model target_model].
    rewrite Hm. split; [done|]. split; [done|].
    unfold shapes. rewrite (names_named t), (parameters_named t), Hnp.
    by rewrite <- names_named, <- parameters_named. }
  unfold select_next_snapshot. destruct (choose_random_iterate cfg).
  - unfold random_choice. destruct dicts as [|d0 ds] eqn:Hdicts; [done|].
    rewrite <- Hdicts in *.
    destruct (lookup_lt_is_Some_2 dicts (randbelow T (draws s) (length dicts)))
      as [x Hx].
    { apply Hrand. rewrite Hdicts. simpl. lia. }
    rewrite Hx. cbn [mbind result_bind].
    apply Hload; [|done..]. by eapply list_elem_of_lookup_2.
  - unfold last_item. destruct (last dicts) as [x|] eqn:Hlast.
    + cbn [mbind result_bind mret result_ret].
      apply Hload; [|done..]. by apply last_Some_elem_of.
    + by apply last_None in Hlast.
Qed.

Lemma well_formed_optimizers :
  well_formed_run T train_loader cfg ->
  create_model T 1 <> [] /\ valid_rates cfg /\ finite_fraction T train_loader cfg.
Proof. intros (_ & _ & _ & _ & _ & _ & _ & _ & H). exact H. Qed.

Lemma run_inner_loop_returns N Sh epoch mu s :
  well_formed_run T train_loader cfg ->
  (1 <= num_inner_epochs cfg)%Z ->
  N <> [] ->
  length mu = sum_list Sh -> state_inv N Sh s ->
  exists s' dicts,
    run_inner_loop T train_loader cfg epoch mu s = Ok (s', dicts)
    /\ state_inv N Sh s' /\ Forall (loadable N Sh) dicts /\ dicts <> [].
Proof.
  intros Hwf Hi HN Hmu Hs.
  destruct (well_formed_optimizers Hwf) as (_ & (_ & Hlr & Hwd) & Hfin).
  destruct (inner_batches_of_returns Hfin) as [ib Hib].
  rewrite (run_inner_loop_valid epoch mu s ib Hlr Hwd); [|by apply parameters_nonempty;
    rewrite (proj1 Hs)|done].
  destruct (range1_cons _ Hi) as (rest & ->). cbn [for_each].
  destruct (sub_epoch_body_returns N Sh epoch mu ib
              1 s [] Hwf Hmu Hs) as (s1 & d1 & -> & Hs1 & Hd1 & Hne1); [done|].
  cbn [mbind result_bind].
  destruct (for_each_returns
              (fun a => state_inv N Sh a.1 /\ Forall (loadable N Sh) a.2 /\ a.2 <> [])
              (sub_epoch_body T train_loader cfg epoch mu ib) rest (s1, d1))
    as ([s' dicts] & Hrun & Hinv); [|done|by exists s', dicts].
  intros sub [sa da] (Ha & Hda & _).
  destruct (sub_epoch_body_returns N Sh epoch mu ib
              sub sa da Hwf Hmu Ha Hda) as (sb & db & Hsub & Hb); by exists (sb, db).
Qed.

Lemma outer_epoch_body_returns N Sh epoch s :
  well_formed_run T train_loader cfg ->
  (1 <= num_inner_epochs cfg)%Z ->
  N <> [] -> NoDup N -> state_inv N Sh s ->
  exists s', outer_epoch_body T train_loader cfg epoch s = Ok s' /\ state_inv N Sh s'.
Proof.
  intros Hwf Hi HN Hnd Hs. unfold outer_epoch_body.
  destruct (reset_working_model_returns N Sh s (proj1 Hwf) Hnd Hs)
    as (mu & s1 & -> & Hs1 & Hmu).
  cbn [mbind result_bind].
  destruct (run_inner_loop_returns N Sh epoch mu s1 Hwf Hi HN Hmu Hs1)
    as (s2 & dicts & -> & Hs2 & Hd & Hne).
  cbn [mbind result_bind].
  by apply (select_next_snapshot_returns N Sh).
Qed.

(** On well-formed inputs every step of [train] goes through. *)
Lemma train_returns :
  well_formed_run T train_loader cfg -> exists ms, train T train_loader cfg = Ok ms.
Proof.
  intros Hwf.
  pose (N := names (create_model T 1)). pose (Sh := shapes (create_model T 1)).
  assert (Hnd : NoDup N) by apply Hwf.
  assert (H0 : state_inv N Sh (initial_state T)).
  { destruct Hwf as (_ & [Hn Hs] & _). by repeat split. }
  destruct (well_formed_optimizers Hwf) as (Hne & (Hwlr & _ & Hwd) & _).
  assert (HN : N <> []) by (unfold N; by destruct (create_model T 1)).
  rewrite train_after_optimizer by (by apply warmup_optimizer_returns).
  unfold warmup, outer_loop.
  destruct (for_each_returns (state_inv N Sh) (warmup_epoch_body T train_loader cfg)
              (range1 (num_warmup_epochs cfg)) (initial_state T))
    as (sw & -> & Hsw); [|done|].
  { intros e s1 Hs1. by apply warmup_epoch_body_returns. }
  cbn [mbind result_bind].
  destruct (decide (num_outer_epochs cfg <= 0)%Z) as [Ho|Ho].
  - rewrite (range1_nil _ Ho). by eexists.
  - assert (Hi : (1 <= num_inner_epochs cfg)%Z).
    { destruct Hwf as (_ & _ & _ & _ & _ & _ & _ & [Hi|Hz] & _); [done|lia]. }
    destruct (for_each_returns (state_inv N Sh) (outer_epoch_body T train_loader cfg)
                (range1 (num_outer_epochs cfg)) sw)
      as (so & -> & Hso); [|done|by eexists].
    intros e s1 Hs1. by apply outer_epoch_body_returns.
Qed.

(** *** The properties of the specification *)

(** C1. For every batch of the inner loop, the auxiliary loss is
    [L_working - dot(g_snapshot - mu, working parameter vector)], with
    [g_snapshot - mu] entering the graph as a detached constant, and after
    [aux_loss.backward()] the flattened gradient of the working model is
    [grad L_working - (g_snapshot - mu)]; this is the gradient the working
    model carries after line 100 of [inner_batch], where [g_snapshot] is the
    gradient of the target model's loss on the same batch. *)
Theorem aux_loss_gradient_identity (mu : tensor) (b : batch) (lo : Locals) :
  grad_shaped T ->
  let working := model (st lo) in
  let g_snapshot := cat (loss_grad T (parameters (target_model (st lo))) b) in
  let L_aux := aux_loss_of T b g_snapshot mu in
  let corrected := vsub (cat (loss_grad T (parameters working) b)) (vsub g_snapshot mu) in
  L_aux = Sub T (LossOf T b) (Dot T (Detached T (vsub g_snapshot mu)) (Weights T))
  /\ value T (zero_grad working) L_aux
     = [loss_value T (parameters working) b
        - dot (vsub g_snapshot mu) (cat (parameters working))]
  /\ cat (grads (backward T L_aux (zero_grad working))) = corrected
  /\ cat (grads (model (st (inner_batch T cfg mu b lo)))) = corrected.
Proof.
  intros Hsh working g_snapshot L_aux corrected.
  split; [done|]. split.
  { simpl. by rewrite parameters_zero_grad. }
  split.
  { apply grads_backward_aux, Hsh. }
  unfold inner_batch. cbn [st model set_model set_target_model].
  destruct (named_parameters_sgd_step (learning_rate cfg) (weight_decay cfg)
    (backward T (aux_loss_of T b (cat (grads (backward T (LossOf T b)
       (zero_grad (target_model (st lo)))))) mu) (zero_grad (model (st lo)))))
    as [_ ->].
  rewrite grads_backward_loss by done.
  apply grads_backward_aux, Hsh.
Qed.

(** C2 (amended). When the inner loop of an outer epoch returns, and every
    iteration over the loader yields [len(train_loader)] batches, the number
    of candidate states is [num_inner_epochs] times the number of batches a
    sub-epoch processes, which is
    [min(len(train_loader), max(1, inner_batches))] for the [inner_batches]
    that lines 71-73 computed ([len(train_loader)], or [int] of the float
    product [len(train_loader) * inner_epoch_fraction], whatever its
    rounding); it is [num_inner_epochs * inner_batches] when
    [1 <= inner_batches <= len(train_loader)], and
    [num_inner_epochs * len(train_loader)] when no fraction is given.  On
    well-formed inputs (which include rates that are not negative, a model
    with a parameter and a finite product) with at least one inner epoch the
    inner loop does return. *)
Theorem candidate_states_count (epoch : Z) (mu : tensor) (s : State) :
  (forall k, length (loader_iter train_loader k) = loader_len train_loader) ->
  let n := Z.to_nat (num_inner_epochs cfg) in
  (forall s' dicts,
      run_inner_loop T train_loader cfg epoch mu s = Ok (s', dicts) ->
      exists inner_batches,
        inner_batches_of T train_loader cfg = Ok inner_batches
        /\ length dicts
           = (n * batches_processed inner_batches (loader_len train_loader))%nat
        /\ ((1 <= inner_batches <= Z.of_nat (loader_len train_loader))%Z ->
            length dicts = (n * Z.to_nat inner_batches)%nat)
        /\ (inner_epoch_fraction cfg = None ->
            length dicts = (n * loader_len train_loader)%nat))
  /\ (forall N Sh,
        well_formed_run T train_loader cfg -> (1 <= num_inner_epochs cfg)%Z ->
        N <> [] -> state_inv N Sh s -> length mu = sum_list Sh ->
        exists s' dicts, run_inner_loop T train_loader cfg epoch mu s = Ok (s', dicts)).
Proof.
  intros Hlen n. split.
  - intros s' dicts Hrun.
    apply run_inner_loop_Ok in Hrun as (_ & inner_batches & Hib & Hrun).
    exists inner_batches. split; [done|].
    assert (Hcount : length dicts
              = (n * batches_processed inner_batches (loader_len train_loader))%nat).
    { apply (for_each_count (fun a => length a.2)
               (batches_processed inner_batches (loader_len train_loader))) in Hrun.
      - simpl in Hrun. by rewrite Hrun, length_range1.
      - intros sub [s1 d1] [s2 d2] Hsub.
        apply sub_epoch_body_dicts in Hsub as (new & -> & Hnew).
        simpl. rewrite length_app, Hnew, Hlen. done. }
    split; [done|]. split.
    + intros Hrange. rewrite Hcount. unfold batches_processed. f_equal. lia.
    + intros Hnone. rewrite Hcount. f_equal.
      unfold inner_batches_of in Hib. rewrite Hnone in Hib. injection Hib as <-.
      unfold batches_processed. lia.
  - intros N Sh Hwf Hi HN Hs Hmu.
    destruct (run_inner_loop_returns N Sh epoch mu s Hwf Hi HN Hmu Hs)
      as (s' & dicts & Hrun & _).
    by exists s', dicts.
Qed.


(** C4. After ResetWorkingModel (lines 59-67) the working model holds
    exactly the target model's state: whenever the step returns, the two
    state dicts are equal; and for two modules of the same structure (such
    as two results of [create_model]) the step does return, with the two
    parameter lists equal value for value, the target being unchanged. *)
Theorem reset_working_model_copies_target (s : State) :
  (forall mu s1,
      reset_working_model T train_loader s = Ok (mu, s1) ->
      state_dict (model s1) = state_dict (target_model s1)
      /\ named_parameters (target_model s1) = named_parameters (target_model s))
  /\ (same_structure (model s) (target_model s) ->
      NoDup (names (target_model s)) ->
      exists mu s1,
        reset_working_model T train_loader s = Ok (mu, s1)
        /\ named_parameters (model s1) = named_parameters (target_model s1)
        /\ parameters (model s1) = parameters (target_model s1)
        /\ named_parameters (target_model s1) = named_parameters (target_model s)).
Proof.
  split.
  - intros mu s1 H. apply reset_working_model_inv in H as (_ & Ht & Hsd & _).
    split; [done|]. by rewrite Ht, named_parameters_zero_grad.
  - intros Hst Hnd.
    destruct (reset_working_model_copies_snapshot_aux s Hst Hnd)
      as (mu & s1 & Hr & Hnp & Ht).
    exists mu, s1. split; [done|]. split; [done|]. split; [|done].
    by rewrite !parameters_named, Hnp.
Qed.

(** C5. Within an outer epoch the target model is frozen: from the
    computation of [mu] (line 59) to the end of the inner loop (line 125)
    its named parameter values do not change.  Each inner batch only runs
    [zero_grad] and the backward pass of the batch loss on it, each
    sub-epoch leaves its values as they were, and so does the whole inner
    loop. *)
Theorem target_model_frozen (epoch : Z) (s s1 s2 : State) (mu : tensor)
    (dicts : list StateDict) :
  reset_working_model T train_loader s = Ok (mu, s1) ->
  run_inner_loop T train_loader cfg epoch mu s1 = Ok (s2, dicts) ->
  named_parameters (target_model s1) = named_parameters (target_model s)
  /\ named_parameters (target_model s2) = named_parameters (target_model s1)
  /\ (forall mu' b lo,
        target_model (st (inner_batch T cfg mu' b lo))
        = backward T (LossOf T b) (zero_grad (target_model (st lo)))
        /\ named_parameters (target_model (st (inner_batch T cfg mu' b lo)))
           = named_parameters (target_model (st lo)))
  /\ (forall mu' ib sub a1 a2,
        sub_epoch_body T train_loader cfg epoch mu' ib sub a1 = Ok a2 ->
        named_parameters (target_model a2.1) = named_parameters (target_model a1.1)).
Proof.
  intros Hreset Hrun.
  apply reset_working_model_inv in Hreset as (_ & Ht & _).
  split; [by rewrite Ht, named_parameters_zero_grad|]. split.
  - apply (run_inner_loop_inv
      (fun a => named_parameters (target_model a.1) = named_parameters (target_model s1))
      _ _ _ _) in Hrun; [done| |done].
    intros ib sub a1 a2 Ha1 Hsub. rewrite <- Ha1.
    by apply sub_epoch_body_target in Hsub.
  - split.
    + intros mu' b lo. split; [done|]. apply inner_batch_frame.
    + intros mu' ib sub a1 a2. apply sub_epoch_body_target.
Qed.

(** C6. The metrics sequence [train] returns has exactly one warmup record
    per warmup epoch, in order, followed by exactly one inner record per
    pair of an outer epoch and an inner sub-epoch, in the order in which
    they ran; with [num_outer_epochs <= 0] it holds warmup records only,
    one per warmup epoch.  On well-formed inputs (which include rates that
    are not negative, a model with a parameter and a finite product on line
    73, so that the optimizers of lines 33 and 69 are built) [train] does
    return such a sequence. *)
Theorem returned_metrics_shape :
  (forall ms,
      train T train_loader cfg = Ok ms ->
      map metric_tag ms = expected_tags cfg
      /\ ((num_outer_epochs cfg <= 0)%Z ->
          map metric_tag ms = map WarmupTag (range1 (num_warmup_epochs cfg))
          /\ Forall is_warmup ms
          /\ length ms = Z.to_nat (num_warmup_epochs cfg)))
  /\ (well_formed_run T train_loader cfg ->
      exists ms, train T train_loader cfg = Ok ms
                 /\ map metric_tag ms = expected_tags cfg).
Proof.
  assert (Hshape : forall ms, train T train_loader cfg = Ok ms ->
                              map metric_tag ms = expected_tags cfg).
  { intros ms H. apply train_Ok in H as [_ H].
    destruct (warmup T train_loader cfg (initial_state T)) as [sw|] eqn:Hw; [|done].
    cbn [mbind result_bind] in H.
    destruct (outer_loop T train_loader cfg sw) as [so|] eqn:Ho; [|done].
    injection H as <-.
    apply warmup_tags in Hw. simpl in Hw.
    unfold outer_loop in Ho.
    apply (for_each_app (fun s => map metric_tag (metrics s))
             (fun e => map (InnerTag e) (range1 (num_inner_epochs cfg)))) in Ho;
      [|intros e s1 s2; apply outer_epoch_body_tags].
    unfold expected_tags. by rewrite Ho, Hw. }
  split.
  - intros ms H. pose proof (Hshape ms H) as Hall.
    split; [done|]. intros Hz.
    assert (Hwarm : map metric_tag ms = map WarmupTag (range1 (num_warmup_epochs cfg))).
    { rewrite Hall. unfold expected_tags. rewrite (range1_nil _ Hz). simpl.
      by rewrite app_nil_r. }
    split; [done|]. split.
    + clear -Hwarm. revert Hwarm. generalize (range1 (num_warmup_epochs cfg)).
      induction ms as [|r rs IH]; intros [|e es] Heq; try done.
      injection Heq as Hr Hrs. constructor; [|by eapply IH].
      by destruct r.
    + rewrite <- (length_map metric_tag), Hwarm, length_map. apply length_range1.
  - intros Hwf. destruct (train_returns Hwf) as (ms & H).
    exists ms. split; [done|]. by apply Hshape.
Qed.

(** C7. The full gradient estimator (as section 4.1 of the spec describes
    it) is deterministic: for a loss that averages over the batch and a
    loader whose every iteration visits each example of the dataset exactly
    once, two computations on the same module, over any two iterations of
    the loader (whatever the order and the batching of each), yield the same
    vector, also when the second runs on the module the first one leaves
    behind; that vector is the average over the whole dataset of the
    per-example gradients, the example count is the dataset size, and the
    module's parameter values are left unchanged. *)
Theorem full_gradient_deterministic (m : Module) (l : DataLoader (example T))
    (k1 k2 : nat) :
  grad_shaped T ->
  mean_reduction T (parameters m) ->
  visits_dataset_once T l ->
  let r1 := calculate_full_gradient T m l k1 in
  let r2 := calculate_full_gradient T m l k2 in
  r1.1 = r2.1
  /\ (calculate_full_gradient T r1.2 l k2).1 = r1.1
  /\ r1.1 = average_gradient T m (dataset l)
  /\ (full_gradient_pass T (zero_grad m) (loader_iter l k1)).2 = length (dataset l)
  /\ named_parameters r1.2 = named_parameters m.
Proof.
  intros Hsh Hmean Hl r1 r2.
  destruct (calculate_full_gradient_average m l k1 Hsh Hmean Hl) as [H1 Hn].
  destruct (calculate_full_gradient_average m l k2 Hsh Hmean Hl) as [H2 _].
  assert (Hp : parameters (zero_grad m) = parameters m) by apply parameters_zero_grad.
  destruct (calculate_full_gradient_average (zero_grad m) l k2 Hsh) as [H3 _];
    [by rewrite Hp|done|].
  unfold r1, r2. rewrite H1, H2. repeat split; try done.
  - change (calculate_full_gradient T m l k1).2 with (zero_grad m). rewrite H3.
    unfold average_gradient. by rewrite Hp, shapes_zero_grad.
  - apply named_parameters_zero_grad.
Qed.

(** C8. With an empty dataset and at least one warmup epoch, the run
    stops in the first warmup epoch with [ZeroDivisionError], raised by the
    average-loss division of line 46 (the divisor is
    [len(train_loader.dataset)]); nothing in [train] guards against it.
    The run gets there when the warmup optimizer of lines 33-34 can be
    built: the warmup rate and the weight decay are not negative and the
    model has a parameter. *)
Theorem warmup_empty_dataset_raises :
  dataset train_loader = [] ->
  (1 <= num_warmup_epochs cfg)%Z ->
  (0 <= warmup_learning_rate cfg -> 0 <= weight_decay cfg ->
   create_model T 1 <> [] ->
   train T train_loader cfg = Raise (Failure ZeroDivisionError 46))
  /\ forall s, warmup_epoch_body T train_loader cfg 1 s
               = Raise (Failure ZeroDivisionError 46).
Proof.
  intros Hds Hw.
  assert (Hbody : forall s, warmup_epoch_body T train_loader cfg 1 s
                            = Raise (Failure ZeroDivisionError 46)).
  { intros s. rewrite warmup_epoch_body_unfold. cbv zeta.
    rewrite Hds. cbn [length]. by rewrite py_div_zero. }
  split; [|done]. intros Hlr Hwd Hne.
  rewrite train_after_optimizer by (by apply warmup_optimizer_returns).
  unfold warmup.
  destruct (range1_cons _ Hw) as (rest & ->). cbn [for_each].
  by rewrite Hbody.
Qed.

(** C9 (amended). No check in [train] rejects a configuration before
    training starts.  Once the warmup optimizer (lines 33-34), the warmup,
    the first ResetWorkingModel (lines 59-67), the optimizer of line 69 and
    the computation of [inner_batches] (lines 71-73) have returned, with
    [num_outer_epochs >= 1]: if [num_inner_epochs <= 0] the candidate list
    is empty and the run stops at SelectNextSnapshot with [IndexError]
    (line 128 for a random choice, line 130 for the last element); if
    [num_inner_epochs >= 1] and the loader yields no batch, the run stops
    earlier, in the first sub-epoch, with [ZeroDivisionError] at the
    average-loss division of line 114. *)
Theorem empty_candidates_failures (sw s1 : State) (mu : tensor) (inner_batches : Z) :
  warmup_optimizer cfg (initial_state T) = Ok tt ->
  warmup T train_loader cfg (initial_state T) = Ok sw ->
  reset_working_model T train_loader sw = Ok (mu, s1) ->
  torch_optim_SGD 69 (parameters (model s1)) (learning_rate cfg) (weight_decay cfg)
  = Ok tt ->
  inner_batches_of T train_loader cfg = Ok inner_batches ->
  (1 <= num_outer_epochs cfg)%Z ->
  ((num_inner_epochs cfg <= 0)%Z ->
   run_inner_loop T train_loader cfg 1 mu s1 = Ok (s1, [])
   /\ train T train_loader cfg
      = Raise (Failure IndexError (if choose_random_iterate cfg then 128 else 130)%nat))
  /\ ((1 <= num_inner_epochs cfg)%Z ->
      loader_iter train_loader (passes s1) = [] ->
      train T train_loader cfg = Raise (Failure ZeroDivisionError 114)).
Proof.
  intros Hopt Hw Hreset Hsgd Hib Ho.
  assert (Hloop : run_inner_loop T train_loader cfg 1 mu s1
                  = for_each (sub_epoch_body T train_loader cfg 1 mu inner_batches)
                      (range1 (num_inner_epochs cfg)) (s1, [])).
  { unfold run_inner_loop. rewrite Hsgd. cbn [mbind result_bind]. by rewrite Hib. }
  split.
  - intros Hi.
    assert (Hrun : run_inner_loop T train_loader cfg 1 mu s1 = Ok (s1, [])).
    { rewrite Hloop. by rewrite range1_nil. }
    split; [done|]. apply (train_first_outer_epoch sw); [done..|].
    unfold outer_epoch_body. rewrite Hreset. cbn [mbind result_bind].
    rewrite Hrun. cbn [mbind result_bind]. unfold select_next_snapshot.
    by destruct (choose_random_iterate cfg).
  - intros Hi Hempty. apply (train_first_outer_epoch sw); [done..|].
    unfold outer_epoch_body. rewrite Hreset. cbn [mbind result_bind].
    rewrite Hloop. destruct (range1_cons _ Hi) as (rest & ->).
    cbn [for_each]. rewrite sub_epoch_body_unfold. cbv zeta.
    unfold sub_epoch_locals. rewrite Hempty. cbn [inner_batches_loop examples_seen].
    by rewrite py_div_zero.
Qed.

(** C10. For a non-empty dataset served by a [DataLoader], every iteration
    yields at least one batch, and the batch loop of a sub-epoch processes
    at least one batch and appends at least one candidate state, whatever
    the value of [inner_batches]; when [inner_batches] is zero (or negative)
    it processes exactly the first batch, because the check of line 112 runs
    after the batch has been processed and its state appended. *)
Theorem sub_epoch_processes_first_batch (mu : tensor) (inner_batches : Z) (s : State)
    (d : list StateDict) :
  is_data_loader train_loader ->
  dataset train_loader <> [] ->
  let lo := sub_epoch_locals T train_loader cfg mu inner_batches s d in
  loader_iter train_loader (passes s) <> []
  /\ (exists new, model_state_dicts lo = d ++ new /\ (1 <= length new)%nat
       /\ length new
          = batches_processed inner_batches (length (loader_iter train_loader (passes s))))
  /\ ((inner_batches <= 0)%Z ->
      exists b rest, loader_iter train_loader (passes s) = b :: rest
        /\ model_state_dicts lo = d ++ [state_dict (model (st lo))]
        /\ examples_seen lo = length b)
  /\ (forall epoch sub s' d',
        sub_epoch_body T train_loader cfg epoch mu inner_batches sub (s, d) = Ok (s', d') ->
        (length d + 1 <= length d')%nat).
Proof.
  intros Hdl Hds lo.
  assert (Hne : loader_iter train_loader (passes s) <> []).
  { destruct (data_loader_contract train_loader Hdl (passes s)) as (_ & _ & _ & H).
    by apply H. }
  split; [done|].
  assert (Hnew : exists new, model_state_dicts lo = d ++ new /\ (1 <= length new)%nat
     /\ length new
        = batches_processed inner_batches (length (loader_iter train_loader (passes s)))).
  { unfold lo, sub_epoch_locals.
    match goal with |- context [inner_batches_loop T cfg mu _ ?bs 0 ?l] =>
      destruct (inner_batches_loop_dicts mu inner_batches bs 0 l) as (new & -> & Hlen)
    end.
    exists new. split; [done|].
    replace (inner_batches - Z.of_nat 0)%Z with inner_batches in Hlen by lia.
    split; [|done]. rewrite Hlen. unfold batches_processed.
    destruct (loader_iter train_loader (passes s)); [done|]. cbn [length]. lia. }
  split; [done|]. split.
  - intros Hz. unfold lo, sub_epoch_locals.
    destruct (loader_iter train_loader (passes s)) as [|b rest]; [done|].
    exists b, rest. split; [done|]. cbn [inner_batches_loop].
    rewrite decide_True by lia. done.
  - intros epoch sub s' d' Hsub.
    apply sub_epoch_body_inv in Hsub as (-> & _). fold lo.
    destruct Hnew as (new & -> & Hone & _). rewrite length_app. lia.
Qed.

End Properties.

(** ** Concrete runs *)

Lemma of_nat_1 : of_nat 1 = 1.
Proof. by apply Qc_is_canon. Qed.

Lemma toy_grad_shaped : grad_shaped toy.
Proof.
  intros ps b. simpl. unfold toy_grad. rewrite <- list_fmap_compose.
  apply list_fmap_ext. intros i p _. simpl. by rewrite length_map.
Qed.

Lemma toy_is_data_loader : is_data_loader toy_loader.
Proof.
  exists 2%nat, (fun k => if Nat.even k then [q 1 1; q 2 1; q 3 1]
                          else [q 3 1; q 1 1; q 2 1]).
  split; [lia|]. split; [|split; [|done]].
  - intros k. destruct (Nat.even k); [done|].
    apply (Permutation_cons_append [q 1 1; q 2 1] (q 3 1)).
  - intros k. simpl. by destruct (Nat.even k).
Qed.

Lemma toy_loader_visits_once : visits_dataset_once toy toy_loader.
Proof.
  intros k. destruct (data_loader_contract toy_loader toy_is_data_loader k)
    as (Hperm & Hne & _).
  by split.
Qed.

Lemma zip_with_map_same {A B C D} (h : B -> C -> D) (f : A -> B) (g : A -> C) (l : list A) :
  zip_with h (map f l) (map g l) = map (fun x => h (f x) (g x)) l.
Proof. induction l as [|x l IH]; simpl; [done|]. by rewrite IH. Qed.

(** The sum over a batch of the toy per-example gradients. *)
Lemma toy_gsum (ps : list tensor) (b : list Qc) :
  gsum (map length ps) (map (fun x => toy_grad ps [x]) b)
  = map (fun p => map (fun w => vsum (map (fun x => w - x) b)) p) ps.
Proof.
  induction b as [|x b IH].
  - unfold gsum. simpl. rewrite <- list_fmap_compose.
    apply list_fmap_ext. intros i p _. simpl. unfold zeros.
    induction p as [|w p IHp]; simpl; [done|]. by rewrite IHp.
  - unfold gsum in *. cbn [map foldr]. rewrite IH. unfold toy_grad, gadd.
    rewrite zip_with_map_same. apply list_fmap_ext. intros i p _.
    unfold vadd. rewrite zip_with_map_same. apply list_fmap_ext. intros j w _.
    simpl. rewrite of_nat_1. field; done.
Qed.

Lemma toy_mean_reduction (ps : list tensor) : mean_reduction toy ps.
Proof.
  intros b _. change (loss_grad toy) with toy_grad.
  change (example toy) with Qc in *. rewrite (toy_gsum ps b).
  unfold toy_grad, vdiv. rewrite <- list_fmap_compose.
  apply list_fmap_ext. intros i p _. simpl. by rewrite <- list_fmap_compose.
Qed.

Lemma of_nat_inj (a b : nat) : of_nat a = of_nat b -> a = b.
Proof.
  unfold of_nat. intros H. apply Q2Qc_eq_iff in H.
  unfold Qeq in H. simpl in H. lia.
Qed.

Lemma toy_well_formed : well_formed_run toy toy_loader toy_cfg.
Proof.
  split; [apply toy_grad_shaped|]. split; [done|].
  split; [compute_done|]. split; [done|]. split; [|split; [|split; [|split]]].
  - intros k. simpl. destruct (Nat.even k); split; try done; by repeat constructor.
  - intros t H. apply of_nat_inj in H. lia.
  - intros k n Hn. simpl. apply Nat.mod_upper_bound. lia.
  - left. simpl. lia.
  - split; [done|]. split; [|done]. by repeat split.
Qed.

(** Instance of C1: one inner batch of the toy model. *)
Lemma aux_loss_gradient_identity_witness :
  grad_shaped toy
  /\ cat (grads (model (st (inner_batch toy toy_cfg [q 1 1; 0; q 1 2]
                              [q 1 1; q 2 1] toy_locals))))
     = vsub (cat (loss_grad toy (parameters (model (st toy_locals))) [q 1 1; q 2 1]))
            (vsub (cat (loss_grad toy (parameters (target_model (st toy_locals)))
                                  [q 1 1; q 2 1]))
                  [q 1 1; 0; q 1 2])
  /\ cat (grads (model (st (inner_batch toy toy_cfg [q 1 1; 0; q 1 2]
                              [q 1 1; q 2 1] toy_locals))))
     = [q 1 1; 0; q (-1) 2].
Proof.
  split; [apply toy_grad_shaped|]. split.
  - apply (aux_loss_gradient_identity toy toy_cfg [q 1 1; 0; q 1 2] [q 1 1; q 2 1]
             toy_locals toy_grad_shaped).
  - compute_done.
Defined.

Lemma is_ok_returns {A} (r : result A) : is_ok r = true -> exists a, r = Ok a.
Proof. destruct r as [a|f]; [by exists a | done]. Qed.

Lemma bind_Ok_inv {A B} (r : result A) (k : A -> result B) (b : B) :
  r ≫= k = Ok b -> exists a, r = Ok a /\ k a = Ok b.
Proof. destruct r as [a|f]; [by exists a | done]. Qed.

Ltac returns r x H :=
  destruct (is_ok_returns r ltac:(vm_compute; reflexivity)) as [x H].

Lemma toy_loader_len k : length (loader_iter toy_loader k) = loader_len toy_loader.
Proof. apply (data_loader_contract toy_loader toy_is_data_loader k). Qed.

(** C2 as stated fails: with two batches and [inner_epoch_fraction = 0.25]
    the claimed count is [2 * int(0.5) = 0], and the two sub-epochs collect
    two candidate states; with [inner_epoch_fraction = 2.0] the claimed
    count is [2 * 4 = 8], and they collect four. *)
Lemma candidate_count_counterexample :
  loader_len toy_loader = 2%nat
  /\ (num_inner_epochs quarter_cfg = 2%Z
      /\ inner_batches_of toy toy_loader quarter_cfg = Ok 0%Z
      /\ claimed_candidate_count toy toy_loader quarter_cfg = Ok 0%Z
      /\ candidate_count toy toy_loader quarter_cfg = Ok 2%nat)
  /\ (num_inner_epochs double_cfg = 2%Z
      /\ inner_batches_of toy toy_loader double_cfg = Ok 4%Z
      /\ claimed_candidate_count toy toy_loader double_cfg = Ok 8%Z
      /\ candidate_count toy toy_loader double_cfg = Ok 4%nat).
Proof. repeat split; vm_compute; reflexivity. Qed.

(** Instance of C2 (amended): the inner loop of the toy run without a
    fraction (two sub-epochs of two batches), and with
    [inner_epoch_fraction = 0.5] (two sub-epochs of one batch). *)
Lemma candidate_states_count_witness :
  (exists s' dicts,
     run_inner_loop toy toy_loader toy_cfg 1 [0; 0; 0] (initial_state toy) = Ok (s', dicts)
     /\ length dicts = 4%nat)
  /\ (exists s' dicts,
        run_inner_loop toy toy_loader half_cfg 1 [0; 0; 0] (initial_state toy)
        = Ok (s', dicts)
        /\ inner_batches_of toy toy_loader half_cfg = Ok 1%Z
        /\ length dicts = 2%nat).
Proof.
  split.
  - returns (run_inner_loop toy toy_loader toy_cfg 1 [0; 0; 0] (initial_state toy)) r H.
    destruct r as [s' dicts]. exists s', dicts. split; [exact H|].
    destruct (candidate_states_count toy toy_loader toy_cfg 1 [0; 0; 0]
                (initial_state toy) toy_loader_len) as [Hcount _].
    destruct (Hcount s' dicts H) as (ib & _ & _ & _ & Hc).
    rewrite Hc; reflexivity.
  - returns (run_inner_loop toy toy_loader half_cfg 1 [0; 0; 0] (initial_state toy)) r H.
    destruct r as [s' dicts]. exists s', dicts. split; [exact H|].
    assert (Hib : inner_batches_of toy toy_loader half_cfg = Ok 1%Z) by (by vm_compute).
    split; [exact Hib|].
    destruct (candidate_states_count toy toy_loader half_cfg 1 [0; 0; 0]
                (initial_state toy) toy_loader_len) as [Hcount _].
    destruct (Hcount s' dicts H) as (ib & Hib' & _ & Hc & _).
    rewrite Hib in Hib'. injection Hib' as <-.
    rewrite Hc; [done|]. simpl. lia.
Defined.

(** Instance of C10: the first sub-epoch of the toy run with
    [inner_epoch_fraction = 0.25], for which lines 71-73 compute 0. *)
Lemma sub_epoch_processes_first_batch_witness :
  is_data_loader toy_loader
  /\ dataset toy_loader <> []
  /\ inner_batches_of toy toy_loader quarter_cfg = Ok 0%Z
  /\ exists new,
       model_state_dicts
         (sub_epoch_locals toy toy_loader quarter_cfg [0; 0; 0] 0 (initial_state toy) [])
       = [] ++ new
       /\ (1 <= length new)%nat.
Proof.
  assert (Hds : dataset toy_loader <> []) by done.
  split; [apply toy_is_data_loader|]. split; [done|]. split; [by vm_compute|].
  destruct (sub_epoch_processes_first_batch toy toy_loader quarter_cfg [0; 0; 0] 0
              (initial_state toy) [] toy_is_data_loader Hds)
    as (_ & (new & H1 & H2 & _) & _).
  exists new. by split.
Defined.

(** Instance of C4: the two modules of the toy initial state. *)
Lemma reset_working_model_copies_target_witness :
  same_structure (model (initial_state toy)) (target_model (initial_state toy))
  /\ NoDup (names (target_model (initial_state toy)))
  /\ exists mu s1,
       reset_working_model toy toy_loader (initial_state toy) = Ok (mu, s1)
       /\ parameters (model s1) = parameters (target_model s1).
Proof.
  assert (H1 : same_structure (model (initial_state toy))
                 (target_model (initial_state toy))) by done.
  assert (H2 : NoDup (names (target_model (initial_state toy)))) by compute_done.
  split; [done|]. split; [done|].
  destruct (reset_working_model_copies_target toy toy_loader (initial_state toy))
    as [_ H].
  destruct (H H1 H2) as (mu & s1 & Hr & _ & Hp & _). by exists mu, s1.
Defined.

(** Instance of C5: the first outer epoch of the toy run. *)
Lemma target_model_frozen_witness :
  exists mu s1 s2 dicts,
    reset_working_model toy toy_loader (initial_state toy) = Ok (mu, s1)
    /\ run_inner_loop toy toy_loader toy_cfg 1 mu s1 = Ok (s2, dicts)
    /\ named_parameters (target_model s1)
       = named_parameters (target_model (initial_state toy))
    /\ named_parameters (target_model s2) = named_parameters (target_model s1).
Proof.
  returns ('(mu, s1) ← reset_working_model toy toy_loader (initial_state toy);
           run_inner_loop toy toy_loader toy_cfg 1 mu s1) r H.
  apply bind_Ok_inv in H as ([mu s1] & Hr & Hrun). destruct r as [s2 dicts].
  exists mu, s1, s2, dicts. split; [exact Hr|]. split; [exact Hrun|].
  destruct (target_model_frozen toy toy_loader toy_cfg 1 _ s1 s2 mu dicts Hr Hrun)
    as (H1 & H2 & _).
  by split.
Defined.


(** Instance of C6: the toy run, which is well formed, and the toy run
    without outer epochs. *)
Lemma returned_metrics_shape_witness :
  (exists ms, train toy toy_loader toy_cfg = Ok ms
     /\ map metric_tag ms = [WarmupTag 1; InnerTag 1 1; InnerTag 1 2])
  /\ (exists ms, train toy toy_loader (with_epochs 2 0 3 toy_cfg) = Ok ms
        /\ map metric_tag ms = [WarmupTag 1; WarmupTag 2])
  /\ well_formed_run toy toy_loader toy_cfg.
Proof.
  split; [|split; [|apply toy_well_formed]].
  - destruct (returned_metrics_shape toy toy_loader toy_cfg) as [_ Hreturns].
    destruct (Hreturns toy_well_formed) as (ms & H & Ht).
    exists ms. split; [done|]. rewrite Ht. reflexivity.
  - returns (train toy toy_loader (with_epochs 2 0 3 toy_cfg)) ms H.
    exists ms. split; [done|].
    destruct (returned_metrics_shape toy toy_loader (with_epochs 2 0 3 toy_cfg))
      as [Hshape _].
    destruct (Hshape ms H) as [_ Hz].
    destruct Hz as [Ht _]; [done|]. rewrite Ht. reflexivity.
Defined.

(** Instance of C7: two iterations of the toy loader, which batch the
    dataset in different orders. *)
Lemma full_gradient_deterministic_witness :
  loader_iter toy_loader 0 <> loader_iter toy_loader 1
  /\ (calculate_full_gradient toy (toy_module 0) toy_loader 0).1
     = (calculate_full_gradient toy (toy_module 0) toy_loader 1).1
  /\ (calculate_full_gradient toy (toy_module 0) toy_loader 0).1
     = average_gradient toy (toy_module 0) (dataset toy_loader)
  /\ (calculate_full_gradient toy (toy_module 0) toy_loader 0).1
     = [0; q 1 1; q (-2) 1].
Proof.
  split; [done|].
  destruct (full_gradient_deterministic toy (toy_module 0) toy_loader 0 1
              toy_grad_shaped (toy_mean_reduction _) toy_loader_visits_once)
    as (H1 & _ & H2 & _).
  split; [done|]. split; [done|]. compute_done.
Defined.

(** Instance of C8: the toy run on the empty dataset. *)
Lemma warmup_empty_dataset_raises_witness :
  dataset empty_loader = []
  /\ (1 <= num_warmup_epochs toy_cfg)%Z
  /\ 0 <= warmup_learning_rate toy_cfg
  /\ 0 <= weight_decay toy_cfg
  /\ create_model toy 1 <> []
  /\ train toy empty_loader toy_cfg = Raise (Failure ZeroDivisionError 46).
Proof.
  assert (H1 : dataset empty_loader = []) by done.
  assert (H2 : (1 <= num_warmup_epochs toy_cfg)%Z) by done.
  assert (H3 : 0 <= warmup_learning_rate toy_cfg) by done.
  assert (H4 : 0 <= weight_decay toy_cfg) by done.
  assert (H5 : create_model toy 1 <> []) by done.
  split; [done|]. split; [done|]. split; [done|]. split; [done|]. split; [done|].
  destruct (warmup_empty_dataset_raises toy empty_loader toy_cfg H1 H2) as [H _].
  exact (H H3 H4 H5).
Defined.

(** C9 as stated fails: without warmup, with one outer epoch and one inner
    epoch, a loader that yields no batches makes the run stop at the
    average-loss division of line 114, before SelectNextSnapshot (lines
    127-131) is reached. *)
Lemma no_batches_counterexample :
  loader_iter empty_loader 0 = []
  /\ num_outer_epochs (with_epochs 0 1 1 toy_cfg) = 1%Z
  /\ num_inner_epochs (with_epochs 0 1 1 toy_cfg) = 1%Z
  /\ train toy empty_loader (with_epochs 0 1 1 toy_cfg)
     = Raise (Failure ZeroDivisionError 114)
  /\ train toy empty_loader (with_random_iterate true (with_epochs 0 1 1 toy_cfg))
     = Raise (Failure ZeroDivisionError 114).
Proof. repeat split; vm_compute; reflexivity. Qed.

(** Instance of C9 (amended): the toy run with no inner epochs, and the
    run on the empty loader with one inner epoch. *)
Lemma empty_candidates_failures_witness :
  (exists sw mu s1 ib,
     warmup_optimizer (with_epochs 1 1 0 toy_cfg) (initial_state toy) = Ok tt
     /\ warmup toy toy_loader (with_epochs 1 1 0 toy_cfg) (initial_state toy) = Ok sw
     /\ reset_working_model toy toy_loader sw = Ok (mu, s1)
     /\ inner_batches_of toy toy_loader (with_epochs 1 1 0 toy_cfg) = Ok ib
     /\ train toy toy_loader (with_epochs 1 1 0 toy_cfg) = Raise (Failure IndexError 130))
  /\ (exists sw mu s1 ib,
        warmup_optimizer (with_epochs 0 1 1 toy_cfg) (initial_state toy) = Ok tt
        /\ warmup toy empty_loader (with_epochs 0 1 1 toy_cfg) (initial_state toy) = Ok sw
        /\ reset_working_model toy empty_loader sw = Ok (mu, s1)
        /\ inner_batches_of toy empty_loader (with_epochs 0 1 1 toy_cfg) = Ok ib
        /\ loader_iter empty_loader (passes s1) = []
        /\ train toy empty_loader (with_epochs 0 1 1 toy_cfg)
           = Raise (Failure ZeroDivisionError 114)).
Proof.
  split.
  - returns (sw ← warmup toy toy_loader (with_epochs 1 1 0 toy_cfg) (initial_state toy);
             '(mu, s1) ← reset_working_model toy toy_loader sw;
             _ ← torch_optim_SGD 69 (parameters (model s1))
                   (learning_rate (with_epochs 1 1 0 toy_cfg))
                   (weight_decay (with_epochs 1 1 0 toy_cfg));
             mret (mu, s1)) r H.
    apply bind_Ok_inv in H as (sw & Hw & H).
    apply bind_Ok_inv in H as ([mu s1] & Hr & H).
    apply bind_Ok_inv in H as ([] & Hsgd & _).
    exists sw, mu, s1, 2%Z.
    assert (Hopt : warmup_optimizer (with_epochs 1 1 0 toy_cfg) (initial_state toy) = Ok tt)
      by reflexivity.
    assert (Hib : inner_batches_of toy toy_loader (with_epochs 1 1 0 toy_cfg) = Ok 2%Z)
      by reflexivity.
    split; [exact Hopt|]. split; [exact Hw|]. split; [exact Hr|]. split; [exact Hib|].
    destruct (empty_candidates_failures toy toy_loader (with_epochs 1 1 0 toy_cfg)
                sw s1 mu 2 Hopt Hw Hr Hsgd Hib) as [Hno _]; [done|].
    destruct Hno as [_ Ht]; [done|]. exact Ht.
  - returns (sw ← warmup toy empty_loader (with_epochs 0 1 1 toy_cfg) (initial_state toy);
             '(mu, s1) ← reset_working_model toy empty_loader sw;
             _ ← torch_optim_SGD 69 (parameters (model s1))
                   (learning_rate (with_epochs 0 1 1 toy_cfg))
                   (weight_decay (with_epochs 0 1 1 toy_cfg));
             mret (mu, s1)) r H.
    apply bind_Ok_inv in H as (sw & Hw & H).
    apply bind_Ok_inv in H as ([mu s1] & Hr & H).
    apply bind_Ok_inv in H as ([] & Hsgd & _).
    exists sw, mu, s1, 0%Z.
    assert (Hopt : warmup_optimizer (with_epochs 0 1 1 toy_cfg) (initial_state toy) = Ok tt)
      by reflexivity.
    assert (Hib : inner_batches_of toy empty_loader (with_epochs 0 1 1 toy_cfg) = Ok 0%Z)
      by reflexivity.
    split; [exact Hopt|]. split; [exact Hw|]. split; [exact Hr|]. split; [exact Hib|].
    split; [done|].
    destruct (empty_candidates_failures toy empty_loader (with_epochs 0 1 1 toy_cfg)
                sw s1 mu 0 Hopt Hw Hr Hsgd Hib) as [_ Hzero]; [done|].
    by apply Hzero.
Defined.

(** The end-to-end scenario of the spec, by hand: the examples are 1 and 3,
    so the loss is [2 * 2 = 4] and its gradient is 2; [mu = 2]; the
    correction [g_snapshot - mu] is zero, the step gives
    [w = 2 - 0.1 * 2 = 9/5], which becomes the next target; the single record
    carries the loss 4. *)
Example linear_scenario :
  fst <$> reset_working_model linear (fixed_loader [[q 1 1; q 3 1]]) (initial_state linear)
  = Ok [q 2 1]
  /\ (fun s => (parameters (model s), parameters (target_model s)))
       <$> outer_epoch_body linear (fixed_loader [[q 1 1; q 3 1]]) linear_cfg 1
             (initial_state linear)
     = Ok ([[q 9 5]], [[q 9 5]])
  /\ map metric_loss <$> train linear (fixed_loader [[q 1 1; q 3 1]]) linear_cfg
     = Ok [q 4 1].
Proof. split; [|split]; compute_done. Qed.

(** What the optimizer constructors and line 73 raise: a negative warmup
    rate, a negative weight decay or a model without parameters stop the
    run at line 33, also without warmup epochs; a negative learning rate
    stops it at line 69, after the warmup; a fraction that is a NaN or an
    infinity stops it at line 73. *)
Example optimizer_and_fraction_failures :
  train toy toy_loader (with_rates (q (-1) 10) (q 1 10) 0 toy_cfg)
  = Raise (Failure ValueError 33)
  /\ train toy toy_loader (with_rates (q 1 10) (q 1 10) (q (-1) 10) toy_cfg)
     = Raise (Failure ValueError 33)
  /\ train toy toy_loader
       (with_epochs 0 1 1 (with_rates (q (-1) 10) (q 1 10) 0 toy_cfg))
     = Raise (Failure ValueError 33)
  /\ train (with_create_model (fun _ => []) toy) toy_loader toy_cfg
     = Raise (Failure ValueError 33)
  /\ train toy toy_loader (with_rates (q 1 10) (q (-1) 10) 0 toy_cfg)
     = Raise (Failure ValueError 69)
  /\ train toy toy_loader (with_fraction (Some NaN) toy_cfg)
     = Raise (Failure ValueError 73)
  /\ train toy toy_loader (with_fraction (Some (Infinity false)) toy_cfg)
     = Raise (Failure OverflowError 73).
Proof. repeat split; vm_compute; reflexivity. Qed.

(** ** Further properties of [train] *)

Section Further.

Context (T : Torch) (train_loader : DataLoader (example T)) (cfg : Config).

(** The batch loop with its [break] is a plain fold over a prefix of the
    batches. *)
Lemma inner_batches_loop_fold mu ib (bs : list (list (example T))) idx lo :
  inner_batches_loop T cfg mu ib bs idx lo
  = foldl (fun lo b => inner_batch T cfg mu b lo) lo
          (take (batches_processed (ib - Z.of_nat idx) (length bs)) bs).
Proof.
  revert idx lo. induction bs as [|b bs IH]; intros idx lo.
  - by rewrite take_nil.
  - cbn [inner_batches_loop]. case_decide as Hge.
    + replace (batches_processed _ _) with 1%nat
        by (unfold batches_processed; cbn [length]; lia).
      simpl. by rewrite ?take_0.
    + rewrite IH.
      replace (batches_processed (ib - Z.of_nat idx) (length (b :: bs)))
        with (S (batches_processed (ib - Z.of_nat (S idx)) (length bs)))
        by (unfold batches_processed; cbn [length]; lia).
      done.
Qed.

(** X1. Whatever the value of [inner_batches], a sub-epoch trains on
    exactly the first [min(len(batches), max(1, inner_batches))] batches of
    the iteration it starts over the loader, in order: the locals at the end
    of its batch loop are those of folding the inner step over that prefix,
    [examples_seen] is the number of examples in the prefix, and the batches
    after the prefix have no influence (an iteration of the same length that
    agrees on the prefix gives the same locals). *)
Theorem sub_epoch_uses_prefix (mu : tensor) (inner_batches : Z) (s : State)
    (d : list StateDict) :
  let batches := loader_iter train_loader (passes s) in
  let n := batches_processed inner_batches (length batches) in
  let lo0 := {| st := (iter_loader T train_loader (time_time T s).2).2;
                train_loss := 0; examples_seen := 0%nat; model_state_dicts := d |} in
  let lo := sub_epoch_locals T train_loader cfg mu inner_batches s d in
  lo = foldl (fun lo b => inner_batch T cfg mu b lo) lo0 (take n batches)
  /\ examples_seen lo = length (concat (take n batches))
  /\ forall batches' : list (list (example T)),
       length batches' = length batches ->
       take n batches' = take n batches ->
       inner_batches_loop T cfg mu inner_batches batches' 0 lo0 = lo.
Proof.
  intros batches n lo0 lo.
  assert (Hlo : lo = foldl (fun lo b => inner_batch T cfg mu b lo) lo0 (take n batches)).
  { unfold lo, sub_epoch_locals. rewrite inner_batches_loop_fold.
    by replace (inner_batches - Z.of_nat 0)%Z with inner_batches by lia. }
  split; [done|]. split.
  - unfold lo, sub_epoch_locals. rewrite inner_batches_loop_seen. simpl.
    by replace (inner_batches - Z.of_nat 0)%Z with inner_batches by lia.
  - intros batches' Hlen Htake.
    rewrite inner_batches_loop_fold, Hlo.
    replace (inner_batches - Z.of_nat 0)%Z with inner_batches by lia.
    rewrite Hlen. fold batches. fold n. by rewrite Htake.
Qed.

Lemma foldl_inner_batch_last mu (bs : list (list (example T))) lo :
  bs <> [] ->
  let lo' := foldl (fun lo b => inner_batch T cfg mu b lo) lo bs in
  last (model_state_dicts lo') = Some (state_dict (model (st lo'))).
Proof.
  revert lo. induction bs as [|b bs IH]; intros lo Hne; [done|].
  destruct bs as [|b' bs].
  - simpl. apply last_snoc.
  - apply (IH (inner_batch T cfg mu b lo)). done.
Qed.

Lemma state_dict_zero_grad m : state_dict (zero_grad m) = state_dict m.
Proof. unfold state_dict. by rewrite named_parameters_zero_grad. Qed.

(** A sub-epoch that returns leaves the working model's state as the last
    candidate. *)
Lemma sub_epoch_body_last epoch mu ib sub s d s' d' :
  sub_epoch_body T train_loader cfg epoch mu ib sub (s, d) = Ok (s', d') ->
  last d' = Some (state_dict (model s')).
Proof.
  intros H. apply sub_epoch_body_inv in H as (-> & _ & -> & Hseen & _).
  rewrite state_dict_zero_grad. revert Hseen.
  unfold sub_epoch_locals. rewrite inner_batches_loop_seen, inner_batches_loop_fold.
  cbn [examples_seen]. intros Hseen.
  apply foldl_inner_batch_last. intros Hnil. rewrite Hnil in Hseen. by apply Hseen.
Qed.

Lemma named_parameters_of_state_dict (m1 m2 : Module) :
  names m1 = names m2 -> NoDup (names m1) ->
  state_dict m1 = state_dict m2 -> named_parameters m1 = named_parameters m2.
Proof.
  rewrite !names_named. unfold state_dict.
  generalize (named_parameters m1) (named_parameters m2). clear m1 m2.
  intros l1 l2 Hn Hnd Hsd. apply list_eq. intros i.
  assert (Hfst : l1.*1 !! i = l2.*1 !! i) by (by rewrite Hn).
  rewrite !list_lookup_fmap in Hfst.
  destruct (l1 !! i) as [[k v1]|] eqn:H1, (l2 !! i) as [[k' v2]|] eqn:H2;
    try done.
  simpl in Hfst. injection Hfst as <-.
  assert (M1 : (list_to_map l1 : gmap string tensor) !! k = Some v1).
  { apply elem_of_list_to_map_1; [done|]. by eapply list_elem_of_lookup_2. }
  assert (M2 : (list_to_map l2 : gmap string tensor) !! k = Some v2).
  { apply elem_of_list_to_map_1; [by rewrite <- Hn|]. by eapply list_elem_of_lookup_2. }
  rewrite Hsd in M1. congruence.
Qed.

(** X2. With [choose_random_iterate] false, an outer epoch that returns
    leaves the target model holding exactly the state of the working model
    at the end of the inner loop: the last candidate is the copy taken after
    the last inner step, and nothing changes the working model's values
    afterwards.  When the two modules have the same parameter names, all
    distinct, their parameter lists are equal value for value, so the next
    ResetWorkingModel changes no value of the working model. *)
Theorem last_iterate_is_working_model (epoch : Z) (s s' : State) :
  choose_random_iterate cfg = false ->
  outer_epoch_body T train_loader cfg epoch s = Ok s' ->
  state_dict (target_model s') = state_dict (model s')
  /\ (names (target_model s') = names (model s') ->
      NoDup (names (model s')) ->
      named_parameters (target_model s') = named_parameters (model s')).
Proof.
  intros Hflag H.
  assert (Hsd : state_dict (target_model s') = state_dict (model s')).
  { apply outer_epoch_body_inv in H as (mu & s1 & s2 & dicts & _ & Hrun & Hsel).
    apply select_next_snapshot_inv in Hsel as (Hlast & -> & _).
    rewrite Hflag in Hlast.
    apply (run_inner_loop_inv T train_loader cfg
             (fun a => a.2 = [] \/ last a.2 = Some (state_dict (model a.1)))) in Hrun.
    - destruct Hrun as [Hnil|Hl]; simpl in *; [by rewrite Hnil in Hlast|].
      congruence.
    - intros ib sub [sa da] [sb db] _ Hsub. right.
      by apply sub_epoch_body_last in Hsub.
    - by left. }
  split; [done|]. intros Hn Hnd.
  apply named_parameters_of_state_dict; [done|by rewrite Hn|done].
Qed.

Lemma cat_parameters_sgd_step lr wd m :
  map length (grads m) = shapes m ->
  cat (parameters (sgd_step lr wd m))
  = vsub (cat (parameters m))
         (vscale lr (vadd (cat (grads m)) (vscale wd (cat (parameters m))))).
Proof.
  unfold shapes, parameters, grads, sgd_step, cat.
  induction m as [|np m IH]; intros H; simpl in *; [done|].
  injection H as Hg H. rewrite (IH H). clear IH.
  unfold vsub, vscale, vadd. rewrite !map_app.
  rewrite (zip_with_app Qcplus) by (by rewrite length_map).
  rewrite map_app.
  rewrite (zip_with_app Qcminus); [done|].
  rewrite length_map, length_zip_with, length_map. lia.
Qed.

Lemma parameters_backward n m : parameters (backward T n m) = parameters m.
Proof. apply parameters_backward_from. Qed.

Lemma shape_grads_backward_aux (b : list (example T)) (c : tensor) (m : Module) :
  grad_shaped T ->
  (length (cat (parameters m)) <= length c)%nat ->
  map length (grads (backward T (Sub T (LossOf T b) (Dot T (Detached T c) (Weights T)))
                       (zero_grad m)))
  = shapes m.
Proof.
  intros Hsh Hc. rewrite grads_backward_aux_params by done.
  assert (Hl : map length (loss_grad T (parameters m) b) = shapes m) by apply Hsh.
  rewrite shape_gadd; [done|]. rewrite Hl. unfold shapes.
  rewrite shape_split_sizes; [done|]. by rewrite length_vscale.
Qed.

(** X3. The inner step is the SVRG update: after one inner batch the
    working model's flattened parameters are
    [w - lr * ((grad L_w(b) - (grad L_target(b) - mu)) + weight_decay * w)],
    where [w] are its parameters before the step, the two gradients are
    those of the batch loss at the working and at the target parameters, and
    [mu] has one entry per parameter. *)
Theorem svrg_inner_update (mu : tensor) (b : list (example T)) (lo : Locals) :
  grad_shaped T ->
  shapes (target_model (st lo)) = shapes (model (st lo)) ->
  length mu = length (cat (parameters (model (st lo)))) ->
  let w := cat (parameters (model (st lo))) in
  let g_working := cat (loss_grad T (parameters (model (st lo))) b) in
  let g_snapshot := cat (loss_grad T (parameters (target_model (st lo))) b) in
  cat (parameters (model (st (inner_batch T cfg mu b lo))))
  = vsub w (vscale (learning_rate cfg)
              (vadd (vsub g_working (vsub g_snapshot mu))
                    (vscale (weight_decay cfg) w))).
Proof.
  intros Hsh Hst Hmu w g_working g_snapshot.
  unfold inner_batch. cbn [st model set_model set_target_model].
  rewrite grads_backward_loss by done. fold g_snapshot. unfold aux_loss_of.
  assert (Hc : (length (cat (parameters (zero_grad (model (st lo)))))
                <= length (vsub g_snapshot mu))%nat).
  { rewrite parameters_zero_grad, length_vsub. unfold g_snapshot.
    rewrite (length_cat_shape (loss_grad T _ b) (parameters (model (st lo)))).
    - lia.
    - fold (shapes (model (st lo))). rewrite <- Hst. apply Hsh. }
  rewrite parameters_zero_grad in Hc.
  rewrite cat_parameters_sgd_step.
  - rewrite parameters_backward, parameters_zero_grad.
    by rewrite grads_backward_aux.
  - rewrite shape_grads_backward_aux by done.
    by rewrite shapes_backward, shapes_zero_grad.
Qed.

Lemma result_bind_ext {A B} (r : result A) (k k' : A -> result B) :
  (forall a, k a = k' a) -> r ≫= k = r ≫= k'.
Proof. intros H. destruct r as [a|]; [apply H | done]. Qed.

Lemma for_each_ext {A S} (f g : A -> S -> result S) xs s :
  (forall x s1, f x s1 = g x s1) -> for_each f xs s = for_each g xs s.
Proof.
  intros Hfg. revert s. induction xs as [|x xs IH]; intros s; simpl; [done|].
  rewrite Hfg. destruct (g x s); simpl; [apply IH|done].
Qed.

Section Streams.

Context (c : nat -> Qc) (r : nat -> nat -> nat).

(** The two clocks stop at the same readings (in particular: neither ever
    stops). *)
Hypothesis clocks_agree : forall t, c (S t) = c t <-> clock T (S t) = clock T t.

(** The random source is the same, or it is not used. *)
Hypothesis draws_agree :
  choose_random_iterate cfg = false \/ forall k n, r k n = randbelow T k n.

Lemma py_div_discard {A} line a b b' (k : result A) :
  (b = 0 <-> b' = 0) ->
  (py_div line a b ≫= fun _ => k) = (py_div line a b' ≫= fun _ => k).
Proof.
  intros Hb. unfold py_div.
  destruct (decide (b = 0)) as [H0|H0], (decide (b' = 0)) as [H0'|H0']; try done.
  - by apply Hb in H0.
  - by apply Hb in H0'.
Qed.

Lemma Qcminus_zero_iff (a b : Qc) : a - b = 0 <-> a = b.
Proof.
  split; [|intros ->; ring].
  intros H. destruct (decide (a = b)) as [|Hne]; [done|].
  by apply Qcminus_nonzero in Hne.
Qed.

Lemma elapsed_agree t :
  c (S t) - c t = 0 <-> clock T (S t) - clock T t = 0.
Proof. rewrite !Qcminus_zero_iff. apply clocks_agree. Qed.

Lemma warmup_epoch_body_with_streams e s :
  warmup_epoch_body (with_streams c r T) train_loader cfg e s
  = warmup_epoch_body T train_loader cfg e s.
Proof.
  rewrite !warmup_epoch_body_unfold. cbv zeta.
  change (foldl (fun acc b => warmup_batch (with_streams c r T) cfg b acc)
            (target_model s, 0) (loader_iter train_loader (passes s)))
    with (foldl (fun acc b => warmup_batch T cfg b acc)
            (target_model s, 0) (loader_iter train_loader (passes s))).
  destruct (py_div 46 _ _) as [avg|]; [|done]. cbn [mbind result_bind].
  apply py_div_discard, elapsed_agree.
Qed.

Lemma inner_batches_loop_with_streams mu ib (bs : list (list (example T))) idx lo :
  inner_batches_loop (with_streams c r T) cfg mu ib bs idx lo
  = inner_batches_loop T cfg mu ib bs idx lo.
Proof.
  revert idx lo. induction bs as [|b bs IH]; intros idx lo; [done|].
  cbn [inner_batches_loop].
  change (inner_batch (with_streams c r T) cfg mu b lo) with (inner_batch T cfg mu b lo).
  case_decide; [done|]. apply IH.
Qed.

Lemma sub_epoch_body_with_streams e mu ib sub a :
  sub_epoch_body (with_streams c r T) train_loader cfg e mu ib sub a
  = sub_epoch_body T train_loader cfg e mu ib sub a.
Proof.
  destruct a as [s d]. rewrite !sub_epoch_body_unfold. cbv zeta.
  assert (Hlo : sub_epoch_locals (with_streams c r T) train_loader cfg mu ib s d
                = sub_epoch_locals T train_loader cfg mu ib s d)
    by apply inner_batches_loop_with_streams.
  rewrite Hlo.
  destruct (py_div 114 _ _) as [avg|]; [|done]. cbn [mbind result_bind].
  destruct (sub_epoch_locals_streams T train_loader cfg mu ib s d) as (_ & _ & -> & _).
  apply py_div_discard, elapsed_agree.
Qed.

Lemma run_inner_loop_with_streams e mu s :
  run_inner_loop (with_streams c r T) train_loader cfg e mu s
  = run_inner_loop T train_loader cfg e mu s.
Proof.
  unfold run_inner_loop. apply result_bind_ext. intros _.
  change (inner_batches_of (with_streams c r T) train_loader cfg)
    with (inner_batches_of T train_loader cfg).
  apply result_bind_ext. intros ib. apply for_each_ext.
  intros. apply sub_epoch_body_with_streams.
Qed.

Lemma outer_epoch_body_with_streams e s :
  outer_epoch_body (with_streams c r T) train_loader cfg e s
  = outer_epoch_body T train_loader cfg e s.
Proof.
  unfold outer_epoch_body.
  change (reset_working_model (with_streams c r T) train_loader s)
    with (reset_working_model T train_loader s).
  destruct (reset_working_model T train_loader s) as [[mu s1]|]; [|reflexivity].
  cbn [mbind result_bind]. rewrite run_inner_loop_with_streams.
  destruct (run_inner_loop T train_loader cfg e mu s1) as [[s2 dicts]|]; [|reflexivity].
  cbn [mbind result_bind]. unfold select_next_snapshot.
  destruct (choose_random_iterate cfg) eqn:Hflag; [|reflexivity].
  destruct draws_agree as [|Hr]; [done|].
  unfold random_choice. destruct dicts as [|d0 ds]; [reflexivity|].
  cbn [randbelow with_streams]. by rewrite Hr.
Qed.

Lemma train_with_streams :
  train (with_streams c r T) train_loader cfg = train T train_loader cfg.
Proof.
  unfold train, warmup, outer_loop.
  change (initial_state (with_streams c r T)) with (initial_state T).
  rewrite (for_each_ext (warmup_epoch_body (with_streams c r T) train_loader cfg)
             (warmup_epoch_body T train_loader cfg))
    by apply warmup_epoch_body_with_streams.
  destruct (for_each _ _ _) as [sw|]; [|reflexivity].
  cbn [mbind result_bind].
  by rewrite (for_each_ext (outer_epoch_body (with_streams c r T) train_loader cfg)
                (outer_epoch_body T train_loader cfg))
    by apply outer_epoch_body_with_streams.
Qed.

End Streams.

(** X5. With [choose_random_iterate] false, [train] never consults the
    random module: replacing the random source by any other leaves the
    result of [train] (the metrics, or the exception) unchanged. *)
Theorem train_ignores_random_source (r : nat -> nat -> nat) :
  choose_random_iterate cfg = false ->
  train (with_randbelow r T) train_loader cfg = train T train_loader cfg.
Proof.
  intros Hflag. apply (train_with_streams (clock T) r); [done|by left].
Qed.

(** X6. Timing is diagnostic only: for two clocks that both advance between
    consecutive readings, [train] gives the same result (the same metrics,
    or the same exception); the elapsed time enters no record and no
    decision. *)
Theorem train_ignores_advancing_clock (c : nat -> Qc) :
  (forall t, clock T (S t) <> clock T t) ->
  (forall t, c (S t) <> c t) ->
  train (with_clock c T) train_loader cfg = train T train_loader cfg.
Proof.
  intros HT Hc. apply (train_with_streams c (randbelow T)); [|by right].
  intros t. split; intros H; [by apply Hc in H|by apply HT in H].
Qed.

Lemma py_div_by_zero line a b : b = 0 -> py_div line a b = Raise (Failure ZeroDivisionError line).
Proof. intros ->. unfold py_div. by rewrite decide_True. Qed.

(** X7. A clock that does not advance stops the run: when the two readings
    of an epoch coincide, the throughput division raises
    [ZeroDivisionError], on line 50 in a warmup epoch over a non-empty
    dataset and on line 118 in an inner sub-epoch that has seen an example;
    so with a non-empty dataset, at least one warmup epoch, a warmup
    optimizer that can be built (warmup rate and weight decay not negative,
    a model with a parameter) and the first two readings equal, [train]
    raises at line 50. *)
Theorem stopped_clock_raises :
  dataset train_loader <> [] ->
  (forall e s,
      clock T (S (ticks s)) = clock T (ticks s) ->
      warmup_epoch_body T train_loader cfg e s = Raise (Failure ZeroDivisionError 50))
  /\ (forall e mu ib sub s d,
        clock T (S (ticks s)) = clock T (ticks s) ->
        examples_seen (sub_epoch_locals T train_loader cfg mu ib s d) <> 0%nat ->
        sub_epoch_body T train_loader cfg e mu ib sub (s, d)
        = Raise (Failure ZeroDivisionError 118))
  /\ ((1 <= num_warmup_epochs cfg)%Z ->
      0 <= warmup_learning_rate cfg -> 0 <= weight_decay cfg ->
      create_model T 1 <> [] ->
      clock T 1 = clock T 0 ->
      train T train_loader cfg = Raise (Failure ZeroDivisionError 50)).
Proof.
  intros Hds.
  assert (Hw : forall e s,
      clock T (S (ticks s)) = clock T (ticks s) ->
      warmup_epoch_body T train_loader cfg e s = Raise (Failure ZeroDivisionError 50)).
  { intros e s Hclock. rewrite warmup_epoch_body_unfold. cbv zeta.
    rewrite (py_div_returns 46)
      by (apply of_nat_nonzero; by destruct (dataset train_loader)).
    cbn [mbind result_bind].
    rewrite (py_div_by_zero 50) by (rewrite Hclock; ring). done. }
  split; [done|]. split.
  - intros e mu ib sub s d Hclock Hseen. rewrite sub_epoch_body_unfold. cbv zeta.
    rewrite (py_div_returns 114) by (by apply of_nat_nonzero).
    cbn [mbind result_bind].
    destruct (sub_epoch_locals_streams T train_loader cfg mu ib s d) as (_ & _ & -> & _).
    rewrite (py_div_by_zero 118) by (rewrite Hclock; ring). done.
  - intros HW Hlr Hwd Hne Hclock.
    rewrite train_after_optimizer by (by apply warmup_optimizer_returns).
    unfold warmup.
    destruct (range1_cons _ HW) as (rest & ->). cbn [for_each].
    by rewrite (Hw 1%Z (initial_state T)).
Qed.

Lemma for_each_outcome {A S} (P : S -> Prop) (Q : failure -> Prop)
    (body : A -> S -> result S) xs s :
  (forall x s1, P s1 -> outcome P Q (body x s1)) ->
  P s -> outcome P Q (for_each body xs s).
Proof.
  intros Hbody. revert s. induction xs as [|x xs IH]; intros s HP; simpl; [done|].
  specialize (Hbody x s HP). destruct (body x s) as [s1|f]; simpl in *; [by apply IH|done].
Qed.

Lemma py_div_outcome {A} line a b (k : Qc -> result A) (P : A -> Prop) Q :
  Q (Failure ZeroDivisionError line) ->
  (forall x, outcome P Q (k x)) ->
  outcome P Q (py_div line a b ≫= k).
Proof.
  intros HQ Hk. unfold py_div. case_decide; simpl; [done|apply Hk].
Qed.

Ltac expected := unfold expected_failures; apply list_elem_of_In; simpl; tauto.

Lemma warmup_epoch_body_outcome N Sh e s :
  grad_shaped T -> state_inv N Sh s ->
  outcome (state_inv N Sh) (fun f => f ∈ expected_failures)
          (warmup_epoch_body T train_loader cfg e s).
Proof.
  intros Hsh (I1 & I2 & I3 & I4). rewrite warmup_epoch_body_unfold. cbv zeta.
  apply py_div_outcome; [expected|]. intros avg.
  apply py_div_outcome; [expected|]. intros ex.
  unfold outcome. cbn [mret result_ret].
  destruct (warmup_fold_structure T cfg (loader_iter train_loader (passes s))
              (target_model s, 0) Hsh) as [Hn Hs].
  unfold state_inv. cbn [model target_model calculate_full_gradient_norm
    calculate_full_gradient fst snd].
  by rewrite names_zero_grad, shapes_zero_grad, Hn, Hs.
Qed.

Lemma sub_epoch_body_outcome N Sh e mu ib sub a :
  grad_shaped T -> length mu = sum_list Sh ->
  state_inv N Sh a.1 -> Forall (loadable N Sh) a.2 ->
  outcome (fun a' => state_inv N Sh a'.1 /\ Forall (loadable N Sh) a'.2)
          (fun f => f ∈ expected_failures)
          (sub_epoch_body T train_loader cfg e mu ib sub a).
Proof.
  destruct a as [s d]. intros Hsh Hmu Hs Hd. rewrite sub_epoch_body_unfold. cbv zeta.
  set (lo := sub_epoch_locals T train_loader cfg mu ib s d).
  assert (Hinv : state_inv N Sh (st lo) /\ Forall (loadable N Sh) (model_state_dicts lo)).
  { unfold lo, sub_epoch_locals. by apply inner_batches_loop_inv. }
  destruct Hinv as [(J1 & J2 & J3 & J4) Hd'].
  apply py_div_outcome; [expected|]. intros avg.
  apply py_div_outcome; [expected|]. intros ex.
  unfold outcome. cbn [mret result_ret fst snd].
  split; [|done]. unfold state_inv, sub_epoch_finish.
  cbn [model target_model calculate_full_gradient_norm calculate_full_gradient fst snd].
  by rewrite names_zero_grad, shapes_zero_grad.
Qed.

Lemma select_next_snapshot_outcome N Sh dicts s :
  NoDup N -> state_inv N Sh s -> Forall (loadable N Sh) dicts ->
  outcome (state_inv N Sh) (fun f => f ∈ expected_failures)
          (select_next_snapshot T cfg dicts s).
Proof.
  intros Hnd (I1 & I2 & I3 & I4) Hd.
  assert (Hload : forall x s0, x ∈ dicts ->
            target_model s0 = target_model s -> model s0 = model s ->
            outcome (state_inv N Sh) (fun f => f ∈ expected_failures)
              (target ← load_state_dict 131 (target_model s0) x;
               mret (set_target_model target s0))).
  { intros x s0 Hx Ht Hm. rewrite Forall_forall in Hd.
    destruct (Hd x Hx) as (m & -> & Hmn & Hms).
    destruct (load_state_dict_same_structure 131 (target_model s0) m)
      as (t & Hok & Hnp & _).
    { rewrite Ht. split; congruence. }
    { by rewrite Hmn. }
    unfold deepcopy in Hok. rewrite Hok. simpl.
    unfold state_inv, set_target_model. cbn [model target_model].
    rewrite Hm. split; [done|]. split; [done|].
    unfold shapes. rewrite (names_named t), (parameters_named t), Hnp.
    by rewrite <- names_named, <- parameters_named. }
  unfold select_next_snapshot. destruct (choose_random_iterate cfg).
  - unfold random_choice. destruct dicts as [|d0 ds] eqn:Hdicts; [simpl; expected|].
    rewrite <- Hdicts in *.
    destruct (dicts !! _) as [x|] eqn:Hx; [|simpl; expected].
    cbn [mbind result_bind]. apply Hload; [|done..]. by eapply list_elem_of_lookup_2.
  - unfold last_item. destruct (last dicts) as [x|] eqn:Hlast; [|simpl; expected].
    cbn [mbind result_bind mret result_ret].
    apply Hload; [|done..]. by apply last_Some_elem_of.
Qed.

Lemma outer_epoch_body_outcome N Sh e s :
  grad_shaped T -> NoDup N -> state_inv N Sh s ->
  outcome (state_inv N Sh) (fun f => f ∈ expected_failures)
          (outer_epoch_body T train_loader cfg e s).
Proof.
  intros Hsh Hnd Hs. unfold outer_epoch_body.
  destruct (reset_working_model_returns T train_loader N Sh s Hsh Hnd Hs)
    as (mu & s1 & -> & Hs1 & Hmu).
  cbn [mbind result_bind]. unfold run_inner_loop.
  destruct (torch_optim_SGD 69 _ _ _) as [[]|f] eqn:Hsgd.
  2:{ apply torch_optim_SGD_raises in Hsgd as ->. simpl. expected. }
  cbn [mbind result_bind].
  destruct (inner_batches_of T train_loader cfg) as [ib|f] eqn:Hib.
  2:{ apply inner_batches_of_raises in Hib as [-> | ->]; simpl; expected. }
  cbn [mbind result_bind].
  pose proof (for_each_outcome
    (fun a => state_inv N Sh a.1 /\ Forall (loadable N Sh) a.2)
    (fun f => f ∈ expected_failures)
    (sub_epoch_body T train_loader cfg e mu ib)
    (range1 (num_inner_epochs cfg)) (s1, [])) as Hrun.
  destruct (for_each _ _ _) as [[s2 dicts]|f]; simpl in *.
  - destruct Hrun as [Hs2 Hd].
    + intros sub a [Ha Hda]. by apply sub_epoch_body_outcome.
    + by split.
    + by apply select_next_snapshot_outcome.
  - apply Hrun; [|by split].
    intros sub a [Ha Hda]. by apply sub_epoch_body_outcome.
Qed.

(** X8. For two modules built by the same constructor (same parameter
    names, all distinct, same sizes) and a gradient engine that respects the
    parameter sizes, [load_state_dict] never fails inside [train]: the only
    exceptions [train] can raise are [ValueError] from the optimizer
    constructors of lines 33 and 69, [ValueError] and [OverflowError] from
    [int] on line 73, [ZeroDivisionError] at the divisions of lines 46, 50,
    114 and 118, and [IndexError] at the selection of lines 128 and 130. *)
Theorem train_raises_only_expected (f : failure) :
  grad_shaped T ->
  same_structure (create_model T 0) (create_model T 1) ->
  NoDup (names (create_model T 1)) ->
  train T train_loader cfg = Raise f ->
  f ∈ expected_failures.
Proof.
  intros Hsh [Hn Hs] Hnd.
  pose (N := names (create_model T 1)). pose (Sh := shapes (create_model T 1)).
  assert (H0 : state_inv N Sh (initial_state T)) by (by repeat split).
  unfold train. cbv zeta.
  destruct (warmup_optimizer cfg (initial_state T)) as [[]|fo] eqn:Hopt.
  2:{ apply torch_optim_SGD_raises in Hopt as ->. intros [= <-]. expected. }
  cbn [mbind result_bind]. unfold warmup, outer_loop.
  pose proof (for_each_outcome (state_inv N Sh) (fun f => f ∈ expected_failures)
    (warmup_epoch_body T train_loader cfg) (range1 (num_warmup_epochs cfg))
    (initial_state T)) as Hw.
  destruct (for_each (warmup_epoch_body T train_loader cfg) _ _) as [sw|fw];
    simpl in *.
  - assert (Hsw : state_inv N Sh sw).
    { apply Hw; [|done]. intros e s1 Hs1. by apply warmup_epoch_body_outcome. }
    pose proof (for_each_outcome (state_inv N Sh) (fun f => f ∈ expected_failures)
      (outer_epoch_body T train_loader cfg) (range1 (num_outer_epochs cfg)) sw) as Ho.
    destruct (for_each (outer_epoch_body T train_loader cfg) _ _) as [so|fo];
      simpl in *; [done|].
    intros [= <-]. apply Ho; [|done].
    intros e s1 Hs1. by apply outer_epoch_body_outcome.
  - intros [= <-]. apply Hw; [|done].
    intros e s1 Hs1. by apply warmup_epoch_body_outcome.
Qed.

(** X14. Warmup is plain SGD with weight decay on the target model: one
    warmup batch takes its flattened parameters [w] to
    [w - warmup_learning_rate * (grad L_w(b) + weight_decay * w)] and adds
    [loss * len(b)] to the running loss; and a warmup that returns has
    neither touched the working model nor drawn from the random source. *)
Theorem warmup_is_sgd_on_target (b : list (example T)) (acc : Module * Qc)
    (s s' : State) :
  grad_shaped T ->
  let w := cat (parameters acc.1) in
  cat (parameters (warmup_batch T cfg b acc).1)
  = vsub w (vscale (warmup_learning_rate cfg)
              (vadd (cat (loss_grad T (parameters acc.1) b))
                    (vscale (weight_decay cfg) w)))
  /\ (warmup_batch T cfg b acc).2
     = acc.2 + loss_value T (parameters acc.1) b * of_nat (length b)
  /\ (warmup T train_loader cfg s = Ok s' ->
      model s' = model s /\ draws s' = draws s).
Proof.
  intros Hsh w. split; [|split].
  - unfold warmup_batch. cbn [fst].
    rewrite cat_parameters_sgd_step.
    + by rewrite grads_backward_loss, parameters_backward, parameters_zero_grad.
    + rewrite grads_backward_loss by done.
      rewrite shapes_backward, shapes_zero_grad. apply Hsh.
  - unfold warmup_batch. cbn [snd value item].
    by rewrite parameters_backward, parameters_zero_grad.
  - intros H.
    apply (for_each_inv (fun a => model a = model s /\ draws a = draws s)
             (warmup_epoch_body T train_loader cfg)
             (range1 (num_warmup_epochs cfg)) s s'); [|done|exact H].
    intros e s1 s2 [Hm Hd] He.
    apply warmup_epoch_body_inv in He as (_ & Hm2 & _ & _ & Hd2).
    by rewrite Hm2, Hd2.
Qed.

Lemma zero_grad_named (m m' : Module) :
  named_parameters m' = named_parameters m -> zero_grad m' = zero_grad m.
Proof.
  revert m'. induction m as [|np m IH]; intros [|np' m'] H; try done.
  injection H as Hn Hd H. simpl. by rewrite Hn, Hd, (IH m' H).
Qed.

(** The inner step reads the working model only through its names and
    values: the [.grad] fields are zeroed first. *)
Lemma inner_batch_set_model mu (b : list (example T)) (lo : Locals) (m' : Module) :
  named_parameters m' = named_parameters (model (st lo)) ->
  inner_batch T cfg mu b
    {| st := set_model m' (st lo); train_loss := train_loss lo;
       examples_seen := examples_seen lo; model_state_dicts := model_state_dicts lo |}
  = inner_batch T cfg mu b lo.
Proof.
  intros H. unfold inner_batch. cbn [st set_model model target_model train_loss
    examples_seen model_state_dicts metrics passes ticks draws set_target_model].
  by rewrite (zero_grad_named _ _ H).
Qed.

Lemma sub_epoch_body_set_model epoch mu ib sub s d (m' : Module) :
  named_parameters m' = named_parameters (model s) ->
  sub_epoch_body T train_loader cfg epoch mu ib sub (set_model m' s, d)
  = sub_epoch_body T train_loader cfg epoch mu ib sub (s, d).
Proof.
  intros H. rewrite !sub_epoch_body_unfold. cbv zeta. unfold sub_epoch_locals.
  cbn [set_model passes ticks].
  destruct (loader_iter train_loader (passes s)) as [|b bs].
  - cbn [inner_batches_loop examples_seen]. by rewrite !py_div_zero.
  - cbn [inner_batches_loop].
    pose proof (inner_batch_set_model mu b
      {| st := (iter_loader T train_loader (time_time T s).2).2;
         train_loss := 0; examples_seen := 0%nat; model_state_dicts := d |} m' H) as Hb.
    cbn [st train_loss examples_seen model_state_dicts] in Hb.
    change (iter_loader T train_loader (time_time T (set_model m' s)).2).2
      with (set_model m' (iter_loader T train_loader (time_time T s).2).2).
    by rewrite Hb.
Qed.

Lemma inner_loop_and_selection_set_model epoch mu s (m' : Module) :
  named_parameters m' = named_parameters (model s) ->
  ('(s2, dicts) ← run_inner_loop T train_loader cfg epoch mu (set_model m' s);
   select_next_snapshot T cfg dicts s2)
  = ('(s2, dicts) ← run_inner_loop T train_loader cfg epoch mu s;
     select_next_snapshot T cfg dicts s2).
Proof.
  intros H. unfold run_inner_loop. cbn [set_model model].
  replace (parameters m') with (parameters (model s))
    by (by rewrite !parameters_named, H).
  destruct (torch_optim_SGD 69 _ _ _) as [[]|]; [|done]. cbn [mbind result_bind].
  destruct (inner_batches_of T train_loader cfg) as [ib|]; [|done].
  cbn [mbind result_bind].
  destruct (range1 (num_inner_epochs cfg)) as [|i rest].
  - cbn [for_each mbind result_bind]. unfold select_next_snapshot.
    by destruct (choose_random_iterate cfg).
  - cbn [for_each].
    change {| model := m'; target_model := target_model s; metrics := metrics s;
              passes := passes s; ticks := ticks s; draws := draws s |}
      with (set_model m' s).
    by rewrite sub_epoch_body_set_model.
Qed.

Lemma load_params_set_model line (m m' : Module) (sd : StateDict) :
  names m' = names m -> shapes m' = shapes m ->
  named_parameters <$> load_params line m' sd
  = named_parameters <$> load_params line m sd.
Proof.
  revert m'. induction m as [|np m IH]; intros [|np' m'] Hn Hs; try done.
  injection Hn as Hn1 Hn. injection Hs as Hs1 Hs.
  cbn [load_params]. rewrite Hn1, Hs1.
  destruct (sd !! np.1) as [v|]; [|done].
  case_decide; [|done].
  specialize (IH m' Hn Hs).
  destruct (load_params line m' sd) as [r'|f'], (load_params line m sd) as [r|f];
    simpl in *; try done.
  injection IH as IH. by rewrite IH.
Qed.

Lemma load_state_dict_set_model line (m m' : Module) (sd : StateDict) :
  names m' = names m -> shapes m' = shapes m ->
  named_parameters <$> load_state_dict line m' sd
  = named_parameters <$> load_state_dict line m sd.
Proof.
  intros Hn Hs. unfold load_state_dict. rewrite Hn.
  case_decide; [|done]. by apply load_params_set_model.
Qed.

(** An outer epoch reads of the working model only its parameter names
    and sizes: line 67 overwrites the values, line 81 the gradients. *)
Lemma outer_epoch_body_set_model epoch s (m' : Module) :
  names m' = names (model s) -> shapes m' = shapes (model s) ->
  outer_epoch_body T train_loader cfg epoch (set_model m' s)
  = outer_epoch_body T train_loader cfg epoch s.
Proof.
  intros Hn Hs. unfold outer_epoch_body. rewrite !reset_working_model_unfold.
  cbv zeta. cbn [set_model target_model passes model].
  pose proof (load_state_dict_set_model 67 (model s) m'
    (deepcopy (state_dict (target_model
       (set_target_model
          (calculate_full_gradient T (target_model s) train_loader (passes s)).2
          (iter_loader T train_loader s).2)))) Hn Hs) as Hload.
  change (target_model (set_target_model ?t (iter_loader T train_loader (set_model m' s)).2))
    with t.
  change (target_model (set_target_model ?t (iter_loader T train_loader s).2))
    with t in *.
  destruct (load_state_dict 67 m' _) as [r'|f'], (load_state_dict 67 (model s) _) as [r|f];
    simpl in Hload; try done.
  - injection Hload as Hload. cbn [mbind result_bind mret result_ret].
    apply (inner_loop_and_selection_set_model epoch _
             (set_model r (set_target_model
                (calculate_full_gradient T (target_model s) train_loader (passes s)).2
                (iter_loader T train_loader s).2)) r' Hload).
  - by injection Hload as ->.
Qed.

Lemma warmup_epoch_body_set_model e s (m' : Module) :
  warmup_epoch_body T train_loader cfg e (set_model m' s)
  = set_model m' <$> warmup_epoch_body T train_loader cfg e s.
Proof.
  rewrite !warmup_epoch_body_unfold. cbv zeta. cbn [set_model target_model passes ticks].
  destruct (py_div 46 _ _) as [avg|]; [|done]. cbn [mbind result_bind].
  by destruct (py_div 50 _ _) as [ex|].
Qed.

Lemma for_each_set_model {A} (body : A -> State -> result State) xs s (m' : Module) :
  (forall x s1, body x (set_model m' s1) = set_model m' <$> body x s1) ->
  for_each body xs (set_model m' s) = set_model m' <$> for_each body xs s.
Proof.
  intros Hbody. revert s. induction xs as [|x xs IH]; intros s; [done|].
  cbn [for_each]. rewrite Hbody.
  destruct (body x s) as [s1|]; [|done]. apply IH.
Qed.

Lemma warmup_epoch_body_with_create_model (f : nat -> Module) e s :
  warmup_epoch_body (with_create_model f T) train_loader cfg e s
  = warmup_epoch_body T train_loader cfg e s.
Proof. reflexivity. Qed.

Lemma inner_batches_loop_with_create_model (f : nat -> Module) mu ib
    (bs : list (list (example T))) idx lo :
  inner_batches_loop (with_create_model f T) cfg mu ib bs idx lo
  = inner_batches_loop T cfg mu ib bs idx lo.
Proof.
  revert idx lo. induction bs as [|b bs IH]; intros idx lo; [done|].
  cbn [inner_batches_loop].
  change (inner_batch (with_create_model f T) cfg mu b lo) with (inner_batch T cfg mu b lo).
  case_decide; [done|]. apply IH.
Qed.

Lemma sub_epoch_body_with_create_model (f : nat -> Module) e mu ib sub a :
  sub_epoch_body (with_create_model f T) train_loader cfg e mu ib sub a
  = sub_epoch_body T train_loader cfg e mu ib sub a.
Proof.
  destruct a as [s d]. rewrite !sub_epoch_body_unfold. cbv zeta.
  assert (Hlo : sub_epoch_locals (with_create_model f T) train_loader cfg mu ib s d
                = sub_epoch_locals T train_loader cfg mu ib s d)
    by apply inner_batches_loop_with_create_model.
  rewrite Hlo. reflexivity.
Qed.

Lemma run_inner_loop_with_create_model (f : nat -> Module) e mu s :
  run_inner_loop (with_create_model f T) train_loader cfg e mu s
  = run_inner_loop T train_loader cfg e mu s.
Proof.
  unfold run_inner_loop. apply result_bind_ext. intros _.
  change (inner_batches_of (with_create_model f T) train_loader cfg)
    with (inner_batches_of T train_loader cfg).
  apply result_bind_ext. intros ib. apply for_each_ext.
  intros. apply sub_epoch_body_with_create_model.
Qed.

Lemma outer_epoch_body_with_create_model (f : nat -> Module) e s :
  outer_epoch_body (with_create_model f T) train_loader cfg e s
  = outer_epoch_body T train_loader cfg e s.
Proof.
  unfold outer_epoch_body.
  apply (result_bind_ext (reset_working_model T train_loader s)).
  intros [mu s1]. rewrite run_inner_loop_with_create_model.
  apply result_bind_ext. by intros [s2 dicts].
Qed.

Lemma outer_loop_with_create_model (f : nat -> Module) s :
  outer_loop (with_create_model f T) train_loader cfg s = outer_loop T train_loader cfg s.
Proof.
  unfold outer_loop. apply for_each_ext.
  intros. apply outer_epoch_body_with_create_model.
Qed.

Lemma warmup_with_create_model (f : nat -> Module) s :
  warmup (with_create_model f T) train_loader cfg s = warmup T train_loader cfg s.
Proof.
  unfold warmup. apply for_each_ext.
  intros. apply warmup_epoch_body_with_create_model.
Qed.

Lemma warmup_set_model s (m' : Module) :
  warmup T train_loader cfg (set_model m' s)
  = set_model m' <$> warmup T train_loader cfg s.
Proof.
  unfold warmup. apply for_each_set_model.
  intros. apply warmup_epoch_body_set_model.
Qed.

Lemma warmup_model s s' :
  warmup T train_loader cfg s = Ok s' -> model s' = model s.
Proof.
  intros H.
  apply (for_each_inv (fun a => model a = model s)
           (warmup_epoch_body T train_loader cfg)
           (range1 (num_warmup_epochs cfg)) s s'); [|done|exact H].
  intros e s1 s2 Hm He. apply warmup_epoch_body_inv in He as (_ & Hm2 & _).
  by rewrite Hm2.
Qed.

(** The outer loop reads of the working model only its parameter names
    and sizes. *)
Lemma outer_loop_set_model s (m' : Module) :
  names m' = names (model s) -> shapes m' = shapes (model s) ->
  metrics <$> outer_loop T train_loader cfg (set_model m' s)
  = metrics <$> outer_loop T train_loader cfg s.
Proof.
  intros Hn Hs. unfold outer_loop.
  destruct (range1 (num_outer_epochs cfg)) as [|e rest]; [done|].
  cbn [for_each]. by rewrite outer_epoch_body_set_model.
Qed.

Lemma train_unfold (T0 : Torch) (l : DataLoader (example T0)) (c : Config) :
  train T0 l c
  = (_ ← warmup_optimizer c (initial_state T0);
     s ← warmup T0 l c (initial_state T0); metrics <$> outer_loop T0 l c s).
Proof.
  unfold train. cbv zeta. apply result_bind_ext. intros _.
  apply result_bind_ext. intros s.
  by destruct (outer_loop T0 l c s).
Qed.

(** X15. The initial values of the working model never matter: line 67
    overwrites them with the target model's before anything reads them.
    Two runs whose first [create_model()] results differ only in their
    values and gradients (same names and sizes), with the same second
    result, give the same result of [train]; the optimizers of lines 33 and
    69 see the same parameter lists in both. *)
Theorem train_ignores_working_model_init (f : nat -> Module) :
  f 1%nat = create_model T 1 ->
  names (f 0%nat) = names (create_model T 0) ->
  shapes (f 0%nat) = shapes (create_model T 0) ->
  train (with_create_model f T) train_loader cfg = train T train_loader cfg.
Proof.
  intros H1 Hn Hs. rewrite !train_unfold.
  rewrite warmup_with_create_model.
  assert (Hinit : initial_state (with_create_model f T)
                  = set_model (f 0%nat) (initial_state T)).
  { unfold initial_state, set_model. simpl. by rewrite H1. }
  rewrite Hinit, warmup_set_model.
  change (warmup_optimizer cfg (set_model (f 0%nat) (initial_state T)))
    with (warmup_optimizer cfg (initial_state T)).
  apply result_bind_ext. intros _.
  transitivity (s ← set_model (f 0%nat) <$> warmup T train_loader cfg (initial_state T);
                metrics <$> outer_loop T train_loader cfg s).
  { apply result_bind_ext. intros s. by rewrite outer_loop_with_create_model. }
  destruct (warmup T train_loader cfg (initial_state T)) as [sw|fw] eqn:Hw; [|done].
  cbn [fmap result_fmap mbind result_bind].
  apply warmup_model in Hw.
  apply outer_loop_set_model; by rewrite Hw.
Qed.

End Further.

(** ** [create_mlp] *)

Lemma flat_map_pairs_lookup {A} (f : nat -> list A) (g h : nat -> A) (m k j : nat) :
  (forall i, f i = [g i; h i]) ->
  (j < m)%nat ->
  flat_map f (seq k m) !! (2 * j)%nat = Some (g (k + j)%nat)
  /\ flat_map f (seq k m) !! (2 * j + 1)%nat = Some (h (k + j)%nat).
Proof.
  intros Hf. revert k j. induction m as [|m IH]; intros k j Hj; [lia|].
  simpl seq. cbn [flat_map]. rewrite Hf.
  destruct j as [|j].
  - simpl. by rewrite Nat.add_0_r.
  - replace (2 * S j)%nat with (S (S (2 * j))) by lia.
    replace (S (S (2 * j)) + 1)%nat with (S (S (2 * j + 1))) by lia.
    cbn [app lookup list_lookup].
    destruct (IH (S k) j ltac:(lia)) as [H1 H2].
    replace (k + S j)%nat with (S k + j)%nat by lia.
    split; [exact H1 | exact H2].
Qed.

Lemma length_flat_map_pairs {A} (f : nat -> list A) (m k : nat) :
  (forall i, length (f i) = 2%nat) ->
  length (flat_map f (seq k m)) = (2 * m)%nat.
Proof.
  intros Hf. revert k. induction m as [|m IH]; intros k; [done|].
  simpl seq. cbn [flat_map]. rewrite length_app, Hf, IH. lia.
Qed.

Lemma py_index_Some {A} line (l : list A) i x : l !! i = Some x -> py_index line l i = Ok x.
Proof. unfold py_index. by intros ->. Qed.

Lemma nn_Linear_returns alloc line (a b : Z) :
  linear_ok alloc a b ->
  nn_Linear alloc line a b = Ok (Linear (Z.to_nat a) (Z.to_nat b)).
Proof.
  intros (Ha & Hb & Halloc). unfold nn_Linear, int64.
  rewrite decide_True by lia. rewrite decide_True by lia. by rewrite Halloc.
Qed.

(** [nn.Linear] raises exactly when the sizes are not as [linear_ok]
    wants them, [TypeError] only for a size outside the 64-bit range. *)
Lemma nn_Linear_raises alloc line (a b : Z) f :
  nn_Linear alloc line a b = Raise f ->
  ~ linear_ok alloc a b
  /\ ((f = Failure TypeError line /\ (~ int64 a \/ ~ int64 b))
      \/ f = Failure RuntimeError line).
Proof.
  unfold nn_Linear, linear_ok, int64.
  destruct (decide _) as [Hr|Hr].
  - destruct (decide _) as [Hn|Hn].
    + destruct (alloc _ _) eqn:Halloc; [done|]. intros [= <-].
      split; [|by right]. intros (_ & _ & H). congruence.
    + intros [= <-]. split; [|by right]. intros (? & ? & _). lia.
  - intros [= <-]. split.
    + intros (? & ? & _). apply Hr. lia.
    + left. split; [done|]. apply Decidable.not_and in Hr; [done|].
      unfold Decidable.decidable. lia.
Qed.

Lemma create_mlp_step_lookup alloc (sizes : list Z) (i : nat) (layers : list Layer) a b :
  sizes !! (i - 1)%nat = Some a -> sizes !! i = Some b ->
  create_mlp_step alloc sizes i layers
  = linear ← nn_Linear alloc 140 a b; mret ((layers ++ [linear]) ++ [ReLU]).
Proof.
  intros Ha Hb. unfold create_mlp_step.
  by rewrite (py_index_Some 138 _ _ _ Ha), (py_index_Some 139 _ _ _ Hb).
Qed.

(** The loop of lines 137-141 over the indices [k .. k+m-1]: it appends a
    [Linear] and a [ReLU] per index, or stops at the first pair of sizes
    that [nn.Linear] rejects. *)
Lemma create_mlp_loop alloc (sizes : list Z) (m k : nat) (layers : list Layer) :
  (1 <= k)%nat -> (k + m <= length sizes)%nat ->
  outcome
    (fun ls =>
       ls = layers ++ flat_map (fun i => [Linear (Z.to_nat (default 0%Z (sizes !! (i - 1)%nat)))
                                                 (Z.to_nat (default 0%Z (sizes !! i)));
                                          ReLU]) (seq k m)
       /\ (forall i a b, (k <= i < k + m)%nat ->
             sizes !! (i - 1)%nat = Some a -> sizes !! i = Some b -> linear_ok alloc a b))
    (fun f =>
       ((f = Failure TypeError 140 /\ exists z, z ∈ sizes /\ ~ int64 z)
        \/ f = Failure RuntimeError 140)
       /\ exists i a b, (k <= i < k + m)%nat
            /\ sizes !! (i - 1)%nat = Some a /\ sizes !! i = Some b
            /\ ~ linear_ok alloc a b)
    (for_each (create_mlp_step alloc sizes) (seq k m) layers).
Proof.
  revert k layers. induction m as [|m IH]; intros k layers Hk Hkm.
  - simpl. split; [by rewrite app_nil_r | intros; lia].
  - simpl seq. cbn [for_each].
    destruct (lookup_lt_is_Some_2 sizes (k - 1)) as [a Ha]; [lia|].
    destruct (lookup_lt_is_Some_2 sizes k) as [b Hb]; [lia|].
    rewrite (create_mlp_step_lookup _ _ _ _ _ _ Ha Hb).
    destruct (nn_Linear alloc 140 a b) as [l|f] eqn:Hl.
    + assert (Hok : linear_ok alloc a b).
      { destruct (decide ((0 <= a < 2 ^ 63)%Z /\ (0 <= b < 2 ^ 63)%Z
                          /\ alloc (Z.to_nat a) (Z.to_nat b) = true)) as [H|H]; [done|].
        exfalso. revert Hl. unfold nn_Linear, int64.
        repeat case_decide; try done.
        destruct (alloc _ _) eqn:Halloc; [|done]. intros _. apply H. lia. }
      rewrite (nn_Linear_returns _ _ _ _ Hok) in Hl. injection Hl as <-.
      cbn [mbind result_bind mret result_ret].
      specialize (IH (S k) ((layers ++ [Linear (Z.to_nat a) (Z.to_nat b)]) ++ [ReLU])
                    ltac:(lia) ltac:(lia)).
      destruct (for_each _ _ _) as [ls|f]; simpl in *.
      * destruct IH as [-> Hrange]. split.
        -- rewrite Ha, Hb. simpl. by rewrite <- !app_assoc.
        -- intros i a' b' Hi Ha' Hb'.
           destruct (decide (i = k)) as [->|]; [by simplify_eq|].
           apply (Hrange i a' b'); [lia|done..].
      * destruct IH as (Hf & i & a' & b' & Hi & Hrest). split; [done|].
        exists i, a', b'. split; [lia|done].
    + simpl. apply nn_Linear_raises in Hl as (Hnot & Hf). split.
      * destruct Hf as [[-> [Hz|Hz]] | ->]; [left|left|by right]; (split; [done|]).
        -- exists a. split; [by eapply list_elem_of_lookup_2|done].
        -- exists b. split; [by eapply list_elem_of_lookup_2|done].
      * exists k, a, b. split; [lia|done].
Qed.

Lemma create_mlp_short alloc (sizes : list Z) :
  (length sizes <= 1)%nat -> create_mlp alloc sizes = Ok [].
Proof.
  intros Hlen. unfold create_mlp.
  by replace (length sizes - 1)%nat with 0%nat by lia.
Qed.

Lemma create_mlp_closed_form alloc (sizes : list Z) :
  outcome
    (fun layers =>
       layers = removelast
         (Flatten :: flat_map (fun i => [Linear (Z.to_nat (default 0%Z (sizes !! (i - 1)%nat)))
                                                (Z.to_nat (default 0%Z (sizes !! i)));
                                         ReLU]) (seq 1 (length sizes - 1)))
       /\ (forall i a b, sizes !! i = Some a -> sizes !! S i = Some b ->
             linear_ok alloc a b))
    (fun f =>
       ((f = Failure TypeError 140 /\ exists z, z ∈ sizes /\ ~ int64 z)
        \/ f = Failure RuntimeError 140)
       /\ exists i a b, sizes !! i = Some a /\ sizes !! S i = Some b
            /\ ~ linear_ok alloc a b)
    (create_mlp alloc sizes).
Proof.
  unfold create_mlp.
  destruct (decide (2 <= length sizes)%nat) as [H2|Hshort].
  2:{ replace (length sizes - 1)%nat with 0%nat by lia. simpl. split; [done|].
      intros i a b Ha Hb. apply lookup_lt_Some in Hb. lia. }
  pose proof (create_mlp_loop alloc sizes (length sizes - 1) 1 [Flatten]
                ltac:(lia) ltac:(lia)) as H.
  destruct (for_each _ _ _) as [ls|f]; simpl in *.
  - destruct H as [-> Hrange]. simpl. split; [done|].
    intros i a b Ha Hb.
    apply (Hrange (S i) a b); [|by replace (S i - 1)%nat with i by lia|done].
    apply lookup_lt_Some in Hb. lia.
  - destruct H as (Hf & i & a & b & Hi & Ha & Hb & Hnot). split; [done|].
    exists (i - 1)%nat, a, b. split; [done|]. split; [|done].
    by replace (S (i - 1)) with i by lia.
Qed.

Lemma lookup_total_of_nat (sizes : list nat) (i : nat) :
  Z.to_nat (default 0%Z ((Z.of_nat <$> sizes) !! i)) = sizes !!! i.
Proof.
  rewrite list_lookup_fmap, list_lookup_total_alt.
  destruct (sizes !! i) as [x|]; simpl; [apply Nat2Z.id | done].
Qed.

(** [create_mlp] on sizes that [nn.Linear] accepts, in closed form. *)
Lemma create_mlp_of_nat alloc (sizes : list nat) :
  Forall (fun n => (Z.of_nat n < 2 ^ 63)%Z) sizes ->
  (forall i, (i + 1 < length sizes)%nat ->
     alloc (sizes !!! i) (sizes !!! (i + 1)%nat) = true) ->
  create_mlp alloc (Z.of_nat <$> sizes)
  = Ok (removelast
          (Flatten :: flat_map (fun i => [Linear (sizes !!! (i - 1)%nat) (sizes !!! i); ReLU])
                               (seq 1 (length sizes - 1)))).
Proof.
  intros Hbound Halloc.
  pose proof (create_mlp_closed_form alloc (Z.of_nat <$> sizes)) as H.
  rewrite length_fmap in H.
  destruct (create_mlp _ _) as [layers|f]; unfold outcome in H.
  2:{ destruct H as (_ & i & a & b & Ha & Hb & Hnot). exfalso. apply Hnot.
      rewrite list_lookup_fmap in Ha, Hb.
      destruct (sizes !! i) as [x|] eqn:Hx; [|done].
      destruct (sizes !! S i) as [y|] eqn:Hy; [|done].
      simpl in Ha, Hb. injection Ha as <-. injection Hb as <-.
      rewrite Forall_forall in Hbound.
      pose proof (Hbound x (list_elem_of_lookup_2 _ _ _ Hx)).
      pose proof (Hbound y (list_elem_of_lookup_2 _ _ _ Hy)).
      split; [lia|]. split; [lia|]. rewrite !Nat2Z.id.
      specialize (Halloc i). pose proof (lookup_lt_Some _ _ _ Hy) as Hlt.
      rewrite (list_lookup_total_correct _ _ _ Hx) in Halloc.
      replace (i + 1)%nat with (S i) in Halloc by lia.
      rewrite (list_lookup_total_correct _ _ _ Hy) in Halloc.
      apply Halloc. lia. }
  destruct H as [-> _]. do 3 f_equal. apply flat_map_ext. intros i.
  by rewrite !lookup_total_of_nat.
Qed.

(** X9. For a list of at least two sizes that [nn.Linear] accepts (not
    negative, below [2^63], and such that every layer can be allocated)
    [create_mlp] returns [2 * (len - 1)] layers: a [Flatten], then for
    every consecutive pair of sizes a [Linear] from the one to the other,
    with a [ReLU] between two [Linear] layers and none after the last. *)
Theorem create_mlp_layout (alloc : nat -> nat -> bool) (sizes : list nat) :
  (2 <= length sizes)%nat ->
  Forall (fun n => (Z.of_nat n < 2 ^ 63)%Z) sizes ->
  (forall i, (i + 1 < length sizes)%nat ->
     alloc (sizes !!! i) (sizes !!! (i + 1)%nat) = true) ->
  exists layers,
    create_mlp alloc (Z.of_nat <$> sizes) = Ok layers
    /\ length layers = (2 * (length sizes - 1))%nat
    /\ layers !! 0%nat = Some Flatten
    /\ (forall i, (i + 1 < length sizes)%nat ->
          layers !! (2 * i + 1)%nat = Some (Linear (sizes !!! i) (sizes !!! (i + 1)%nat)))
    /\ (forall i, (i + 2 < length sizes)%nat -> layers !! (2 * i + 2)%nat = Some ReLU).
Proof.
  intros Hlen Hbound Halloc.
  rewrite (create_mlp_of_nat alloc sizes Hbound Halloc).
  eexists. split; [done|].
  match goal with |- context [flat_map ?f ?l] => set (body := flat_map f l) end.
  assert (Hbody : length body = (2 * (length sizes - 1))%nat)
    by (by apply length_flat_map_pairs).
  assert (Hpairs : forall j, (j + 1 < length sizes)%nat ->
            body !! (2 * j)%nat = Some (Linear (sizes !!! j) (sizes !!! (j + 1)%nat))
            /\ body !! (2 * j + 1)%nat = Some ReLU).
  { intros j Hj.
    destruct (flat_map_pairs_lookup
                (fun i => [Linear (sizes !!! (i - 1)%nat) (sizes !!! i); ReLU])
                (fun i => Linear (sizes !!! (i - 1)%nat) (sizes !!! i))
                (fun _ => ReLU) (length sizes - 1) 1 j ltac:(done) ltac:(lia))
      as [H1 H2].
    split; [|exact H2]. unfold body. rewrite H1.
    replace (1 + j - 1)%nat with j by lia. by replace (1 + j)%nat with (j + 1)%nat by lia. }
  assert (Hne : body <> []) by (intros E; rewrite E in Hbody; simpl in Hbody; lia).
  change (Flatten :: body) with ([Flatten] ++ body).
  rewrite removelast_app by done. rewrite removelast_firstn_len.
  cbn [app]. split; [|split; [done|split]].
  - cbn [length]. rewrite length_take, Hbody. lia.
  - intros i Hi. replace (2 * i + 1)%nat with (S (2 * i)) by lia.
    rewrite lookup_cons.
    rewrite lookup_take_lt by (rewrite Hbody; lia). by destruct (Hpairs i Hi) as [-> _].
  - intros i Hi. replace (2 * i + 2)%nat with (S (2 * i + 1)) by lia.
    rewrite lookup_cons.
    rewrite lookup_take_lt by (rewrite Hbody; lia). by destruct (Hpairs i ltac:(lia)) as [_ ->].
Qed.

(** X10. The edge cases of [create_mlp]. With fewer than two sizes it
    returns the empty list of layers: the loop adds nothing and [pop]
    removes the [Flatten]. It never raises [IndexError]: what it raises
    comes from [nn.Linear] on line 140, a [TypeError] only when some size
    does not fit a 64-bit integer, a [RuntimeError] otherwise. With at least
    two sizes it returns exactly when [nn.Linear] accepts every pair of
    consecutive sizes: both at least 0 and below [2^63], and the layer can
    be allocated. *)
Theorem create_mlp_edge_cases (alloc : nat -> nat -> bool) (sizes : list Z) :
  ((length sizes <= 1)%nat -> create_mlp alloc sizes = Ok [])
  /\ (forall f, create_mlp alloc sizes = Raise f ->
        (f = Failure TypeError 140 /\ exists z, z ∈ sizes /\ ~ int64 z)
        \/ f = Failure RuntimeError 140)
  /\ (is_ok (create_mlp alloc sizes) = true
      <-> forall i a b, sizes !! i = Some a -> sizes !! S i = Some b ->
            linear_ok alloc a b).
Proof.
  split; [apply create_mlp_short|].
  pose proof (create_mlp_closed_form alloc sizes) as H.
  destruct (create_mlp alloc sizes) as [layers|f]; simpl in H.
  - destruct H as [_ Hok]. split; [done|]. done.
  - destruct H as (Hf & i & a & b & Ha & Hb & Hnot). split; [by intros ? [= <-]|].
    simpl. split; [done|]. intros Hall. exfalso. apply Hnot. by apply (Hall i).
Qed.

(** ** The parameters of an [nn.Sequential] *)

Lemma pretty_N_go_no_dot (x : N) (s : string) :
  ~ In "."%char (String.list_ascii_of_string s) ->
  ~ In "."%char (String.list_ascii_of_string (pretty_N_go x s)).
Proof.
  revert s. induction (N.lt_wf_0 x) as [x _ IH]; intros s Hs.
  assert (x = 0 \/ 0 < x)%N as [->|?] by lia.
  - by rewrite pretty_N_go_0.
  - rewrite pretty_N_go_step by done. apply IH.
    { by apply N.div_lt. }
    simpl. intros [Hc|Hin]; [|done]. revert Hc.
    unfold pretty_N_char. by repeat case_match.
Qed.

Lemma pretty_nat_no_dot (n : nat) :
  ~ In "."%char (String.list_ascii_of_string (pretty n)).
Proof.
  unfold pretty, pretty_nat, pretty, pretty_N. case_decide.
  - simpl. by intros [Hc|[]].
  - apply pretty_N_go_no_dot. simpl. tauto.
Qed.

Lemma append_empty (s : string) : ("" +:+ s)%string = s.
Proof. reflexivity. Qed.

Lemma append_String (c : ascii) (a s : string) :
  (String c a +:+ s)%string = String c (a +:+ s).
Proof. reflexivity. Qed.

Lemma append_dot_inj (a a' r r' : string) :
  ~ In "."%char (String.list_ascii_of_string a) ->
  ~ In "."%char (String.list_ascii_of_string a') ->
  (a +:+ String "." r = a' +:+ String "." r')%string -> a = a' /\ r = r'.
Proof.
  revert a'. induction a as [|c a IH]; intros [|c' a'] Ha Ha' H;
    rewrite ?append_empty, ?append_String in H; simpl in *.
  - injection H as ->. done.
  - injection H as Hc _. exfalso. apply Ha'. by left.
  - injection H as Hc _. exfalso. apply Ha. by left.
  - injection H as -> H. destruct (IH a') as [-> ->]; [tauto..|done].
Qed.

(** A parameter name determines the position of its layer and whether it
    is the weight or the bias. *)
Lemma parameter_name_inj (j j' : nat) (r r' : string) :
  (pretty j +:+ String "." r = pretty j' +:+ String "." r')%string -> j = j' /\ r = r'.
Proof.
  intros H. apply append_dot_inj in H as [Hj ->]; [|apply pretty_nat_no_dot..].
  split; [|done]. by apply (inj pretty).
Qed.

Lemma sequential_from_app init idx (l1 l2 : list Layer) :
  sequential_from init idx (l1 ++ l2)
  = sequential_from init idx l1 ++ sequential_from init (idx + length l1) l2.
Proof.
  revert idx. induction l1 as [|l l1 IH]; intros idx; simpl.
  - by rewrite Nat.add_0_r.
  - rewrite IH, <- app_assoc. do 3 f_equal. lia.
Qed.

Lemma sequential_from_ReLU init idx (l : list Layer) :
  sequential_from init idx (l ++ [ReLU]) = sequential_from init idx l.
Proof. rewrite sequential_from_app. simpl. by rewrite app_nil_r. Qed.

Lemma names_sequential_from_elem init idx layers (n : string) :
  n ∈ names (sequential_from init idx layers) ->
  exists j, (idx <= j)%nat
    /\ (n = (pretty j +:+ ".weight")%string \/ n = (pretty j +:+ ".bias")%string).
Proof.
  revert idx. induction layers as [|l layers IH]; intros idx Hn; simpl in Hn.
  - by apply elem_of_nil in Hn.
  - unfold names in Hn. rewrite fmap_app in Hn. apply elem_of_app in Hn as [Hn|Hn].
    + destruct l; simpl in Hn; try by apply elem_of_nil in Hn.
      exists idx. split; [lia|].
      apply elem_of_cons in Hn as [->|Hn]; [by left|].
      apply elem_of_cons in Hn as [->|Hn]; [by right|].
      by apply elem_of_nil in Hn.
    + destruct (IH (S idx) Hn) as (j & Hj & Hn'). exists j. split; [lia|done].
Qed.

Lemma NoDup_names_sequential_from init idx layers :
  NoDup (names (sequential_from init idx layers)).
Proof.
  revert idx. induction layers as [|l layers IH]; intros idx; simpl.
  - constructor.
  - destruct l; simpl; try apply IH.
    unfold names. csimpl. constructor; [|constructor; [|apply IH]].
    + intros Hin. apply elem_of_cons in Hin as [Heq|Hin].
      * by apply parameter_name_inj in Heq as [_ ?].
      * apply names_sequential_from_elem in Hin as (j & Hj & [Heq|Heq]);
          apply parameter_name_inj in Heq as [? ?]; [lia|done].
    + intros Hin.
      apply names_sequential_from_elem in Hin as (j & Hj & [Heq|Heq]);
        apply parameter_name_inj in Heq as [? ?]; [done|lia].
Qed.

Lemma names_sequential_from init init' idx layers :
  names (sequential_from init idx layers) = names (sequential_from init' idx layers).
Proof.
  revert idx. induction layers as [|l layers IH]; intros idx; simpl; [done|].
  unfold names in *. rewrite !fmap_app, IH. f_equal. by destruct l.
Qed.

Lemma shapes_app (m1 m2 : Module) : shapes (m1 ++ m2) = shapes m1 ++ shapes m2.
Proof. unfold shapes, parameters. by rewrite !map_app. Qed.

Lemma shapes_sequential_from init init' idx layers :
  (forall name n, length (init name n) = n) ->
  (forall name n, length (init' name n) = n) ->
  shapes (sequential_from init idx layers) = shapes (sequential_from init' idx layers).
Proof.
  intros Hi Hi'. revert idx. induction layers as [|l layers IH]; intros idx; simpl; [done|].
  rewrite !shapes_app, IH. f_equal. destruct l; try done.
  unfold shapes, parameters. simpl. by rewrite !Hi, !Hi'.
Qed.

Lemma sequential_from_pairs init (f : nat -> list Layer) (G : nat -> Layer) (m k : nat) :
  (forall i, f i = [G i; ReLU]) ->
  (1 <= k)%nat ->
  sequential_from init (2 * k - 1) (flat_map f (seq k m))
  = flat_map (fun i => layer_params init (2 * i - 1) (G i)) (seq k m).
Proof.
  intros Hf. revert k. induction m as [|m IH]; intros k Hk; [done|].
  simpl seq. cbn [flat_map]. rewrite Hf. cbn [app sequential_from layer_params].
  replace (S (S (2 * k - 1))) with (2 * S k - 1)%nat by lia.
  by rewrite IH by lia.
Qed.

(** The module of the layers [create_mlp] returns: the parameters of the
    [Linear] layers, which sit at the odd positions. *)
Lemma sequential_create_mlp init (f : nat -> list Layer) (G : nat -> Layer) (m : nat) :
  (forall i, f i = [G i; ReLU]) ->
  Sequential init (removelast (Flatten :: flat_map f (seq 1 m)))
  = flat_map (fun i => layer_params init (2 * i - 1) (G i)) (seq 1 m).
Proof.
  intros Hf. destruct m as [|m]; [done|].
  rewrite <- (sequential_from_pairs init f G (S m) 1 Hf) by lia.
  rewrite seq_S, flat_map_app. cbn [flat_map]. rewrite Hf, app_nil_r.
  replace (Flatten :: flat_map f (seq 1 m) ++ [G (1 + m)%nat; ReLU])
    with ((Flatten :: flat_map f (seq 1 m) ++ [G (1 + m)%nat]) ++ [ReLU])
    by (by rewrite <- app_comm_cons, <- app_assoc).
  rewrite removelast_last.
  replace (flat_map f (seq 1 m) ++ [G (1 + m)%nat; ReLU])
    with ((flat_map f (seq 1 m) ++ [G (1 + m)%nat]) ++ [ReLU])
    by (by rewrite <- app_assoc).
  rewrite sequential_from_ReLU. reflexivity.
Qed.

Lemma names_linears init (a b : nat -> nat) (l : list nat) :
  names (flat_map (fun i => layer_params init (2 * i - 1) (Linear (a i) (b i))) l)
  = flat_map (fun i => [(pretty (2 * i - 1)%nat +:+ ".weight")%string;
                        (pretty (2 * i - 1)%nat +:+ ".bias")%string]) l.
Proof.
  induction l as [|i l IH]; [done|].
  cbn [flat_map]. unfold names in *. rewrite fmap_app, IH. reflexivity.
Qed.

Lemma shapes_linears init (a b : nat -> nat) (l : list nat) :
  (forall name n, length (init name n) = n) ->
  shapes (flat_map (fun i => layer_params init (2 * i - 1) (Linear (a i) (b i))) l)
  = flat_map (fun i => [(b i * a i)%nat; b i]) l.
Proof.
  intros Hinit. induction l as [|i l IH]; [done|].
  cbn [flat_map]. rewrite shapes_app, IH. f_equal.
  unfold shapes, parameters. simpl. by rewrite !Hinit.
Qed.

(** X11. The parameters of the model [create_mlp] builds from sizes that
    [nn.Linear] accepts (not negative, below [2^63], every layer
    allocated): for every index [i] of the loop, in order, a weight named
    ["(2i-1).weight"] with [sizes[i] * sizes[i-1]] entries and a bias named
    ["(2i-1).bias"] with [sizes[i]] entries; the [Flatten] and [ReLU]
    layers contribute none.  With fewer than two sizes the model has no
    parameter at all. *)
Theorem create_mlp_parameters (alloc : nat -> nat -> bool) (sizes : list nat)
    (init : string -> nat -> tensor) :
  Forall (fun n => (Z.of_nat n < 2 ^ 63)%Z) sizes ->
  (forall i, (i + 1 < length sizes)%nat ->
     alloc (sizes !!! i) (sizes !!! (i + 1)%nat) = true) ->
  (forall name n, length (init name n) = n) ->
  exists layers,
    create_mlp alloc (Z.of_nat <$> sizes) = Ok layers
    /\ names (Sequential init layers)
       = flat_map (fun i => [(pretty (2 * i - 1)%nat +:+ ".weight")%string;
                             (pretty (2 * i - 1)%nat +:+ ".bias")%string])
                  (seq 1 (length sizes - 1))
    /\ shapes (Sequential init layers)
       = flat_map (fun i => [(sizes !!! i * sizes !!! (i - 1)%nat)%nat; sizes !!! i])
                  (seq 1 (length sizes - 1)).
Proof.
  intros Hbound Halloc Hinit. eexists. split; [by apply create_mlp_of_nat|].
  rewrite (sequential_create_mlp init _
             (fun i => Linear (sizes !!! (i - 1)%nat) (sizes !!! i))) by done.
  split.
  - apply (names_linears init (fun i => sizes !!! (i - 1)%nat) (fun i => sizes !!! i)).
  - by apply (shapes_linears init (fun i => sizes !!! (i - 1)%nat) (fun i => sizes !!! i)).
Qed.

(** X12. Two models that [nn.Sequential] builds from the same layers have
    the same parameter names and sizes whatever their initial values, and
    no name occurs twice; so loading the state of the one into the other,
    as line 67 does with the two results of [create_model], succeeds and
    copies every parameter. *)
Theorem sequential_models_same_structure (init0 init1 : string -> nat -> tensor)
    (layers : list Layer) (line : nat) :
  (forall name n, length (init0 name n) = n) ->
  (forall name n, length (init1 name n) = n) ->
  same_structure (Sequential init0 layers) (Sequential init1 layers)
  /\ NoDup (names (Sequential init1 layers))
  /\ exists m',
       load_state_dict line (Sequential init0 layers)
         (deepcopy (state_dict (Sequential init1 layers))) = Ok m'
       /\ named_parameters m' = named_parameters (Sequential init1 layers).
Proof.
  intros H0 H1.
  assert (Hs : same_structure (Sequential init0 layers) (Sequential init1 layers)).
  { split; [apply names_sequential_from | by apply shapes_sequential_from]. }
  assert (Hnd : NoDup (names (Sequential init1 layers)))
    by apply NoDup_names_sequential_from.
  split; [exact Hs|]. split; [exact Hnd|].
  destruct (load_state_dict_same_structure line _ _ Hs Hnd) as (m' & Hm' & Hnp & _).
  by exists m'.
Qed.

(** ** The dataset limit of [main] *)

Lemma Subset_seq {E} line (ds : list E) (n k : nat) :
  (k + n <= length ds)%nat ->
  Subset line ds (seq k n) = Ok (take n (drop k ds)).
Proof.
  revert k. induction n as [|n IH]; intros k Hk; [done|].
  destruct (lookup_lt_is_Some_2 ds k) as [x Hx]; [lia|].
  simpl seq. cbn [Subset]. rewrite (py_index_Some line _ _ _ Hx).
  cbn [mbind result_bind]. rewrite IH by lia.
  cbn [mbind result_bind mret result_ret]. by rewrite (drop_S _ _ _ Hx).
Qed.

(** X13. The dataset [main] trains on is the first [max_dataset_size]
    examples of the training set, in their order, and the whole set when
    no limit is given or the limit is at least its size; building the
    [Subset] never raises.  A limit of zero or below leaves no example. *)
Theorem limit_dataset_is_prefix {E} (max_dataset_size : option Z) (train_ds : list E) :
  limit_dataset max_dataset_size train_ds
  = Ok (match max_dataset_size with
        | Some m => take (Z.to_nat m) train_ds
        | None => train_ds
        end)
  /\ (forall m, max_dataset_size = Some m -> (m <= 0)%Z ->
        limit_dataset max_dataset_size train_ds = Ok []).
Proof.
  assert (H : limit_dataset max_dataset_size train_ds
              = Ok (match max_dataset_size with
                    | Some m => take (Z.to_nat m) train_ds
                    | None => train_ds
                    end)).
  { unfold limit_dataset. destruct max_dataset_size as [m|]; [|done].
    case_decide as Hm.
    - unfold py_range. by rewrite Subset_seq by (simpl; lia).
    - by rewrite take_ge by lia. }
  split; [exact H|]. intros m -> Hm. rewrite H.
  by replace (Z.to_nat m) with 0%nat by lia.
Qed.

(** ** Instances of the further properties *)

(** Instance of X2: the first outer epoch of the toy run. *)
Lemma last_iterate_is_working_model_witness :
  choose_random_iterate toy_cfg = false
  /\ exists s',
       outer_epoch_body toy toy_loader toy_cfg 1 (initial_state toy) = Ok s'
       /\ state_dict (target_model s') = state_dict (model s')
       /\ named_parameters (target_model s') = named_parameters (model s').
Proof.
  split; [reflexivity|].
  destruct (outer_epoch_body_returns toy toy_loader toy_cfg
              ["1.weight"; "1.bias"]%string [2; 1]%nat 1 (initial_state toy)
              toy_well_formed ltac:(done) ltac:(done) ltac:(compute_done) ltac:(done))
    as (s' & H & Hn1 & _ & Hn2 & _).
  exists s'. split; [exact H|].
  destruct (last_iterate_is_working_model toy toy_loader toy_cfg 1 _ s' eq_refl H)
    as [H1 H2].
  split; [exact H1|].
  apply H2; [by rewrite Hn1, Hn2 | rewrite Hn1; compute_done].
Defined.

(** Instance of X3: one inner batch of the toy model, whose working and
    target models differ in the bias. *)
Lemma svrg_inner_update_witness :
  grad_shaped toy
  /\ shapes (target_model (st toy_locals)) = shapes (model (st toy_locals))
  /\ cat (parameters (model (st (inner_batch toy toy_cfg [q 1 1; 0; q 1 2]
                                   [q 1 1; q 2 1] toy_locals))))
     = vsub (cat (parameters (model (st toy_locals))))
         (vscale (learning_rate toy_cfg)
            (vadd
               (vsub (cat (loss_grad toy (parameters (model (st toy_locals)))
                             [q 1 1; q 2 1]))
                     (vsub (cat (loss_grad toy (parameters (target_model (st toy_locals)))
                                   [q 1 1; q 2 1]))
                           [q 1 1; 0; q 1 2]))
               (vscale (weight_decay toy_cfg) (cat (parameters (model (st toy_locals)))))))
  /\ cat (parameters (model (st (inner_batch toy toy_cfg [q 1 1; 0; q 1 2]
                                   [q 1 1; q 2 1] toy_locals))))
     = [q 19 10; q 3 1; q 1 20].
Proof.
  assert (Hs : shapes (target_model (st toy_locals)) = shapes (model (st toy_locals)))
    by reflexivity.
  split; [apply toy_grad_shaped|]. split; [exact Hs|]. split.
  - apply (svrg_inner_update toy toy_cfg [q 1 1; 0; q 1 2] [q 1 1; q 2 1] toy_locals
             toy_grad_shaped Hs eq_refl).
  - compute_done.
Defined.

(** Instance of X5: the toy run with a random source that always draws 0. *)
Lemma train_ignores_random_source_witness :
  choose_random_iterate toy_cfg = false
  /\ train (with_randbelow (fun _ _ => 0%nat) toy) toy_loader toy_cfg
     = train toy toy_loader toy_cfg.
Proof.
  split; [reflexivity|].
  apply (train_ignores_random_source toy toy_loader toy_cfg (fun _ _ => 0%nat) eq_refl).
Defined.

(** Instance of X6: the toy run with a clock twice as fast. *)
Lemma train_ignores_advancing_clock_witness :
  train (with_clock (fun t => of_nat (2 * t)) toy) toy_loader toy_cfg
  = train toy toy_loader toy_cfg.
Proof.
  apply (train_ignores_advancing_clock toy toy_loader toy_cfg (fun t => of_nat (2 * t))).
  - intros t H. apply of_nat_inj in H. lia.
  - intros t H. apply of_nat_inj in H. lia.
Defined.

(** Instance of X7: the toy run with a clock that always reads 0. *)
Lemma stopped_clock_raises_witness :
  dataset toy_loader <> []
  /\ (1 <= num_warmup_epochs toy_cfg)%Z
  /\ 0 <= warmup_learning_rate toy_cfg
  /\ 0 <= weight_decay toy_cfg
  /\ create_model toy 1 <> []
  /\ train (with_clock (fun _ => 0) toy) toy_loader toy_cfg
     = Raise (Failure ZeroDivisionError 50).
Proof.
  assert (Hds : dataset toy_loader <> []) by done.
  assert (Hw : (1 <= num_warmup_epochs toy_cfg)%Z) by done.
  assert (Hlr : 0 <= warmup_learning_rate toy_cfg) by done.
  assert (Hwd : 0 <= weight_decay toy_cfg) by done.
  assert (Hne : create_model toy 1 <> []) by done.
  split; [exact Hds|]. split; [exact Hw|]. split; [exact Hlr|]. split; [exact Hwd|].
  split; [exact Hne|].
  destruct (stopped_clock_raises (with_clock (fun _ => 0) toy) toy_loader toy_cfg Hds)
    as (_ & _ & H).
  exact (H Hw Hlr Hwd Hne eq_refl).
Defined.

(** Instance of X8: the toy run without inner epochs, which raises at the
    selection of line 130. *)
Lemma train_raises_only_expected_witness :
  train toy toy_loader (with_epochs 1 1 0 toy_cfg) = Raise (Failure IndexError 130)
  /\ Failure IndexError 130 ∈ expected_failures.
Proof.
  assert (H : train toy toy_loader (with_epochs 1 1 0 toy_cfg)
              = Raise (Failure IndexError 130)) by (vm_compute; reflexivity).
  split; [exact H|].
  apply (train_raises_only_expected toy toy_loader (with_epochs 1 1 0 toy_cfg)
           (Failure IndexError 130) toy_grad_shaped);
    [done | compute_done | exact H].
Defined.

(** Instance of X9: the default layer sizes of [main], on a machine
    that can allocate the layers. *)
Lemma create_mlp_layout_witness :
  exists layers,
    create_mlp (fun _ _ => true) [784; 100; 10]%Z = Ok layers
    /\ length layers = 4%nat
    /\ layers !! 0%nat = Some Flatten
    /\ layers !! 1%nat = Some (Linear 784 100)
    /\ layers !! 2%nat = Some ReLU
    /\ layers !! 3%nat = Some (Linear 100 10).
Proof.
  destruct (create_mlp_layout (fun _ _ => true) [784; 100; 10]%nat ltac:(simpl; lia))
    as (layers & H & Hlen & H0 & Hlin & Hrelu).
  { repeat constructor; lia. }
  { done. }
  exists layers. split; [exact H|]. split; [exact Hlen|]. split; [exact H0|].
  split; [exact (Hlin 0%nat ltac:(simpl; lia))|].
  split; [exact (Hrelu 0%nat ltac:(simpl; lia))|].
  exact (Hlin 1%nat ltac:(simpl; lia)).
Defined.

(** Instance of X11: the model of the sizes 4, 3, 2. *)
Lemma create_mlp_parameters_witness :
  exists layers,
    create_mlp (fun _ _ => true) [4; 3; 2]%Z = Ok layers
    /\ names (Sequential (fun _ n => zeros n) layers)
       = ["1.weight"; "1.bias"; "3.weight"; "3.bias"]%string
    /\ shapes (Sequential (fun _ n => zeros n) layers) = [12; 3; 6; 2]%nat.
Proof.
  destruct (create_mlp_parameters (fun _ _ => true) [4; 3; 2]%nat (fun _ n => zeros n))
    as (layers & H & Hn & Hs).
  { repeat constructor; lia. }
  { done. }
  { intros _ n. apply length_replicate. }
  exists layers. split; [exact H|]. split; [exact Hn | exact Hs].
Defined.

(** Instance of X12: two models of one [Linear] layer from 2 to 1, the one
    initialised with zeros and the other with ones. *)
Lemma sequential_models_same_structure_witness :
  same_structure (Sequential (fun _ n => zeros n) [Flatten; Linear 2 1])
                 (Sequential (fun _ n => replicate n 1) [Flatten; Linear 2 1])
  /\ NoDup (names (Sequential (fun _ n => replicate n 1) [Flatten; Linear 2 1]))
  /\ exists m',
       load_state_dict 67 (Sequential (fun _ n => zeros n) [Flatten; Linear 2 1])
         (deepcopy (state_dict (Sequential (fun _ n => replicate n 1)
                                  [Flatten; Linear 2 1]))) = Ok m'
       /\ named_parameters m'
          = named_parameters (Sequential (fun _ n => replicate n 1) [Flatten; Linear 2 1]).
Proof.
  apply (sequential_models_same_structure (fun _ n => zeros n) (fun _ n => replicate n 1)
           [Flatten; Linear 2 1] 67
           (fun _ n => length_replicate n 0) (fun _ n => length_replicate n 1)).
Defined.

(** Instance of X14: one warmup batch of the toy model, and the warmup of
    the toy run. *)
Lemma warmup_is_sgd_on_target_witness :
  grad_shaped toy
  /\ cat (parameters (warmup_batch toy toy_cfg [q 1 1; q 2 1] (toy_module 1, 0)).1)
     = vsub [q 2 1; q 3 1; q 1 1]
         (vscale (warmup_learning_rate toy_cfg)
            (vadd (cat (loss_grad toy (parameters (toy_module 1)) [q 1 1; q 2 1]))
                  (vscale (weight_decay toy_cfg) [q 2 1; q 3 1; q 1 1])))
  /\ cat (parameters (warmup_batch toy toy_cfg [q 1 1; q 2 1] (toy_module 1, 0)).1)
     = [q 39 20; q 57 20; q 21 20]
  /\ exists s',
       warmup toy toy_loader toy_cfg (initial_state toy) = Ok s'
       /\ model s' = model (initial_state toy)
       /\ draws s' = draws (initial_state toy).
Proof.
  split; [apply toy_grad_shaped|].
  returns (warmup toy toy_loader toy_cfg (initial_state toy)) s' H.
  destruct (warmup_is_sgd_on_target toy toy_loader toy_cfg [q 1 1; q 2 1]
              (toy_module 1, 0) (initial_state toy) s' toy_grad_shaped)
    as (H1 & _ & H3).
  split; [exact H1|]. split; [compute_done|].
  exists s'. split; [exact H|]. exact (H3 H).
Defined.

(** Instance of X15: the toy run with a working model created with other
    values and gradients. *)
Lemma train_ignores_working_model_init_witness :
  train (with_create_model
           (fun k => match k with
                     | O => [("1.weight"%string, {| data := [q 5 1; q 7 1]; grad := [1; 1] |});
                             ("1.bias"%string, {| data := [q 9 1]; grad := [q 3 1] |})]
                     | S _ => toy_module k
                     end) toy) toy_loader toy_cfg
  = train toy toy_loader toy_cfg.
Proof.
  apply (train_ignores_working_model_init toy toy_loader toy_cfg
           (fun k => match k with
                     | O => [("1.weight"%string, {| data := [q 5 1; q 7 1]; grad := [1; 1] |});
                             ("1.bias"%string, {| data := [q 9 1]; grad := [q 3 1] |})]
                     | S _ => toy_module k
                     end) eq_refl eq_refl eq_refl).
Defined.
